(** * LogicBackup: live-location tracking, driver assignment and booking
      availability

    A shallow embedding of the client-side core of the logistics application:
    - [lib/firebase-utils], whose text is in [src/lib/fallback-location.ts]
      (tracking identity, location store, vehicle-driver assignment,
      booking-vehicle availability), and
    - [src/components/DriverLocationUpdater.tsx] (throttle, GPS retry policy,
      IP fallback).

    Conventions of the embedding.
    - JavaScript strings are [string]s (code units below 256; Firebase keys
      and the identifiers used by the application are ASCII).
    - JavaScript numbers that hold coordinates or distances are binary64
      [float]s; numbers that hold integers (hashes, millisecond time stamps)
      are [Z], with the 32-bit wrap-around of the bit operators written out.
    - The realtime database is a record of finite maps, one per collection.
    - An [async] function is a function in a state-and-exception monad: the
      state is threaded through every store access, a [throw] aborts the
      rest of the computation and keeps the writes already made.
    - One client runs at a time and the store answers every request: the
      only exceptions are the ones the code throws itself. What the
      outside decides (the clock, the keys of [push], the answers of the
      device and of the IP services, the random draw) is a parameter. *)

From Stdlib Require Import ZArith String Ascii List Floats Lia Bool.
From Stdlib Require Import DecimalString Sorted.
From stdpp Require Import gmap strings.

Set Warnings "-inexact-float".
Local Open Scope Z_scope.

(* ===================================================================== *)
(** * JavaScript primitives used by the sources *)
(* ===================================================================== *)

Module JS.

(** [ToInt32]: the conversion applied by the bit operators [<<] and [&]. *)
Definition ToInt32 (z : Z) : Z := (z + 2 ^ 31) mod 2 ^ 32 - 2 ^ 31.

(** [x << k] on numbers. *)
Definition shl (x k : Z) : Z := ToInt32 (Z.shiftl (ToInt32 x) (Z.land k 31)).

(** [x & y] on numbers. *)
Definition band (x y : Z) : Z := ToInt32 (Z.land (ToInt32 x) (ToInt32 y)).

(** [s.charCodeAt(i)] for the character [c] found at index [i]. *)
Definition charCode (c : ascii) : Z := Z.of_nat (nat_of_ascii c).

(** Truthiness of a string: only the empty string is falsy. *)
Definition truthy (s : string) : bool :=
  match s with EmptyString => false | String _ _ => true end.

(** Truthiness of an optional string field ([undefined] and [null] are
    falsy, and so is the empty string). *)
Definition truthy_opt (o : option string) : bool :=
  match o with Some s => truthy s | None => false end.

(** [o || null] on an optional string. *)
Definition or_null (o : option string) : option string :=
  if truthy_opt o then o else None.

(** Truthiness of a number: [0], [-0] and [NaN] are falsy. *)
Definition truthy_num (x : float) : bool :=
  negb (PrimFloat.is_zero x || PrimFloat.is_nan x).

(** The character class [[a-zA-Z0-9]]. *)
Definition is_alnum (c : ascii) : bool :=
  let n := nat_of_ascii c in
  ((48 <=? n) && (n <=? 57) || (65 <=? n) && (n <=? 90)
   || (97 <=? n) && (n <=? 122))%nat.

(** [toUpperCase] on one character; it is only applied to characters of
    the class above, where it moves [a-z] to [A-Z]. *)
Definition upper (c : ascii) : ascii :=
  let n := nat_of_ascii c in
  if ((97 <=? n) && (n <=? 122))%nat then ascii_of_nat (n - 32) else c.

Definition chars (s : string) : list ascii := list_ascii_of_string s.
Definition of_chars (l : list ascii) : string := string_of_list_ascii l.

(** [s.replace(/[^a-zA-Z0-9]/g, '')]. *)
Definition strip_non_alnum (s : string) : string :=
  of_chars (List.filter is_alnum (chars s)).

(** [s.substring(0, n)]. *)
Definition substring0 (n : nat) (s : string) : string :=
  of_chars (firstn n (chars s)).

Definition toUpperCase (s : string) : string :=
  of_chars (List.map upper (chars s)).

(** [n.toString()] for an integral number. *)
Definition toString (n : Z) : string := NilZero.string_of_int (Z.to_int n).

Fixpoint repeat_char (c : ascii) (n : nat) : string :=
  match n with O => EmptyString | S k => String c (repeat_char c k) end.

(** [s.padStart(n, '0')]. *)
Definition padStart0 (n : nat) (s : string) : string :=
  (repeat_char "0"%char (n - String.length s) ++ s)%string.

(** [Math.abs(x % m)] on integral numbers: [%] truncates towards zero. *)
Definition abs_rem (x m : Z) : Z := Z.abs (Z.rem x m).

End JS.

(* ===================================================================== *)
(** * Tracking identity: the derived code *)
(* ===================================================================== *)

Module TrackingCode.
Import JS.

(** One turn of the loop of [generateConsistentTrackingId]:
    [hash = ((hash << 5) - hash) + vehicleId.charCodeAt(i); hash = hash & hash]. *)
Definition hash_step (hash : Z) (c : ascii) : Z :=
  let hash := (shl hash 5 - hash) + charCode c in
  band hash hash.

Definition hash_loop (vehicleId : string) : Z :=
  fold_left hash_step (chars vehicleId) 0.

Definition shortId (vehicleId : string) : string :=
  toUpperCase (substring0 4 (strip_non_alnum vehicleId)).

Definition uniqueDigits (vehicleId : string) : string :=
  padStart0 4 (toString (abs_rem (hash_loop vehicleId) 10000)).

Definition generateConsistentTrackingId (vehicleId : string) : string :=
  (shortId vehicleId ++ uniqueDigits vehicleId)%string.

(** [generateShortId]: [fullId.slice(-6)], the last six characters. *)
Definition generateShortId (fullId : string) : string :=
  of_chars (skipn (List.length (chars fullId) - 6) (chars fullId)).

(** ** The description of the code in the words of the specification *)

(** The polynomial [c_0 * 31^(n-1) + ... + c_(n-1)] of the code units. *)
Fixpoint poly31 (acc : Z) (cs : list ascii) : Z :=
  match cs with
  | [] => acc
  | c :: cs' => poly31 (31 * acc + charCode c) cs'
  end.

Definition rolling_hash (vehicleId : string) : Z :=
  ToInt32 (poly31 0 (chars vehicleId)).

Definition digit (d : Z) : ascii := ascii_of_nat (48 + Z.to_nat d).

(** Four decimal digits, most significant first. *)
Definition four_digits (n : Z) : string :=
  of_chars [digit (n / 1000); digit (n / 100 mod 10);
            digit (n / 10 mod 10); digit (n mod 10)].

(** The code and the description agree on the digits of [n]; used to
    check the 10000 values one by one. *)
Definition pad_agrees (n : Z) : bool :=
  String.eqb (padStart0 4 (toString n)) (four_digits n).

Definition below_10000 : list Z := List.map Z.of_nat (seq 0 (Z.to_nat 10000)).

(** Up to four alphanumeric characters of the identifier, uppercased. *)
Definition prefix4 (vehicleId : string) : string :=
  of_chars (List.map upper (firstn 4 (List.filter is_alnum (chars vehicleId)))).

End TrackingCode.

(* ===================================================================== *)
(** * The platform: what the browser and the Firebase client supply *)
(* ===================================================================== *)

(** ECMAScript leaves [Math.sin], [Math.cos] and [Math.atan2] to the
    implementation, the clock and the keys made by [push] come from the
    outside: the development is parametric in them. [Date_clock n] is what
    the [n]-th reading of the outside world returns when it is a call of
    [Date.now()], [push_key n] when it is a call of [push];
    [parseFloat_string] is [parseFloat] on a string. *)
Class Platform := {
  Math_sin : float -> float;
  Math_cos : float -> float;
  Math_atan2 : float -> float -> float;
  parseFloat_string : string -> float;
  Date_clock : nat -> Z;
  push_key : nat -> string
}.

(* ===================================================================== *)
(** * Haversine distance *)
(* ===================================================================== *)

Module Geo.
Import JS.
Local Open Scope float_scope.

Record Coord := { lat : float; lng : float }.

Definition Math_PI : float := 0x1.921fb54442d18p+1.

Section WithPlatform.
Context `{Platform}.

(** The formula of [calculateDistance] below its guard. *)
Definition haversine (lat1 lon1 lat2 lon2 : float) : float :=
  let R := 6371e3 in
  let phi1 := lat1 * Math_PI / 180 in
  let phi2 := lat2 * Math_PI / 180 in
  let dphi := (lat2 - lat1) * Math_PI / 180 in
  let dlambda := (lon2 - lon1) * Math_PI / 180 in
  let a := Math_sin (dphi / 2) * Math_sin (dphi / 2) +
           Math_cos phi1 * Math_cos phi2 *
           Math_sin (dlambda / 2) * Math_sin (dlambda / 2) in
  let c := 2 * Math_atan2 (PrimFloat.sqrt a) (PrimFloat.sqrt (1 - a)) in
  R * c.

(** [calculateDistance], the same text in [firebase-utils] and in
    [DriverLocationUpdater.tsx]:
    [if (!lat1 || !lon1 || !lat2 || !lon2) return Infinity]. *)
Definition calculateDistance (lat1 lon1 lat2 lon2 : float) : float :=
  if negb (truthy_num lat1) || negb (truthy_num lon1)
     || negb (truthy_num lat2) || negb (truthy_num lon2)
  then infinity
  else haversine lat1 lon1 lat2 lon2.

End WithPlatform.
End Geo.

(* ===================================================================== *)
(** * Asynchronous functions: state and exceptions *)
(* ===================================================================== *)

Module Async.

Inductive Res (A : Type) : Type :=
| Ok (a : A)
| Throw (message : string).
Arguments Ok {A} a.
Arguments Throw {A} message.

(** A computation over a state [S]: it ends with a value or with a thrown
    [Error] (its message), and in both cases with the state it reached. *)
Definition M (S A : Type) : Type := S -> Res A * S.

Definition ret {S A} (a : A) : M S A := fun s => (Ok a, s).

Definition bind {S A B} (m : M S A) (k : A -> M S B) : M S B :=
  fun s => match m s with
           | (Ok a, s') => k a s'
           | (Throw e, s') => (Throw e, s')
           end.

Definition throw {S A} (message : string) : M S A := fun s => (Throw message, s).

(** [try { body } catch (error) { handler(error.message) }]. *)
Definition try_catch {S A} (body : M S A) (handler : string -> M S A) : M S A :=
  fun s => match body s with
           | (Ok a, s') => (Ok a, s')
           | (Throw e, s') => handler e s'
           end.

Definition gets {S A} (f : S -> A) : M S A := fun s => (Ok (f s), s).
Definition modify {S} (f : S -> S) : M S unit := fun s => (Ok tt, f s).

(** Running a computation on a part of the state. *)
Definition zoom {S T A} (get : S -> T) (set : T -> S -> S) (m : M T A) : M S A :=
  fun s => let (r, t) := m (get s) in (r, set t s).

Definition result {S A} (p : Res A * S) : Res A := fst p.
Definition final {S A} (p : Res A * S) : S := snd p.

End Async.

Notation "'let*' x ':=' m 'in' k" := (Async.bind m (fun x => k))
  (at level 10, x name, m at level 100, k at level 200).

(* ===================================================================== *)
(** * The realtime database and the session *)
(* ===================================================================== *)

Module Store.
Import JS Geo Async.

(** A record under [vehicles/]. Every field may be missing: [update]
    creates the node it is applied to. [v_name] stands for the
    descriptive fields (name, model, type, capacity, price, image,
    specifications, createdAt), which no operation below reads or
    writes one by one. *)
Record Vehicle := {
  v_name : option string;
  v_available : option bool;
  v_driverId : option string;
  v_updatedAt : option Z
}.

(** A record under [users/]; [u_name] stands for email, name, phone
    and avatar. *)
Record User := {
  u_name : option string;
  u_role : option string;
  u_assignedVehicleId : option string;
  u_updatedAt : option Z
}.

Record VehicleLocation := {
  l_vehicleId : string;
  l_trackingId : string;
  l_lat : float;
  l_lng : float;
  l_timestamp : Z;
  l_updatedBy : string
}.

Record TrackingIdentity := {
  t_trackingId : string;
  t_vehicleId : string;
  t_createdAt : Z;
  t_createdBy : string
}.

Inductive BookingStatus :=
| pending_payment | pending | in_progress | completed | cancelled | converted.

Inductive PaymentStatus := payment_pending | paid | failed.

Record Route := {
  pickupAddress : string;
  destinationAddress : string;
  pickupLat : float;
  pickupLng : float;
  destinationLat : float;
  destinationLng : float;
  distance : float;
  estimatedTime : string
}.

Record Booking := {
  b_id : string;
  b_shortId : string;
  b_userId : string;
  b_vehicleId : string;
  b_driverId : string;
  b_route : Route;
  b_amount : float;
  b_status : BookingStatus;
  b_paymentStatus : PaymentStatus;
  b_createdAt : Z;
  b_updatedAt : Z;
  b_paymentId : option string;
  b_shipmentId : option string
}.

(** [Partial<Booking>]: the fields a caller may patch. *)
Record BookingPatch := {
  p_status : option BookingStatus;
  p_paymentStatus : option PaymentStatus;
  p_vehicleId : option string;
  p_driverId : option string;
  p_paymentId : option string;
  p_shipmentId : option string
}.

Record Db := {
  vehicles : gmap string Vehicle;
  users : gmap string User;
  bookings : gmap string Booking;
  vehicleLocations : gmap string VehicleLocation;
  vehicleTrackingIds : gmap string TrackingIdentity
}.

(** The database, the signed-in user ([auth.currentUser.uid]) and the
    number of readings of the outside world made so far. *)
Record World := {
  db : Db;
  currentUser : option string;
  tick : nat
}.

(** One more reading of the outside world. *)
Definition tick_once (w : World) : World :=
  {| db := db w; currentUser := currentUser w; tick := S (tick w) |}.

Definition with_db (f : Db -> Db) (w : World) : World :=
  {| db := f (db w); currentUser := currentUser w; tick := tick w |}.

Definition set_vehicles (m : gmap string Vehicle) (d : Db) : Db :=
  {| vehicles := m; users := users d; bookings := bookings d;
     vehicleLocations := vehicleLocations d;
     vehicleTrackingIds := vehicleTrackingIds d |}.

Definition set_users (m : gmap string User) (d : Db) : Db :=
  {| vehicles := vehicles d; users := m; bookings := bookings d;
     vehicleLocations := vehicleLocations d;
     vehicleTrackingIds := vehicleTrackingIds d |}.

Definition set_bookings (m : gmap string Booking) (d : Db) : Db :=
  {| vehicles := vehicles d; users := users d; bookings := m;
     vehicleLocations := vehicleLocations d;
     vehicleTrackingIds := vehicleTrackingIds d |}.

Definition set_vehicleLocations (m : gmap string VehicleLocation) (d : Db) : Db :=
  {| vehicles := vehicles d; users := users d; bookings := bookings d;
     vehicleLocations := m;
     vehicleTrackingIds := vehicleTrackingIds d |}.

Definition set_vehicleTrackingIds (m : gmap string TrackingIdentity) (d : Db) : Db :=
  {| vehicles := vehicles d; users := users d; bookings := bookings d;
     vehicleLocations := vehicleLocations d;
     vehicleTrackingIds := m |}.

(** The node [update] starts from when the path holds nothing. *)
Definition no_vehicle : Vehicle :=
  {| v_name := None; v_available := None; v_driverId := None; v_updatedAt := None |}.
Definition no_user : User :=
  {| u_name := None; u_role := None; u_assignedVehicleId := None; u_updatedAt := None |}.

(** [update(ref(database, `vehicles/${id}`), fields)]: merges the fields
    into the node; a field given as [null] is removed. *)
Definition patch_vehicle (id : string) (f : Vehicle -> Vehicle) (d : Db) : Db :=
  set_vehicles (<[id := f (default no_vehicle (vehicles d !! id))]> (vehicles d)) d.

Definition patch_user (id : string) (f : User -> User) (d : Db) : Db :=
  set_users (<[id := f (default no_user (users d !! id))]> (users d)) d.

Definition put_driverId (driverId : option string) (now : Z) (v : Vehicle) : Vehicle :=
  {| v_name := v_name v; v_available := v_available v;
     v_driverId := driverId; v_updatedAt := Some now |}.

Definition put_available (a : bool) (now : Z) (v : Vehicle) : Vehicle :=
  {| v_name := v_name v; v_available := Some a;
     v_driverId := v_driverId v; v_updatedAt := Some now |}.

Definition put_assignedVehicleId (vehicleId : option string) (now : Z) (u : User) : User :=
  {| u_name := u_name u; u_role := u_role u;
     u_assignedVehicleId := vehicleId; u_updatedAt := Some now |}.

Definition apply_patch (p : BookingPatch) (now : Z) (b : Booking) : Booking :=
  {| b_id := b_id b; b_shortId := b_shortId b; b_userId := b_userId b;
     b_vehicleId := default (b_vehicleId b) (p_vehicleId p);
     b_driverId := default (b_driverId b) (p_driverId p);
     b_route := b_route b; b_amount := b_amount b;
     b_status := default (b_status b) (p_status p);
     b_paymentStatus := default (b_paymentStatus b) (p_paymentStatus p);
     b_createdAt := b_createdAt b; b_updatedAt := now;
     b_paymentId := match p_paymentId p with Some x => Some x | None => b_paymentId b end;
     b_shipmentId := match p_shipmentId p with Some x => Some x | None => b_shipmentId b end |}.

Section WithPlatform.
Context `{Platform}.

(** [Date.now()]. *)
Definition Date_now : M World Z :=
  fun w => (Ok (Date_clock (tick w)), tick_once w).

(** [push(ref(database, collection)).key]. *)
Definition push : M World string :=
  fun w => (Ok (push_key (tick w)), tick_once w).

(** [requireAuth]: the signed-in user, or [Error('Not authenticated')]. *)
Definition requireAuth : M World string :=
  fun w => match currentUser w with
           | Some uid => (Ok uid, w)
           | None => (Throw "Not authenticated", w)
           end.

(** [get(ref(database, path))] followed by [snapshot.exists()] and
    [snapshot.val()]. *)
Definition get {V} (collection : Db -> gmap string V) (id : string)
  : M World (option V) :=
  gets (fun w => collection (db w) !! id).

Definition write (f : Db -> Db) : M World unit := modify (with_db f).

End WithPlatform.
End Store.

(* ===================================================================== *)
(** * lib/firebase-utils *)
(* ===================================================================== *)

Module FirebaseUtils.
Import JS Geo Async Store TrackingCode.
Local Open Scope string_scope.

Section WithPlatform.
Context `{Platform}.

(** [getOrCreateTrackingId]. *)
Definition getOrCreateTrackingId (vehicleId : string) : M World string :=
  try_catch
    (let* snapshot := get vehicleTrackingIds vehicleId in
     match snapshot with
     | Some data => ret (t_trackingId data)
     | None =>
         let trackingId := generateConsistentTrackingId vehicleId in
         let* createdAt := Date_now in
         let* uid := requireAuth in
         let trackingData :=
           {| t_trackingId := trackingId; t_vehicleId := vehicleId;
              t_createdAt := createdAt; t_createdBy := uid |} in
         let* _ := write (fun d =>
           set_vehicleTrackingIds (<[vehicleId := trackingData]> (vehicleTrackingIds d)) d) in
         ret trackingId
     end)
    (fun _ => ret (generateConsistentTrackingId vehicleId)).

(** ** vehicleService *)

(** The part of [assignDriver] run when a driver is being assigned. *)
Definition assign_branch (vehicleId driverId : string)
    (currentDriverId : option string) : M World unit :=
  let* driverSnapshot := get users driverId in
  match driverSnapshot with
  | None => throw ("Driver not found: " ++ driverId)
  | Some driverData =>
      if negb (bool_decide (u_role driverData = Some "driver"))
      then throw "User is not a driver"
      else
        let* _ :=
          match u_assignedVehicleId driverData with
          | Some assigned =>
              if truthy assigned && negb (String.eqb assigned vehicleId)
              then
                let* now := Date_now in
                write (patch_vehicle assigned (put_driverId None now))
              else ret tt
          | None => ret tt
          end in
        let* now := Date_now in
        let* _ := write (patch_user driverId (put_assignedVehicleId (Some vehicleId) now)) in
        match currentDriverId with
        | Some previous =>
            if negb (String.eqb previous driverId)
            then
              let* now := Date_now in
              write (patch_user previous (put_assignedVehicleId None now))
            else ret tt
        | None => ret tt
        end
  end.

(** The part of [assignDriver] run when the driver is being unassigned. *)
Definition unassign_branch (currentDriverId : option string) : M World unit :=
  match currentDriverId with
  | Some previous =>
      let* now := Date_now in
      write (patch_user previous (put_assignedVehicleId None now))
  | None => ret tt
  end.

(** [vehicleService.assignDriver(vehicleId, driverId)], [driverId] being
    a string or [null]. *)
Definition assignDriver (vehicleId : string) (driverId : option string)
  : M World unit :=
  let* currentUser := requireAuth in
  if negb (truthy vehicleId) then throw "Vehicle ID is required"
  else
    try_catch
      (let* vehicleSnapshot := get vehicles vehicleId in
       match vehicleSnapshot with
       | None => throw ("Vehicle not found: " ++ vehicleId)
       | Some vehicleData =>
           let currentDriverId := or_null (v_driverId vehicleData) in
           let* _ :=
             match driverId with
             | Some d =>
                 if truthy d then assign_branch vehicleId d currentDriverId
                 else unassign_branch currentDriverId
             | None => unassign_branch currentDriverId
             end in
           let* now := Date_now in
           write (patch_vehicle vehicleId (put_driverId driverId now))
       end)
      (fun message => throw ("Failed to assign driver: " ++ message)).

Definition markVehicleAsInUse (vehicleId : string) : M World unit :=
  let* now := Date_now in
  write (patch_vehicle vehicleId (put_available false now)).

Definition markVehicleAsAvailable (vehicleId : string) : M World unit :=
  let* now := Date_now in
  write (patch_vehicle vehicleId (put_available true now)).

(** ** locationService *)

Record UpdateOptions := {
  forceUpdate : option bool;
  previousLocation : option Coord
}.

(** [options?.forceUpdate || true]. *)
Definition shouldUpdate (options : option UpdateOptions) : bool :=
  match options with
  | Some o => default false (forceUpdate o)
  | None => false
  end || true.

Record UpdateResult := { updated : bool; trackingId : string }.

(** [locationService.updateLocation(vehicleId, lat, lng, options)]. *)
Definition updateLocation (vehicleId : string) (lat lng : float)
    (options : option UpdateOptions) : M World UpdateResult :=
  let* uid := requireAuth in
  let* trackingId := getOrCreateTrackingId vehicleId in
  let persist : M World UpdateResult :=
    let* timestamp := Date_now in
    let locationData :=
      {| l_vehicleId := vehicleId; l_trackingId := trackingId;
         l_lat := lat; l_lng := lng;
         l_timestamp := timestamp; l_updatedBy := uid |} in
    let* _ := write (fun d =>
      set_vehicleLocations (<[vehicleId := locationData]> (vehicleLocations d)) d) in
    ret {| updated := true; trackingId := trackingId |} in
  match negb (shouldUpdate options),
        match options with Some o => previousLocation o | None => None end with
  | true, Some previous =>
      let distanceMoved :=
        calculateDistance (Geo.lat previous) (Geo.lng previous) lat lng in
      if (distanceMoved <? 10)%float
      then ret {| updated := false; trackingId := trackingId |}
      else persist
  | _, _ => persist
  end.

(** [locationService.getTrackingId]. *)
Definition getTrackingId (vehicleId : string) : M World (option string) :=
  let* snapshot := get vehicleTrackingIds vehicleId in
  ret (option_map t_trackingId snapshot).

(** ** bookingService *)

Record BookingData := {
  d_userId : string;
  d_vehicleId : string;
  d_driverId : string;
  d_route : Route;
  d_amount : float
}.

Definition createBooking (bookingData : BookingData) : M World string :=
  let* key := push in
  let* now := Date_now in
  let bookingId := key in
  let shortBookingId := generateShortId bookingId in
  let booking :=
    {| b_id := bookingId; b_shortId := shortBookingId;
       b_userId := d_userId bookingData;
       b_vehicleId := d_vehicleId bookingData;
       b_driverId := d_driverId bookingData;
       b_route := d_route bookingData;
       b_amount := d_amount bookingData;
       b_status := pending_payment;
       b_paymentStatus := payment_pending;
       b_createdAt := now; b_updatedAt := now;
       b_paymentId := None; b_shipmentId := None |} in
  let* _ := write (fun d => set_bookings (<[key := booking]> (bookings d)) d) in
  let* _ := markVehicleAsInUse (d_vehicleId bookingData) in
  ret bookingId.

Definition is_terminal (s : option BookingStatus) : bool :=
  match s with
  | Some completed | Some cancelled => true
  | _ => false
  end.

Definition updateBooking (bookingId : string) (updates : BookingPatch)
  : M World unit :=
  let* now := Date_now in
  let* snapshot := get bookings bookingId in
  match snapshot with
  | None => throw "Booking not found"
  | Some current =>
      let* _ := write (fun d =>
        set_bookings (<[bookingId := apply_patch updates now current]> (bookings d)) d) in
      if is_terminal (p_status updates) && truthy (b_vehicleId current)
      then markVehicleAsAvailable (b_vehicleId current)
      else ret tt
  end.

End WithPlatform.
End FirebaseUtils.

(* ===================================================================== *)
(** * Driver-vehicle assignment: the invariant and the effect of a swap *)
(* ===================================================================== *)

Module Assignment.
Import JS Async Store.
Local Open Scope string_scope.

(** Firebase paths have no empty segment: no record sits under an empty key. *)
Definition wf_keys (d : Db) : Prop :=
  vehicles d !! "" = None /\ users d !! "" = None.

(** A vehicle's [driverId] names a user with role [driver] whose
    [assignedVehicleId] points back to the vehicle. *)
Definition vehicle_side (d : Db) : Prop :=
  forall (v : string) (rec : Vehicle) (driver : string),
    vehicles d !! v = Some rec -> v_driverId rec = Some driver ->
    exists u, users d !! driver = Some u
              /\ u_role u = Some "driver"
              /\ u_assignedVehicleId u = Some v.

(** A user's [assignedVehicleId] names a vehicle whose [driverId] points
    back to the user. *)
Definition driver_side (d : Db) : Prop :=
  forall (driver : string) (u : User) (v : string),
    users d !! driver = Some u -> u_assignedVehicleId u = Some v ->
    exists rec, vehicles d !! v = Some rec /\ v_driverId rec = Some driver.

(** The invariant of the data model: well-formed keys and the vehicle
    side, from which a driver is named by at most one vehicle. *)
Definition consistent (d : Db) : Prop := wf_keys d /\ vehicle_side d.

(** Both directions. *)
Definition bidirectional (d : Db) : Prop := consistent d /\ driver_side d.

(** The invariant as a test on a given database. *)
Definition vehicle_okb (d : Db) (v : string) (rec : Vehicle) : bool :=
  match v_driverId rec with
  | Some driver =>
      match users d !! driver with
      | Some u => bool_decide (u_role u = Some "driver")
                  && bool_decide (u_assignedVehicleId u = Some v)
      | None => false
      end
  | None => true
  end.

Definition driver_okb (d : Db) (driver : string) (u : User) : bool :=
  match u_assignedVehicleId u with
  | Some v =>
      match vehicles d !! v with
      | Some rec => bool_decide (v_driverId rec = Some driver)
      | None => false
      end
  | None => true
  end.

Definition bidirectionalb (d : Db) : bool :=
  match vehicles d !! "", users d !! "" with
  | None, None =>
      forallb (fun p => vehicle_okb d (fst p) (snd p)) (map_to_list (vehicles d))
      && forallb (fun p => driver_okb d (fst p) (snd p)) (map_to_list (users d))
  | _, _ => false
  end.

(** The vehicle that loses the driver: the one the driver was assigned to,
    when it is another one. *)
Definition released (vehicleId : string) (assigned : option string) (k : string) : Prop :=
  assigned = Some k /\ k <> "" /\ k <> vehicleId.

(** The user who loses the vehicle: its previous driver, when it is
    another one. *)
Definition dismissed (driverId : string) (current : option string) (k : string) : Prop :=
  current = Some k /\ k <> driverId.

(** The writes of a successful [assignDriver(vehicleId, driverId)], in the
    order the function makes them: [assigned] is the driver's
    [assignedVehicleId] and [current] the vehicle's [driverId || null], both
    as read before the first write; [t1] .. [t4] are the time stamps. *)
Definition assign_writes (vehicleId driverId : string)
    (assigned current : option string) (t1 t2 t3 t4 : Z) (d : Db) : Db :=
  let d1 :=
    match assigned with
    | Some other =>
        if truthy other && negb (String.eqb other vehicleId)
        then patch_vehicle other (put_driverId None t1) d
        else d
    | None => d
    end in
  let d2 := patch_user driverId (put_assignedVehicleId (Some vehicleId) t2) d1 in
  let d3 :=
    match current with
    | Some previous =>
        if negb (String.eqb previous driverId)
        then patch_user previous (put_assignedVehicleId None t3) d2
        else d2
    | None => d2
    end in
  patch_vehicle vehicleId (put_driverId (Some driverId) t4) d3.

End Assignment.

(* ===================================================================== *)
(** * components/DriverLocationUpdater.tsx *)
(* ===================================================================== *)

Module DriverLocationUpdater.
Import JS Geo Async Store.
Local Open Scope string_scope.

Inductive GpsStatus := searching | acquired | timeout | denied | unavailable.

(** The [source] argument of [updateLocation]. *)
Inductive Source := gps | ip.

(** The [source] argument of [handleGeolocationSuccess]. *)
Inductive Origin := one_shot | watch.

(** The refs and the state of the component. A [setState] is modelled as
    an assignment. *)
Record Refs := {
  lastUpdateRef : Z;
  lastLocationRef : option Coord;
  gpsStatus : GpsStatus;
  useFallbackLocation : bool;
  gpsAttemptsRef : Z;
  vehicleIdRef : string;
  trackingIdRef : string
}.

(** What [useAuth()] gives the component. *)
Record SessionUser := {
  su_id : string;
  su_role : string;
  su_assignedVehicleId : option string
}.

Record PositionOptions := {
  enableHighAccuracy : bool;
  timeout_ms : Z;
  maximumAge : Z
}.

(** The calls the component makes to the browser, in the order it makes
    them. *)
Inductive Effect :=
| GetCurrentPosition (retryCount : nat) (options : PositionOptions)
| SetTimeout (delay : Z) (retryCount : nat)
| Fetch (service : string) (abortAfter : Z).

Record Session := {
  refs : Refs;
  world : World;
  user : option SessionUser;
  effects : list Effect
}.

Definition set_refs (r : Refs) (s : Session) : Session :=
  {| refs := r; world := world s; user := user s; effects := effects s |}.

Definition set_world (w : World) (s : Session) : Session :=
  {| refs := refs s; world := w; user := user s; effects := effects s |}.

Definition emit (e : Effect) : M Session unit :=
  modify (fun s => {| refs := refs s; world := world s; user := user s;
                      effects := effects s ++ [e] |}).

(** A computation of [firebase-utils] run from the component. *)
Definition store {A} (m : M World A) : M Session A := zoom world set_world m.

Definition update_refs (f : Refs -> Refs) : M Session unit :=
  modify (fun s => set_refs (f (refs s)) s).

Definition admit_reading (now : Z) (latitude longitude : float) (r : Refs) : Refs :=
  {| lastUpdateRef := now;
     lastLocationRef := Some {| lat := latitude; lng := longitude |};
     gpsStatus := gpsStatus r; useFallbackLocation := useFallbackLocation r;
     gpsAttemptsRef := gpsAttemptsRef r; vehicleIdRef := vehicleIdRef r;
     trackingIdRef := trackingIdRef r |}.

Definition set_trackingIdRef (trackingId : string) (r : Refs) : Refs :=
  {| lastUpdateRef := lastUpdateRef r; lastLocationRef := lastLocationRef r;
     gpsStatus := gpsStatus r; useFallbackLocation := useFallbackLocation r;
     gpsAttemptsRef := gpsAttemptsRef r; vehicleIdRef := vehicleIdRef r;
     trackingIdRef := trackingId |}.

Definition set_vehicleIdRef (vehicleId : string) (r : Refs) : Refs :=
  {| lastUpdateRef := lastUpdateRef r; lastLocationRef := lastLocationRef r;
     gpsStatus := gpsStatus r; useFallbackLocation := useFallbackLocation r;
     gpsAttemptsRef := gpsAttemptsRef r; vehicleIdRef := vehicleId;
     trackingIdRef := trackingIdRef r |}.

Definition setGpsStatus (status : GpsStatus) (r : Refs) : Refs :=
  {| lastUpdateRef := lastUpdateRef r; lastLocationRef := lastLocationRef r;
     gpsStatus := status; useFallbackLocation := useFallbackLocation r;
     gpsAttemptsRef := gpsAttemptsRef r; vehicleIdRef := vehicleIdRef r;
     trackingIdRef := trackingIdRef r |}.

Definition setUseFallbackLocation (b : bool) (r : Refs) : Refs :=
  {| lastUpdateRef := lastUpdateRef r; lastLocationRef := lastLocationRef r;
     gpsStatus := gpsStatus r; useFallbackLocation := b;
     gpsAttemptsRef := gpsAttemptsRef r; vehicleIdRef := vehicleIdRef r;
     trackingIdRef := trackingIdRef r |}.

Definition set_gpsAttemptsRef (n : Z) (r : Refs) : Refs :=
  {| lastUpdateRef := lastUpdateRef r; lastLocationRef := lastLocationRef r;
     gpsStatus := gpsStatus r; useFallbackLocation := useFallbackLocation r;
     gpsAttemptsRef := n; vehicleIdRef := vehicleIdRef r;
     trackingIdRef := trackingIdRef r |}.

(** [source === 'gps' ? 10 : 100]. *)
Definition minDistance (source : Source) : float :=
  match source with gps => 10%float | ip => 100%float end.

Definition is_ip (source : Source) : bool :=
  match source with ip => true | gps => false end.

(** ** The answers of the IP-geolocation services *)

(** A field of the JSON body. *)
Inductive JsonField :=
| JMissing
| JNumber (x : float)
| JString (text : string).

Definition truthy_field (f : JsonField) : bool :=
  match f with
  | JMissing => false
  | JNumber x => truthy_num x
  | JString text => truthy text
  end.

Inductive Answer :=
| NetworkError
| Response (ok : bool) (body : option (JsonField * JsonField)).

(** What a service does with a request: [latency] is the time in ms until
    [fetch] settles, [body] is [None] when [response.json()] rejects, else
    the fields [latitude] and [longitude]. The abort timer is cleared once
    [fetch] has settled; [response.json()] is taken to settle. *)
Record Reply := {
  latency : Z;
  answer : Answer
}.

(** What the outside world does during one call of [getIPLocation]:
    [draw] is the 53-bit integer behind [Math.random()], which returns
    [draw / 2^53]; [console_fails] says that [console.log] throws. *)
Record IPEnv := {
  replies : string -> Reply;
  draw : Z;
  console_fails : bool
}.

Definition services : list string :=
  [ "https://ipapi.co/json/"; "https://ipinfo.io/json/";
    "https://geolocation-db.com/json/" ].

Definition indianCities : list Coord :=
  [ {| lat := 28.6139; lng := 77.2090 |};
    {| lat := 19.0760; lng := 72.8777 |};
    {| lat := 12.9716; lng := 77.5946 |};
    {| lat := 13.0827; lng := 80.2707 |};
    {| lat := 11.9327; lng := 79.8339 |} ].

Definition centre_of_India : Coord := {| lat := 20.5937; lng := 78.9629 |}.

(** [Math.floor(Math.random() * n)], computed on the integer behind the
    draw (the rounding of the product in binary64 is not modelled). *)
Definition random_index (draw : Z) (n : nat) : nat :=
  Z.to_nat ((draw mod 2 ^ 53) * Z.of_nat n / 2 ^ 53).

(** [fetch(service, { signal })] with [controller.abort()] due after 5000 ms:
    the request is aborted when the service has not answered by then. *)
Definition fetch_with_abort (env : IPEnv) (service : string) (abortAfter : Z) : Answer :=
  if (abortAfter <=? latency (replies env service))%Z then NetworkError
  else answer (replies env service).

Section WithPlatform.
Context `{Platform}.

(** [parseFloat(value)]: a number is printed and read back. *)
Definition parseFloat (f : JsonField) : float :=
  match f with
  | JMissing => nan
  | JNumber x => x
  | JString text => parseFloat_string text
  end.

(** The body of the [for] loop of [getIPLocation], from the service at hand
    on: [Some] is the [return] inside the loop. *)
Fixpoint try_services (env : IPEnv) (pending : list string) : M Session (option Coord) :=
  match pending with
  | [] => ret None
  | service :: rest =>
      let* _ := emit (Fetch service 5000) in
      match fetch_with_abort env service 5000 with
      | NetworkError => try_services env rest
      | Response ok body =>
          if ok then
            match body with
            | None => try_services env rest
            | Some (latitude, longitude) =>
                if truthy_field latitude && truthy_field longitude
                then ret (Some {| lat := parseFloat latitude; lng := parseFloat longitude |})
                else try_services env rest
            end
          else try_services env rest
      end
  end.

(** The location the loop returns for a service, when it returns one:
    the request is answered in time with [ok], the body parses and both
    fields are truthy. *)
Definition usable (env : IPEnv) (service : string) : option Coord :=
  match fetch_with_abort env service 5000 with
  | Response true (Some (latitude, longitude)) =>
      if truthy_field latitude && truthy_field longitude
      then Some {| lat := parseFloat latitude; lng := parseFloat longitude |}
      else None
  | _ => None
  end.

(** The first usable answer among [pending], and the services queried
    until it came. *)
Fixpoint first_usable (env : IPEnv) (pending : list string)
  : option Coord * list string :=
  match pending with
  | [] => (None, [])
  | service :: rest =>
      match usable env service with
      | Some location => (Some location, [service])
      | None => let (found, queried) := first_usable env rest in
                (found, service :: queried)
      end
  end.

Definition add_effects (log : list Effect) (s : Session) : Session :=
  {| refs := refs s; world := world s; user := user s;
     effects := effects s ++ log |}.

Definition console_log (env : IPEnv) : M Session unit :=
  if console_fails env then throw "console.log" else ret tt.

(** [getIPLocation]: [None] stands for [null] and [undefined]. *)
Definition getIPLocation (env : IPEnv) : M Session (option Coord) :=
  try_catch
    (let* found := try_services env services in
     match found with
     | Some location => ret (Some location)
     | None =>
         let randomCity :=
           nth_error indianCities (random_index (draw env) (List.length indianCities)) in
         let* _ := console_log env in
         ret randomCity
     end)
    (fun _ => ret (Some centre_of_India)).

(** [vehicleService.getVehiclesByDriver(driverId)], as the list of the
    identifiers, in the order the database lists the vehicles. *)
Definition getVehiclesByDriver (driverId : string) : M World (list string) :=
  gets (fun w =>
    List.map fst
      (List.filter (fun p => bool_decide (v_driverId (snd p) = Some driverId))
                   (map_to_list (vehicles (db w))))).

Definition getAssignedVehicle : M Session (option string) :=
  try_catch
    (let* cached := gets (fun s => vehicleIdRef (refs s)) in
     if truthy cached then ret (Some cached)
     else
       let* u := gets user in
       let vehicleId :=
         match u with
         | Some u => match or_null (su_assignedVehicleId u) with
                     | Some v => v
                     | None => ""
                     end
         | None => ""
         end in
       let* resolved :=
         if negb (truthy vehicleId) then
           let* found := store (getVehiclesByDriver
                                  (match u with Some u => su_id u | None => "" end)) in
           match found with
           | [] => ret None
           | first :: _ => ret (Some first)
           end
         else ret (Some vehicleId) in
       match resolved with
       | None => ret None
       | Some vehicleId =>
           let* _ := update_refs (set_vehicleIdRef vehicleId) in
           ret (Some vehicleId)
       end)
    (fun _ => ret None).

(** The component's [updateLocation(vehicleId, latitude, longitude, source,
    forceUpdate)]. *)
Definition updateLocation (vehicleId : string) (latitude longitude : float)
    (source : Source) (forceUpdate : bool) : M Session unit :=
  try_catch
    (let* now := store Date_now in
     let* r := gets refs in
     if negb forceUpdate && (now - lastUpdateRef r <? 5000)%Z then ret tt
     else
       let too_close :=
         match lastLocationRef r with
         | Some last =>
             if negb forceUpdate then
               let distanceMoved :=
                 calculateDistance (lat last) (lng last) latitude longitude in
               (distanceMoved <? minDistance source)%float
             else false
         | None => false
         end in
       if too_close then ret tt
       else
         let* _ := update_refs (admit_reading now latitude longitude) in
         let* snapshot := store (get vehicleLocations vehicleId) in
         let previousLocation :=
           option_map (fun data => {| lat := l_lat data; lng := l_lng data |}) snapshot in
         let* result := store (FirebaseUtils.updateLocation vehicleId latitude longitude
           (Some {| FirebaseUtils.forceUpdate := Some (forceUpdate || is_ip source);
                    FirebaseUtils.previousLocation := previousLocation |})) in
         if FirebaseUtils.updated result then
           let* _ := update_refs (set_trackingIdRef (FirebaseUtils.trackingId result)) in
           match source with
           | gps =>
               let* _ := update_refs (setGpsStatus acquired) in
               let* _ := update_refs (setUseFallbackLocation false) in
               update_refs (set_gpsAttemptsRef 0)
           | ip => ret tt
           end
         else ret tt)
    (fun _ => ret tt).

Record Position := {
  latitude : float;
  longitude : float;
  accuracy : float
}.

Definition handleGeolocationSuccess (position : Position) (source : Origin)
  : M Session unit :=
  let* vehicleId := getAssignedVehicle in
  match vehicleId with
  | None => ret tt
  | Some vehicleId =>
      if (100 <? accuracy position)%float
         && match source with one_shot => true | watch => false end
      then ret tt
      else updateLocation vehicleId (latitude position) (longitude position) gps false
  end.

Inductive GeolocationPositionError := PERMISSION_DENIED | POSITION_UNAVAILABLE | TIMEOUT.

(** The IP fallback shared by the three cases of [handleGeolocationError]. *)
Definition ip_fallback (env : IPEnv) (vehicleId : option string) : M Session unit :=
  match vehicleId with
  | Some vehicleId =>
      let* ipLocation := getIPLocation env in
      match ipLocation with
      | Some location => updateLocation vehicleId (lat location) (lng location) ip true
      | None => ret tt
      end
  | None => ret tt
  end.

(** [handleGeolocationError(error, retryCount)]; [retry delay n] is
    [setTimeout(() => tryGPSLocation(n), delay)]. *)
Definition handleGeolocationError (retry : Z -> nat -> M Session unit) (env : IPEnv)
    (error : GeolocationPositionError) (retryCount : nat) : M Session unit :=
  let* vehicleId := getAssignedVehicle in
  match error with
  | PERMISSION_DENIED =>
      let* _ := update_refs (setGpsStatus denied) in
      let* _ := update_refs (setUseFallbackLocation true) in
      ip_fallback env vehicleId
  | POSITION_UNAVAILABLE =>
      let* _ := update_refs (setGpsStatus unavailable) in
      let* _ := update_refs (setUseFallbackLocation true) in
      ip_fallback env vehicleId
  | TIMEOUT =>
      let* _ := update_refs (setGpsStatus timeout) in
      if (retryCount <? 2)%nat
      then retry (2000 * (Z.of_nat retryCount + 1))%Z (retryCount + 1)%nat
      else
        let* _ := update_refs (setUseFallbackLocation true) in
        ip_fallback env vehicleId
  end.

(** What the device does with one [getCurrentPosition] request; [Silent]:
    no callback before the 10 s timer of the attempt resolves it. *)
Inductive Outcome :=
| Found (position : Position)
| Failed (error : GeolocationPositionError)
| Silent.

Definition attempt_options (retryCount : nat) : PositionOptions :=
  {| enableHighAccuracy := (retryCount =? 0)%nat;
     timeout_ms := 15000;
     maximumAge := if (0 <? retryCount)%nat then 30000 else 0 |}.

(** [tryGPSLocation(retryCount)] and the retries its timers start, run to
    the end: [outcomes] lists what the device does with the successive
    requests. The value is the one the promise of this call resolves to. *)
Fixpoint tryGPSLocation (env : IPEnv) (outcomes : list Outcome) (retryCount : nat)
  : M Session bool :=
  if (3 <=? retryCount)%nat then
    let* _ := update_refs (setGpsStatus timeout) in
    let* _ := update_refs (setUseFallbackLocation true) in
    ret false
  else
    let* _ := emit (GetCurrentPosition retryCount (attempt_options retryCount)) in
    match outcomes with
    | [] => ret false
    | Found position :: _ =>
        let* _ := handleGeolocationSuccess position one_shot in
        let* _ := update_refs (setGpsStatus acquired) in
        ret true
    | Failed error :: rest =>
        let* _ := handleGeolocationError
          (fun delay next =>
             let* _ := emit (SetTimeout delay next) in
             let* _ := tryGPSLocation env rest next in
             ret tt)
          env error retryCount in
        ret false
    | Silent :: _ => ret false
    end.

(** ** Words for the properties of the throttle *)

(** The session after the clock has been read and nothing else done. *)
Definition clock_read (s : Session) : Session := set_world (tick_once (world s)) s.

(** The reading is let through by the two gates. *)
Definition passes (s : Session) (latitude longitude : float) (source : Source)
    (forceUpdate : bool) : bool :=
  let now := Date_clock (tick (world s)) in
  if negb forceUpdate && (now - lastUpdateRef (refs s) <? 5000)%Z then false
  else match lastLocationRef (refs s) with
       | Some last =>
           if negb forceUpdate
           then negb (calculateDistance (lat last) (lng last) latitude longitude
                        <? minDistance source)%float
           else true
       | None => true
       end.

(** The refs after a reading has been let through and, signed in, written. *)
Definition refs_after (source : Source) (trackingId : option string) (r : Refs) : Refs :=
  match trackingId with
  | None => r
  | Some trackingId =>
      match source with
      | gps => set_gpsAttemptsRef 0 (setUseFallbackLocation false
                 (setGpsStatus acquired (set_trackingIdRef trackingId r)))
      | ip => set_trackingIdRef trackingId r
      end
  end.

(** The call dropped the reading: it read the clock and did nothing else. *)
Definition dropped (s : Session) (run : Res unit * Session) : Prop :=
  run = (Ok tt, clock_read s).

(** The call let the reading through: it is the last admitted one. *)
Definition admitted (now : Z) (latitude longitude : float)
    (run : Res unit * Session) : Prop :=
  fst run = Ok tt
  /\ lastUpdateRef (refs (snd run)) = now
  /\ lastLocationRef (refs (snd run)) = Some {| lat := latitude; lng := longitude |}.

(** The reading is the record stored for the vehicle. *)
Definition persisted (vehicleId uid : string) (latitude longitude : float)
    (run : Res unit * Session) : Prop :=
  exists rec,
    vehicleLocations (db (world (snd run))) !! vehicleId = Some rec
    /\ l_vehicleId rec = vehicleId /\ l_lat rec = latitude /\ l_lng rec = longitude
    /\ l_updatedBy rec = uid.

End WithPlatform.

(** The number of one-shot requests among the effects. *)
Definition is_attempt (e : Effect) : bool :=
  match e with GetCurrentPosition _ _ => true | _ => false end.

Definition attempts (log : list Effect) : nat :=
  List.length (List.filter is_attempt log).

(** [m] returns, and makes at most [n] one-shot requests. *)
Definition within {A} (n : nat) (m : M Session A) : Prop :=
  forall s, exists a s',
    m s = (Ok a, s') /\ (attempts (effects s') <= attempts (effects s) + n)%nat.

(** The session in which a timed-out attempt leaves the retry to run: the
    request and the timer are in the log, the status is [timeout]. *)
Definition after_timeout (retryCount : nat) (s : Session) : Session :=
  add_effects
    [ GetCurrentPosition retryCount (attempt_options retryCount);
      SetTimeout (2000 * (Z.of_nat retryCount + 1)) (retryCount + 1) ]
    (set_refs (setGpsStatus timeout (refs s)) s).

(** The session in which the third timed-out attempt leaves the fallback
    to run. *)
Definition after_last_timeout (s : Session) : Session :=
  add_effects [ GetCurrentPosition 2 (attempt_options 2) ]
    (set_refs (setUseFallbackLocation true (setGpsStatus timeout (refs s))) s).

End DriverLocationUpdater.

(* ===================================================================== *)
(** * A reference platform, to run the code on examples *)
(* ===================================================================== *)

Module Reference.
Import JS Geo.
Local Open Scope float_scope.

(** Sine and cosine by their Taylor polynomials (degree 25 and 24), good to
    about 1e-14 on [-pi, pi], where the distance formula evaluates them for
    coordinates in degrees. *)
Definition sin (x : float) : float :=
  let x2 := x * x in
  x * (1 - x2 / 6 * (1 - x2 / 20 * (1 - x2 / 42 * (1 - x2 / 72 *
      (1 - x2 / 110 * (1 - x2 / 156 * (1 - x2 / 210 * (1 - x2 / 272 *
      (1 - x2 / 342 * (1 - x2 / 420 * (1 - x2 / 506 * (1 - x2 / 600)))))))))))).

Definition cos (x : float) : float :=
  let x2 := x * x in
  1 - x2 / 2 * (1 - x2 / 12 * (1 - x2 / 30 * (1 - x2 / 56 * (1 - x2 / 90 *
      (1 - x2 / 132 * (1 - x2 / 182 * (1 - x2 / 240 * (1 - x2 / 306 *
      (1 - x2 / 380 * (1 - x2 / 462 * (1 - x2 / 552))))))))))).

(** Arc tangent on [0, 1]: three halvings of the angle, then the series. *)
Definition halve (t : float) : float := t / (1 + PrimFloat.sqrt (1 + t * t)).

Definition atan_unit (t : float) : float :=
  let u := halve (halve (halve t)) in
  let u2 := u * u in
  8 * (u * (1 - u2 * (1 / 3 - u2 * (1 / 5 - u2 * (1 / 7 - u2 * (1 / 9 -
       u2 * (1 / 11 - u2 * (1 / 13 - u2 * (1 / 15 - u2 / 17))))))))).

Definition atan_pos (t : float) : float :=
  if t <=? 1 then atan_unit t else Math_PI / 2 - atan_unit (1 / t).

Definition atan (t : float) : float :=
  if t <? 0 then - atan_pos (- t) else atan_pos t.

Definition atan2 (y x : float) : float :=
  if 0 <? x then atan (y / x)
  else if x <? 0 then (if y <? 0 then atan (y / x) - Math_PI else atan (y / x) + Math_PI)
  else if 0 <? y then Math_PI / 2
  else if y <? 0 then - (Math_PI / 2)
  else 0.

(** The clock starts on 2023-11-14 and moves by one second per reading;
    [push] makes the keys [-K0], [-K1], ... *)
Definition clock (n : nat) : Z := (1700000000000 + 1000 * Z.of_nat n)%Z.
Definition key (n : nat) : string := ("-K" ++ toString (Z.of_nat n))%string.

(** [parseFloat] on an optional sign, digits and an optional fraction: the
    digits are read as one integer, divided at the end by the power of ten
    of the fraction (exact up to 15 digits). *)
Fixpoint float_of_nat (n : nat) : float :=
  match n with O => 0 | S k => float_of_nat k + 1 end.

Definition digit_value (c : ascii) : option float :=
  let n := nat_of_ascii c in
  if ((48 <=? n) && (n <=? 57))%nat then Some (float_of_nat (n - 48)) else None.

Fixpoint parse_fraction (cs : list ascii) (acc scale : float) : float :=
  match cs with
  | c :: cs' =>
      match digit_value c with
      | Some v => parse_fraction cs' (acc * 10 + v) (scale * 10)
      | None => acc / scale
      end
  | [] => acc / scale
  end.

Fixpoint parse_integer (cs : list ascii) (acc : float) : float :=
  match cs with
  | c :: cs' =>
      match digit_value c with
      | Some v => parse_integer cs' (acc * 10 + v)
      | None => if Ascii.eqb c "."%char then parse_fraction cs' acc 1 else acc
      end
  | [] => acc
  end.

Definition parse_unsigned (cs : list ascii) : float :=
  match cs with
  | c :: _ => match digit_value c with
              | Some _ => parse_integer cs 0
              | None => nan
              end
  | [] => nan
  end.

Definition parseFloat (s : string) : float :=
  match chars s with
  | c :: cs' =>
      if Ascii.eqb c "-"%char then - parse_unsigned cs' else parse_unsigned (c :: cs')
  | [] => nan
  end.

#[export] Instance platform : Platform :=
  {| Math_sin := sin; Math_cos := cos; Math_atan2 := atan2;
     parseFloat_string := parseFloat;
     Date_clock := clock; push_key := key |}.

End Reference.

(* ===================================================================== *)
(** * Scenarios: concrete sessions the properties are run on *)
(* ===================================================================== *)

Module Scenario.
Import JS Geo Async Store FirebaseUtils DriverLocationUpdater.

Definition empty_db : Db :=
  {| vehicles := ∅; users := ∅; bookings := ∅;
     vehicleLocations := ∅; vehicleTrackingIds := ∅ |}.

(** A driver signed in as [u7], nothing stored yet. *)
Definition signed_in : World :=
  {| db := empty_db; currentUser := Some "u7"; tick := 0 |}.

(** Nobody signed in. *)
Definition signed_out : World :=
  {| db := empty_db; currentUser := None; tick := 0 |}.

Definition car (driver : option string) : Vehicle :=
  {| v_name := Some "Express Truck"; v_available := Some true;
     v_driverId := driver; v_updatedAt := None |}.

Definition person (role : string) (assigned : option string) : User :=
  {| u_name := Some "Asha"; u_role := Some role;
     u_assignedVehicleId := assigned; u_updatedAt := None |}.

(** Three vehicles and two drivers: [d1] drives [v3], [d2] drives [v1],
    [v2] has no driver; [c1] is a customer, [a1] the administrator. *)
Definition fleet_db : Db :=
  {| vehicles := <["v1" := car (Some "d2")]> (<["v2" := car None]>
                   (<["v3" := car (Some "d1")]> ∅));
     users := <["d1" := person "driver" (Some "v3")]>
                (<["d2" := person "driver" (Some "v1")]>
                   (<["c1" := person "customer" None]>
                      (<["a1" := person "admin" None]> ∅)));
     bookings := ∅; vehicleLocations := ∅; vehicleTrackingIds := ∅ |}.

Definition fleet : World :=
  {| db := fleet_db; currentUser := Some "a1"; tick := 0 |}.

Definition fleet_signed_out : World :=
  {| db := fleet_db; currentUser := None; tick := 0 |}.

(** A customer books [v2], to be driven by [d1]. *)
Definition trip : BookingData :=
  {| d_userId := "c1"; d_vehicleId := "v2"; d_driverId := "d1";
     d_route := {| pickupAddress := "MG Road"; destinationAddress := "Airport";
                   pickupLat := 12.9716; pickupLng := 77.5946;
                   destinationLat := 13.1986; destinationLng := 77.7066;
                   distance := 35.2; estimatedTime := "55 min" |};
     d_amount := 633.6 |}.

Definition set_status (status : BookingStatus) : BookingPatch :=
  {| p_status := Some status; p_paymentStatus := None; p_vehicleId := None;
     p_driverId := None; p_paymentId := None; p_shipmentId := None |}.

(** The driver [d2] at the wheel of [v1]. *)
Definition driver_d2 : SessionUser :=
  {| su_id := "d2"; su_role := "driver"; su_assignedVehicleId := Some "v1" |}.

Definition first_reading : Refs :=
  {| lastUpdateRef := 0; lastLocationRef := None; gpsStatus := searching;
     useFallbackLocation := false; gpsAttemptsRef := 0;
     vehicleIdRef := "v1"; trackingIdRef := "" |}.

(** The last admitted reading was at [(latitude, longitude)], [ago] ms
    before the next reading of the reference clock. *)
Definition last_seen (ago : Z) (latitude longitude : float) : Refs :=
  {| lastUpdateRef := 1700000000000 - ago;
     lastLocationRef := Some {| lat := latitude; lng := longitude |};
     gpsStatus := acquired; useFallbackLocation := false; gpsAttemptsRef := 0;
     vehicleIdRef := "v1"; trackingIdRef := "" |}.

Definition driving (r : Refs) : Session :=
  {| refs := r;
     world := {| db := fleet_db; currentUser := Some "d2"; tick := 0 |};
     user := Some driver_d2; effects := [] |}.

(** The same session once the identity provider has signed the driver out. *)
Definition driving_signed_out (r : Refs) : Session :=
  {| refs := r;
     world := {| db := fleet_db; currentUser := None; tick := 0 |};
     user := Some driver_d2; effects := [] |}.

(** No service answers: the first takes 9 s, the second fails, the third
    answers [503]. *)
Definition offline : IPEnv :=
  {| replies := fun service =>
       if String.eqb service "https://ipapi.co/json/"
       then {| latency := 9000;
               answer := Response true (Some (JNumber 12.9716, JNumber 77.5946)) |}
       else if String.eqb service "https://ipinfo.io/json/"
       then {| latency := 120; answer := NetworkError |}
       else {| latency := 80; answer := Response false None |};
     draw := 5000000000000000;
     console_fails := false |}.

(** The second service answers with coordinates as strings. *)
Definition second_answers : IPEnv :=
  {| replies := fun service =>
       if String.eqb service "https://ipinfo.io/json/"
       then {| latency := 250;
               answer := Response true (Some (JString "19.076", JString "72.8777")) |}
       else {| latency := 100; answer := Response true (Some (JMissing, JMissing)) |};
     draw := 0;
     console_fails := false |}.

(** A call that asks not to force and names a previous location 0 m away. *)
Definition same_place : option UpdateOptions :=
  Some {| forceUpdate := Some false;
          previousLocation := Some {| lat := 12.9716; lng := 77.5946 |} |}.

End Scenario.

(* ===================================================================== *)
(** * Words for further properties of the tracking code *)
(* ===================================================================== *)

Module TrackingAlphabet.
Import JS.

(** An uppercase letter or a digit. *)
Definition is_code_char (c : ascii) : bool :=
  let n := nat_of_ascii c in
  ((48 <=? n) && (n <=? 57) || (65 <=? n) && (n <=? 90))%nat.

End TrackingAlphabet.

(* ===================================================================== *)
(** * lib/firebase-utils: the queries and the removal of a vehicle *)
(* ===================================================================== *)

Module StoreQueries.
Import JS Geo Async Store FirebaseUtils.
Local Open Scope string_scope.

Section WithPlatform.
Context `{Platform}.

(** [locationService.getLocation]. *)
Definition getLocation (vehicleId : string) : M World (option VehicleLocation) :=
  get vehicleLocations vehicleId.

(** [locationService.getLocationByTrackingId]: the first entry of
    [vehicleTrackingIds] whose [trackingId] is the one asked for, in the
    order the database lists them, then the location of its vehicle. *)
Definition getLocationByTrackingId (trackingId : string)
  : M World (option VehicleLocation) :=
  try_catch
    (let* data := gets (fun w => vehicleTrackingIds (db w)) in
     match List.find (fun entry => String.eqb (t_trackingId (snd entry)) trackingId)
                     (map_to_list data) with
     | Some (vehicleId, _) => getLocation vehicleId
     | None => ret None
     end)
    (fun _ => ret None).

(** [vehicleService.getVehicleById]; the identifier is the key. *)
Definition getVehicleById (vehicleId : string) : M World (option Vehicle) :=
  get vehicles vehicleId.

(** [remove(ref(database, `collection/${id}`))]: with an empty [id] the
    path is the one of the collection, which is removed as a whole. *)
Definition remove_at {V} (id : string) (m : gmap string V) : gmap string V :=
  if truthy id then delete id m else ∅.

(** [vehicleService.deleteVehicle]: the three [remove]s of [Promise.all]. *)
Definition deleteVehicle (vehicleId : string) : M World unit :=
  let* currentUser := requireAuth in
  write (fun d =>
    set_vehicleTrackingIds (remove_at vehicleId (vehicleTrackingIds d))
      (set_vehicleLocations (remove_at vehicleId (vehicleLocations d))
         (set_vehicles (remove_at vehicleId (vehicles d)) d))).

(** [bookingService.getBookingById]. *)
Definition getBookingById (bookingId : string) : M World (option Booking) :=
  get bookings bookingId.

End WithPlatform.
End StoreQueries.

(* ===================================================================== *)
(** * The writes of an unassignment *)
(* ===================================================================== *)

Module Unassignment.
Import JS Async Store.
Local Open Scope string_scope.

(** The writes of a successful [assignDriver(vehicleId, null)]: [current]
    is the vehicle's [driverId || null] as read before the first write. *)
Definition unassign_writes (vehicleId : string) (current : option string)
    (t1 t2 : Z) (d : Db) : Db :=
  patch_vehicle vehicleId (put_driverId None t2)
    match current with
    | Some previous => patch_user previous (put_assignedVehicleId None t1) d
    | None => d
    end.

(** A node [update] has created on an empty path: only the fields of the
    patch, here a cleared [driverId] and the time stamp. *)
Definition is_stub (rec : Vehicle) : Prop :=
  v_name rec = None /\ v_available rec = None /\ v_driverId rec = None.


End Unassignment.

(* ===================================================================== *)
(** * lib/firebase-utils: the lists of bookings *)
(* ===================================================================== *)

Module BookingQueries.
Import JS Async Store FirebaseUtils.
Local Open Scope string_scope.

(** [Array.prototype.sort((a, b) => b.createdAt - a.createdAt)]: the sort
    is stable, so an element goes before the first one that is not newer
    than it. *)
Fixpoint insert_newest (x : Booking) (sorted : list Booking) : list Booking :=
  match sorted with
  | [] => [x]
  | y :: rest =>
      if (b_createdAt x <? b_createdAt y)%Z then y :: insert_newest x rest
      else x :: sorted
  end.

Fixpoint sort_newest_first (l : list Booking) : list Booking :=
  match l with
  | [] => []
  | x :: rest => insert_newest x (sort_newest_first rest)
  end.

(** [Object.entries(data).filter(...).map(([id, booking]) => ({ id, ...booking }))]:
    a stored booking has its own [id], which the spread keeps. *)
Definition select (keep : Booking -> bool) (data : gmap string Booking) : list Booking :=
  List.map snd (List.filter (fun entry => keep (snd entry)) (map_to_list data)).

(** [bookingService.getBookingsByUser]. *)
Definition getBookingsByUser (userId : string) : M World (list Booking) :=
  gets (fun w =>
    sort_newest_first
      (select (fun booking => String.eqb (b_userId booking) userId) (bookings (db w)))).

(** [bookingService.getBookingsByDriver]. *)
Definition getBookingsByDriver (driverId : string) : M World (list Booking) :=
  gets (fun w =>
    sort_newest_first
      (select (fun booking => String.eqb (b_driverId booking) driverId) (bookings (db w)))).

(** [bookingService.getAllBookings]. *)
Definition getAllBookings : M World (list Booking) :=
  let* currentUser := requireAuth in
  gets (fun w => sort_newest_first (select (fun _ => true) (bookings (db w)))).

(** Newest first. *)
Definition newest_first (l : list Booking) : Prop :=
  StronglySorted (fun a b => (b_createdAt b <= b_createdAt a)%Z) l.

End BookingQueries.

(* ===================================================================== *)
(** * lib/firebase-utils: payments and shipments *)
(* ===================================================================== *)

Module Ledger.
Import JS Async Store FirebaseUtils StoreQueries.
Local Open Scope string_scope.

(** The [status] of a payment: ['pending' | 'success' | 'failed']. *)
Inductive PaymentOutcome := pay_pending | pay_success | pay_failed.

(** The [payment] argument of [savePayment]. *)
Record PaymentInput := {
  i_orderId : string;
  i_paymentId : string;
  i_amount : float;
  i_status : PaymentOutcome;
  i_currency : option string;
  i_bookingId : option string
}.

(** A record under [payments/{userId}/]. *)
Record Payment := {
  y_id : string;
  y_orderId : string;
  y_paymentId : string;
  y_amount : float;
  y_currency : string;
  y_status : PaymentOutcome;
  y_timestamp : Z;
  y_userId : string;
  y_bookingId : string
}.

Record Place := {
  address : string;
  place_lat : float;
  place_lng : float
}.

(** An item as [createShipment] receives it. *)
Record ItemInput := {
  n_name : string;
  n_quantity : float;
  n_weight : option float;
  n_dimensions : option string;
  n_value : option float
}.

Record Item := {
  m_id : string;
  m_name : string;
  m_quantity : float;
  m_weight : float;
  m_dimensions : string;
  m_value : float
}.

(** The argument of [createShipment]. *)
Record ShipmentData := {
  sd_customerId : string;
  sd_vehicleId : string;
  sd_driverId : option string;
  sd_pickupLocation : Place;
  sd_destination : Place;
  sd_distance : float;
  sd_estimatedTime : string;
  sd_totalCost : float;
  sd_items : list ItemInput
}.

(** A record under [shipments/]. *)
Record Shipment := {
  s_id : string;
  s_customerId : string;
  s_vehicleId : string;
  s_driverId : string;
  s_pickupLocation : Place;
  s_destination : Place;
  s_distance : float;
  s_estimatedTime : string;
  s_totalCost : float;
  s_status : string;
  s_createdAt : string;
  s_updatedAt : string;
  s_trackingNumber : string;
  s_items : list Item
}.

(** The database with the two collections the assignment and the tracking
    of vehicles do not use. *)
Record Books := {
  world : World;
  payments : gmap string (gmap string Payment);
  shipments : gmap string Shipment
}.

Definition set_world (w : World) (s : Books) : Books :=
  {| world := w; payments := payments s; shipments := shipments s |}.

Definition set_payments (m : gmap string (gmap string Payment)) (s : Books) : Books :=
  {| world := world s; payments := m; shipments := shipments s |}.

Definition set_shipments (m : gmap string Shipment) (s : Books) : Books :=
  {| world := world s; payments := payments s; shipments := m |}.

(** A computation on the collections of [Store]. *)
Definition in_world {A} (m : M World A) : M Books A := zoom world set_world m.

(** [x || 0] on an optional number. *)
Definition or_zero (x : option float) : float :=
  match x with
  | Some x => if truthy_num x then x else 0%float
  | None => 0%float
  end.

(** [s.slice(-n)]. *)
Definition slice_last (n : nat) (s : string) : string :=
  of_chars (skipn (List.length (chars s) - n) (chars s)).

(** [paymentStatus] as [savePayment] sets it. *)
Definition paymentStatus_of (status : PaymentOutcome) : PaymentStatus :=
  match status with
  | pay_success => paid
  | pay_failed => failed
  | pay_pending => payment_pending
  end.

Definition is_success (status : PaymentOutcome) : bool :=
  match status with pay_success => true | _ => false end.

(** The [bookingUpdate] of [savePayment]. *)
Definition bookingUpdate (payment : PaymentInput) : BookingPatch :=
  {| p_status := if is_success (i_status payment) then Some pending else None;
     p_paymentStatus := Some (paymentStatus_of (i_status payment));
     p_vehicleId := None; p_driverId := None;
     p_paymentId := if is_success (i_status payment) && truthy (i_paymentId payment)
                    then Some (i_paymentId payment) else None;
     p_shipmentId := None |}.

(** The items of a shipment, numbered from [index + 1]. *)
Fixpoint number_items (shipmentId : string) (index : nat) (items : list ItemInput)
  : list Item :=
  match items with
  | [] => []
  | item :: rest =>
      {| m_id := shipmentId ++ "-item-" ++ toString (Z.of_nat (index + 1));
         m_name := n_name item;
         m_quantity := n_quantity item;
         m_weight := or_zero (n_weight item);
         m_dimensions := default "" (or_null (n_dimensions item));
         m_value := or_zero (n_value item) |}
      :: number_items shipmentId (S index) rest
  end.

Section WithPlatform.
Context `{Platform}.

(** [new Date(ms).toISOString()]. *)
Variable toISOString : Z -> string.

(** [paymentService.savePayment(userId, payment)]. *)
Definition savePayment (userId : string) (payment : PaymentInput) : M Books string :=
  let* key := in_world push in
  let paymentId := key in
  let* timestamp := in_world Date_now in
  let paymentData :=
    {| y_id := paymentId;
       y_orderId := i_orderId payment;
       y_paymentId := i_paymentId payment;
       y_amount := or_zero (Some (i_amount payment));
       y_currency := default "INR" (or_null (i_currency payment));
       y_status := i_status payment;
       y_timestamp := timestamp;
       y_userId := userId;
       y_bookingId := default "" (or_null (i_bookingId payment)) |} in
  let* _ := modify (fun s =>
    set_payments
      (<[userId := <[key := paymentData]> (default ∅ (payments s !! userId))]> (payments s))
      s) in
  let* _ :=
    match or_null (i_bookingId payment) with
    | Some bookingId =>
        let* bookingSnapshot := in_world (get bookings bookingId) in
        match bookingSnapshot with
        | Some bookingData =>
            let* now := in_world Date_now in
            in_world (write (fun d =>
              set_bookings
                (<[bookingId := apply_patch (bookingUpdate payment) now bookingData]>
                   (bookings d)) d))
        | None => ret tt
        end
    | None => ret tt
    end in
  ret (y_id paymentData).

(** [shipmentService.createShipment]. *)
Definition createShipment (shipmentData : ShipmentData) : M Books string :=
  let* key := in_world push in
  let* date := in_world Date_now in
  let now := toISOString date in
  let shipmentId := key in
  let* stamp := in_world Date_now in
  let shipment :=
    {| s_id := shipmentId;
       s_customerId := sd_customerId shipmentData;
       s_vehicleId := sd_vehicleId shipmentData;
       s_driverId := default "" (or_null (sd_driverId shipmentData));
       s_pickupLocation := sd_pickupLocation shipmentData;
       s_destination := sd_destination shipmentData;
       s_distance := sd_distance shipmentData;
       s_estimatedTime := sd_estimatedTime shipmentData;
       s_totalCost := sd_totalCost shipmentData;
       s_status := "pending";
       s_createdAt := now;
       s_updatedAt := now;
       s_trackingNumber := "TRK" ++ slice_last 8 (toString stamp);
       s_items := number_items shipmentId 0 (sd_items shipmentData) |} in
  let* _ := modify (fun s => set_shipments (<[key := shipment]> (shipments s)) s) in
  ret shipmentId.

(** The shipment [convertToShipment] asks for. *)
Definition shipment_of (booking : Booking) : ShipmentData :=
  {| sd_customerId := b_userId booking;
     sd_vehicleId := b_vehicleId booking;
     sd_driverId := Some (b_driverId booking);
     sd_pickupLocation :=
       {| address := pickupAddress (b_route booking);
          place_lat := pickupLat (b_route booking);
          place_lng := pickupLng (b_route booking) |};
     sd_destination :=
       {| address := destinationAddress (b_route booking);
          place_lat := destinationLat (b_route booking);
          place_lng := destinationLng (b_route booking) |};
     sd_distance := distance (b_route booking);
     sd_estimatedTime := estimatedTime (b_route booking);
     sd_totalCost := b_amount booking;
     sd_items := [] |}.

(** [bookingService.convertToShipment(bookingId)]. *)
Definition convertToShipment (bookingId : string) : M Books string :=
  let* booking := in_world (getBookingById bookingId) in
  match booking with
  | None => throw "Booking not found"
  | Some booking =>
      let* shipmentId := createShipment (shipment_of booking) in
      let* _ := in_world (updateBooking bookingId
        {| p_status := Some converted; p_paymentStatus := None; p_vehicleId := None;
           p_driverId := None; p_paymentId := None; p_shipmentId := Some shipmentId |}) in
      ret shipmentId
  end.

End WithPlatform.

(** A ledger with no payment and no shipment yet. *)
Definition opening (w : World) : Books :=
  {| world := w; payments := ∅; shipments := ∅ |}.

(** The stored booking a payment is linked to, if any. *)
Definition linked_booking (payment : PaymentInput) (d : Db) : option (string * Booking) :=
  match or_null (i_bookingId payment) with
  | Some bookingId =>
      match bookings d !! bookingId with
      | Some booking => Some (bookingId, booking)
      | None => None
      end
  | None => None
  end.

End Ledger.

(* ===================================================================== *)
(** * components/DriverLocationUpdater: the watch and the refused request *)
(* ===================================================================== *)

Module Watch.
Import JS Geo Async Store FirebaseUtils DriverLocationUpdater.
Local Open Scope string_scope.

Section WithPlatform.
Context `{Platform}.

(** The success callback [startGPSWatch] gives to [watchPosition]. *)
Definition watch_callback (position : Position) : M Session unit :=
  if (accuracy position <? 50)%float
  then handleGeolocationSuccess position watch
  else ret tt.

End WithPlatform.

(** The status [handleGeolocationError] sets for an error. *)
Definition status_of (error : GeolocationPositionError) : GpsStatus :=
  match error with
  | PERMISSION_DENIED => denied
  | POSITION_UNAVAILABLE => unavailable
  | TIMEOUT => timeout
  end.

(** The session in which a refused request leaves the fallback to run: the
    request is in the log, the status is set and the fallback is on. *)
Definition after_refusal (error : GeolocationPositionError) (retryCount : nat)
    (s : Session) : Session :=
  add_effects [ GetCurrentPosition retryCount (attempt_options retryCount) ]
    (set_refs (setUseFallbackLocation true (setGpsStatus (status_of error) (refs s))) s).



End Watch.

(* ===================================================================== *)
(** * lib/fallback-location: the approximate location *)
(* ===================================================================== *)

Module FallbackLocation.
Import JS Geo Async DriverLocationUpdater.
Local Open Scope string_scope.

Definition services : list string :=
  [ "https://ipapi.co/json/"; "https://ipinfo.io/json/";
    "https://freegeoip.app/json/" ].

Definition indianCities : list Coord :=
  [ {| lat := 28.6139; lng := 77.2090 |};
    {| lat := 19.0760; lng := 72.8777 |};
    {| lat := 12.9716; lng := 77.5946 |};
    {| lat := 13.0827; lng := 80.2707 |};
    {| lat := 22.5726; lng := 88.3639 |} ].

(** [{ lat, lng }] as the function returns it: the fields of the answer as
    they came, or the numbers of a city. *)
Definition Location : Type := JsonField * JsonField.

Definition of_city (city : Coord) : Location := (JNumber (lat city), JNumber (lng city)).

(** The [for] loop of [getApproximateLocation] over the services left; the
    state is the list of the services asked so far. [fetch] is given no
    signal: the answer is waited for however long it takes. *)
Fixpoint ask (env : IPEnv) (pending : list string) : M (list string) (option Location) :=
  match pending with
  | [] => ret None
  | service :: rest =>
      let* _ := modify (fun asked => (asked ++ [service])%list) in
      match answer (replies env service) with
      | NetworkError => ask env rest
      | Response ok body =>
          if ok then
            match body with
            | None => ask env rest
            | Some (latitude, longitude) =>
                if truthy_field latitude && truthy_field longitude
                then ret (Some (latitude, longitude))
                else ask env rest
            end
          else ask env rest
      end
  end.

(** [fallbackLocationService.getApproximateLocation]. *)
Definition getApproximateLocation (env : IPEnv) : M (list string) (option Location) :=
  let* found := ask env services in
  match found with
  | Some location => ret (Some location)
  | None =>
      let randomCity :=
        nth_error indianCities (random_index (draw env) (List.length indianCities)) in
      let* _ := if console_fails env then throw "console.log" else ret tt in
      ret (option_map of_city randomCity)
  end.

(** The service answers with both coordinates. *)
Definition answers_with (env : IPEnv) (service : string) (location : Location) : Prop :=
  answer (replies env service) = Response true (Some location)
  /\ truthy_field (fst location) && truthy_field (snd location) = true.

End FallbackLocation.

(* ===================================================================== *)
(** * lib/firebase-utils: the update of a user *)
(* ===================================================================== *)

Module UserUpdate.
Import JS Async Store.
Local Open Scope string_scope.

(** [Partial<User>]: a field is absent ([None]), [null] ([Some None]) or
    given ([Some (Some x)]). *)
Record UserPatch := {
  q_name : option (option string);
  q_role : option (option string);
  q_assignedVehicleId : option (option string)
}.

Definition put_user (updates : UserPatch) (now : Z) (u : User) : User :=
  {| u_name := default (u_name u) (q_name updates);
     u_role := default (u_role u) (q_role updates);
     u_assignedVehicleId := default (u_assignedVehicleId u) (q_assignedVehicleId updates);
     u_updatedAt := Some now |}.

Section WithPlatform.
Context `{Platform}.

(** [userService.updateUser(userId, updates)]. *)
Definition updateUser (userId : string) (updates : UserPatch) : M World unit :=
  let* now := Date_now in
  write (patch_user userId (put_user updates now)).

End WithPlatform.

(** A patch that only names a vehicle. *)
Definition names_vehicle (vehicleId : string) : UserPatch :=
  {| q_name := None; q_role := None; q_assignedVehicleId := Some (Some vehicleId) |}.

End UserUpdate.

(* ===================================================================== *)
(** * Sequences of calls *)
(* ===================================================================== *)

Module Operations.
Import JS Geo Async Store TrackingCode FirebaseUtils StoreQueries.
Local Open Scope string_scope.

(** A call of [firebase-utils] that writes, or a change of the signed-in
    user. *)
Inductive Operation :=
| UpdateLocation (vehicleId : string) (lat lng : float) (options : option UpdateOptions)
| GetOrCreateTrackingId (vehicleId : string)
| AssignDriver (vehicleId : string) (driverId : option string)
| DeleteVehicle (vehicleId : string)
| CreateBooking (bookingData : BookingData)
| UpdateBooking (bookingId : string) (updates : BookingPatch)
| SignIn (uid : string)
| SignOut.

Definition set_currentUser (u : option string) (w : World) : World :=
  {| db := db w; currentUser := u; tick := tick w |}.

Section WithPlatform.
Context `{Platform}.

(** The world after the call, whether it returned or threw. *)
Definition perform (w : World) (op : Operation) : World :=
  match op with
  | UpdateLocation vehicleId lat lng options =>
      snd (updateLocation vehicleId lat lng options w)
  | GetOrCreateTrackingId vehicleId => snd (getOrCreateTrackingId vehicleId w)
  | AssignDriver vehicleId driverId => snd (assignDriver vehicleId driverId w)
  | DeleteVehicle vehicleId => snd (deleteVehicle vehicleId w)
  | CreateBooking bookingData => snd (createBooking bookingData w)
  | UpdateBooking bookingId updates => snd (updateBooking bookingId updates w)
  | SignIn uid => set_currentUser (Some uid) w
  | SignOut => set_currentUser None w
  end.

Definition perform_all (ops : list Operation) (w : World) : World :=
  fold_left perform ops w.

End WithPlatform.

(** Every stored tracking record holds the code derived from the key it is
    stored under. *)
Definition derived_ids (d : Db) : Prop :=
  forall (vehicleId : string) (data : TrackingIdentity),
    vehicleTrackingIds d !! vehicleId = Some data ->
    t_trackingId data = generateConsistentTrackingId vehicleId
    /\ t_vehicleId data = vehicleId.

End Operations.

(* ===================================================================== *)
(** * Part II: properties *)
(* ===================================================================== *)

Module TrackingCodeFacts.
Import JS TrackingCode.

Lemma ToInt32_shift (z k : Z) : ToInt32 (z + k * 2 ^ 32) = ToInt32 z.
Proof.
  unfold ToInt32.
  replace (z + k * 2 ^ 32 + 2 ^ 31) with (z + 2 ^ 31 + k * 2 ^ 32) by ring.
  now rewrite Z_mod_plus_full.
Qed.

Lemma ToInt32_decompose (z : Z) : exists k, ToInt32 z = z + k * 2 ^ 32.
Proof.
  exists (- ((z + 2 ^ 31) / 2 ^ 32)). unfold ToInt32.
  rewrite Z.mod_eq by lia. ring.
Qed.

Lemma ToInt32_idem (z : Z) : ToInt32 (ToInt32 z) = ToInt32 z.
Proof.
  destruct (ToInt32_decompose z) as [k Hk].
  transitivity (ToInt32 (z + k * 2 ^ 32)); [congruence | apply ToInt32_shift].
Qed.

Lemma ToInt32_range (z : Z) : - 2 ^ 31 <= ToInt32 z < 2 ^ 31.
Proof.
  unfold ToInt32.
  pose proof (Z.mod_pos_bound (z + 2 ^ 31) (2 ^ 32) ltac:(lia)). lia.
Qed.

(** One turn of the loop multiplies by 31 and adds the code unit, in
    32-bit two's complement. *)
Lemma hash_step_wrap (acc : Z) (c : ascii) :
  hash_step (ToInt32 acc) c = ToInt32 (31 * acc + charCode c).
Proof.
  unfold hash_step, band, shl.
  rewrite Z.land_diag, !ToInt32_idem.
  change (Z.land 5 31) with 5. rewrite Z.shiftl_mul_pow2 by lia.
  destruct (ToInt32_decompose acc) as [k Hk]. rewrite Hk.
  destruct (ToInt32_decompose ((acc + k * 2 ^ 32) * 2 ^ 5)) as [j ->].
  replace ((acc + k * 2 ^ 32) * 2 ^ 5 + j * 2 ^ 32 - (acc + k * 2 ^ 32) + charCode c)
    with (31 * acc + charCode c + (31 * k + j) * 2 ^ 32) by ring.
  apply ToInt32_shift.
Qed.

Lemma fold_left_cons {A B} (f : A -> B -> A) (x : B) (l : list B) (a : A) :
  fold_left f (x :: l) a = fold_left f l (f a x).
Proof. reflexivity. Qed.

Lemma poly31_cons (acc : Z) (c : ascii) (cs : list ascii) :
  poly31 acc (c :: cs) = poly31 (31 * acc + charCode c) cs.
Proof. reflexivity. Qed.

Lemma hash_fold_poly (cs : list ascii) (acc : Z) :
  fold_left hash_step cs (ToInt32 acc) = ToInt32 (poly31 acc cs).
Proof.
  revert acc. induction cs as [|c cs IH]; intros acc.
  - reflexivity.
  - rewrite fold_left_cons, poly31_cons, hash_step_wrap. apply IH.
Qed.

Lemma hash_loop_rolling (vehicleId : string) :
  hash_loop vehicleId = rolling_hash vehicleId.
Proof.
  unfold hash_loop, rolling_hash.
  rewrite <- hash_fold_poly. reflexivity.
Qed.

Lemma abs_rem_range (x : Z) : 0 <= abs_rem x 10000 < 10000.
Proof.
  unfold abs_rem. pose proof (Z.rem_bound_abs x 10000 ltac:(lia)).
  pose proof (Z.abs_nonneg (Z.rem x 10000)). lia.
Qed.

(** [toString] followed by [padStart(4, '0')] writes the four decimal
    digits: checked on each of the 10000 values. *)
Lemma pad_agrees_all : forallb pad_agrees below_10000 = true.
Proof. vm_compute. reflexivity. Qed.

Lemma padStart_four_digits (n : Z) :
  0 <= n < 10000 -> padStart0 4 (toString n) = four_digits n.
Proof.
  intros Hn. pose proof pad_agrees_all as Hall.
  rewrite forallb_forall in Hall.
  apply String.eqb_eq, Hall. unfold below_10000.
  rewrite <- (Z2Nat.id n) by lia.
  apply in_map, in_seq. lia.
Qed.

Lemma chars_of_chars (l : list ascii) : chars (of_chars l) = l.
Proof. apply list_ascii_of_string_of_list_ascii. Qed.

Lemma shortId_prefix4 (vehicleId : string) : shortId vehicleId = prefix4 vehicleId.
Proof.
  unfold shortId, prefix4, toUpperCase, substring0, strip_non_alnum.
  now rewrite !chars_of_chars.
Qed.

Lemma length_of_chars (l : list ascii) : String.length (of_chars l) = List.length l.
Proof. induction l as [|c l IH]; simpl; [reflexivity | now rewrite IH]. Qed.

(** C5. The tracking code is a function of the vehicle identifier alone:
    it is the first (at most four) alphanumeric characters of the
    identifier, uppercased, followed by the four decimal digits of the
    absolute value of the remainder modulo 10000 of the 32-bit polynomial
    (base 31) hash of all code units of the identifier; two computations
    on equal identifiers give equal strings. *)
Theorem generateConsistentTrackingId_closed_form :
  forall vehicleId : string,
    let n := Z.abs (Z.rem (rolling_hash vehicleId) 10000) in
    generateConsistentTrackingId vehicleId
      = (prefix4 vehicleId ++ four_digits n)%string
    /\ 0 <= n < 10000
    /\ (String.length (prefix4 vehicleId) <= 4)%nat
    /\ String.length (four_digits n) = 4%nat
    /\ (forall other : string, other = vehicleId ->
          generateConsistentTrackingId other = generateConsistentTrackingId vehicleId).
Proof.
  intros vehicleId n.
  assert (Hn : 0 <= n < 10000) by apply (abs_rem_range (rolling_hash vehicleId)).
  repeat split; try lia.
  - unfold generateConsistentTrackingId, uniqueDigits.
    rewrite shortId_prefix4, hash_loop_rolling.
    fold n. unfold abs_rem. fold n. now rewrite padStart_four_digits.
  - unfold prefix4. rewrite length_of_chars, length_map. apply firstn_le_length.
  - intros other ->. reflexivity.
Qed.

End TrackingCodeFacts.

Module TrackingIdentityFacts.
Import JS Geo Async Store TrackingCode FirebaseUtils.

Section WithPlatform.
Context `{Platform}.

(** What one call does, by cases on the stored record and the session. *)
Lemma getOrCreateTrackingId_run (vehicleId : string) (w : World) :
  getOrCreateTrackingId vehicleId w =
    match vehicleTrackingIds (db w) !! vehicleId with
    | Some data => (Ok (t_trackingId data), w)
    | None =>
        match currentUser w with
        | Some uid =>
            (Ok (generateConsistentTrackingId vehicleId),
             with_db (fun d => set_vehicleTrackingIds
               (<[vehicleId := {| t_trackingId := generateConsistentTrackingId vehicleId;
                                  t_vehicleId := vehicleId;
                                  t_createdAt := Date_clock (tick w);
                                  t_createdBy := uid |}]> (vehicleTrackingIds d)) d)
               (tick_once w))
        | None => (Ok (generateConsistentTrackingId vehicleId), tick_once w)
        end
    end.
Proof.
  unfold getOrCreateTrackingId, try_catch, bind, get, gets, write, modify,
    requireAuth, Date_now, ret.
  destruct (vehicleTrackingIds (db w) !! vehicleId) as [data|] eqn:E; cbn.
  - reflexivity.
  - unfold tick_once, with_db.
    destruct (currentUser w) as [uid|] eqn:U; cbn; rewrite ?U; reflexivity.
Qed.

(** C6. Two calls in a row return the same tracking identifier and the
    second call leaves the database as the first one left it; when a
    record is stored for the vehicle, a call returns its identifier
    and changes nothing at all. *)
Theorem getOrCreateTrackingId_idempotent :
  forall (vehicleId : string) (w : World),
    let first := getOrCreateTrackingId vehicleId w in
    let second := getOrCreateTrackingId vehicleId (snd first) in
    (exists trackingId, fst first = Ok trackingId /\ fst second = Ok trackingId)
    /\ db (snd second) = db (snd first)
    /\ match vehicleTrackingIds (db w) !! vehicleId with
       | Some data => first = (Ok (t_trackingId data), w)
       | None => fst first = Ok (generateConsistentTrackingId vehicleId)
       end.
Proof.
  intros vehicleId w first second. subst second first.
  rewrite !getOrCreateTrackingId_run.
  destruct (vehicleTrackingIds (db w) !! vehicleId) as [data|] eqn:E.
  - cbn. rewrite E. cbn. eauto.
  - destruct (currentUser w) as [uid|] eqn:U; cbn.
    + rewrite lookup_insert_eq. cbn. eauto.
    + rewrite E, U. cbn. eauto.
Qed.

End WithPlatform.
End TrackingIdentityFacts.

Module LocationServiceFacts.
Import JS Geo Async Store TrackingCode FirebaseUtils TrackingIdentityFacts.

Section WithPlatform.
Context `{Platform}.

Lemma shouldUpdate_true (options : option UpdateOptions) : shouldUpdate options = true.
Proof. unfold shouldUpdate. apply orb_true_r. Qed.

Lemma getOrCreateTrackingId_keeps_user (vehicleId : string) (w : World) :
  currentUser (snd (getOrCreateTrackingId vehicleId w)) = currentUser w.
Proof.
  rewrite getOrCreateTrackingId_run.
  destruct (vehicleTrackingIds (db w) !! vehicleId); [reflexivity|].
  destruct (currentUser w) eqn:U; cbn; now rewrite ?U.
Qed.

Lemma getOrCreateTrackingId_returns (vehicleId : string) (w : World) :
  exists trackingId, fst (getOrCreateTrackingId vehicleId w) = Ok trackingId.
Proof.
  rewrite getOrCreateTrackingId_run.
  destruct (vehicleTrackingIds (db w) !! vehicleId); [eauto|].
  destruct (currentUser w); eauto.
Qed.

(** What a signed-in call does: it resolves the identifier, reads the
    clock and writes the record. *)
Lemma updateLocation_run (vehicleId : string) (lat lng : float)
    (options : option UpdateOptions) (w : World) (uid : string) :
  currentUser w = Some uid ->
  exists tid,
    fst (getOrCreateTrackingId vehicleId w) = Ok tid
    /\ updateLocation vehicleId lat lng options w =
       (Ok {| updated := true; trackingId := tid |},
        with_db (fun d => set_vehicleLocations
          (<[vehicleId := {| l_vehicleId := vehicleId; l_trackingId := tid;
                             l_lat := lat; l_lng := lng;
                             l_timestamp :=
                               Date_clock (tick (snd (getOrCreateTrackingId vehicleId w)));
                             l_updatedBy := uid |}]> (vehicleLocations d)) d)
          (tick_once (snd (getOrCreateTrackingId vehicleId w)))).
Proof.
  intros Hauth.
  destruct (getOrCreateTrackingId_returns vehicleId w) as [tid Htid].
  exists tid. split; [exact Htid|].
  unfold updateLocation, bind at 1. unfold requireAuth at 1.
  rewrite Hauth. unfold bind at 1.
  destruct (getOrCreateTrackingId vehicleId w) as [r w1] eqn:Hg.
  cbn in Htid. subst r. rewrite shouldUpdate_true. cbn. reflexivity.
Qed.

Lemma updateLocation_stores (vehicleId : string) (lat lng : float)
    (options : option UpdateOptions) (w : World) (uid : string) :
  currentUser w = Some uid ->
  exists tid rec,
    fst (updateLocation vehicleId lat lng options w)
      = Ok {| updated := true; trackingId := tid |}
    /\ vehicleLocations (db (snd (updateLocation vehicleId lat lng options w))) !! vehicleId
       = Some rec
    /\ l_vehicleId rec = vehicleId /\ l_lat rec = lat /\ l_lng rec = lng
    /\ l_updatedBy rec = uid.
Proof.
  intros Hauth.
  destruct (updateLocation_run vehicleId lat lng options w uid Hauth) as (tid & _ & Hrun).
  rewrite Hrun. cbn [fst snd]. eexists tid, _.
  split; [reflexivity|]. split; [apply lookup_insert_eq|]. cbn. auto.
Qed.

(** C1. In a signed-in session [locationService.updateLocation] always
    writes: whatever [forceUpdate] and [previousLocation] are, the value of
    [shouldUpdate] is [true], the call returns [{ updated: true, trackingId }]
    with the identifier resolved for the vehicle, the record under
    [vehicleLocations/{vehicleId}] is the one built from the arguments, and
    the result is never [{ updated: false, ... }]. *)
Theorem updateLocation_always_writes :
  forall (vehicleId : string) (lat lng : float) (options : option UpdateOptions)
         (w : World) (uid : string),
    currentUser w = Some uid ->
    let resolved := getOrCreateTrackingId vehicleId w in
    let run := updateLocation vehicleId lat lng options w in
    shouldUpdate options = true
    /\ exists tid,
         fst resolved = Ok tid
         /\ fst run = Ok {| updated := true; trackingId := tid |}
         /\ vehicleLocations (db (snd run)) !! vehicleId
            = Some {| l_vehicleId := vehicleId; l_trackingId := tid;
                      l_lat := lat; l_lng := lng;
                      l_timestamp := Date_clock (tick (snd resolved));
                      l_updatedBy := uid |}
         /\ (forall other, fst run <> Ok {| updated := false; trackingId := other |}).
Proof.
  intros vehicleId lat lng options w uid Hauth resolved run.
  split; [apply shouldUpdate_true|].
  destruct (updateLocation_run vehicleId lat lng options w uid Hauth) as (tid & Htid & Hrun).
  exists tid. split; [exact Htid|].
  subst run resolved. rewrite Hrun. cbn [fst snd]. split; [reflexivity|]. split.
  - apply lookup_insert_eq.
  - intros other Heq. discriminate Heq.
Qed.

End WithPlatform.

Import Scenario.

Lemma updateLocation_always_writes_witness :
  currentUser signed_in = Some "u7"
  /\ fst (@updateLocation Reference.platform "V1" 12.9716 77.5946 same_place signed_in)
     = Ok {| updated := true; trackingId := "V12715" |}.
Proof.
  split; [reflexivity|].
  destruct (@updateLocation_always_writes Reference.platform "V1" 12.9716 77.5946
              same_place signed_in "u7" eq_refl) as [_ [tid [Htid [Hrun _]]]].
  vm_compute in Htid. injection Htid as <-. exact Hrun.
Defined.

End LocationServiceFacts.

Module AssignmentFacts.
Import JS Async Store FirebaseUtils Assignment.
Local Open Scope string_scope.

Lemma truthy_nonempty (s : string) : truthy s = true <-> s <> "".
Proof. destruct s; cbn; split; congruence. Qed.

Lemma or_null_Some (o : option string) (s : string) :
  or_null o = Some s <-> o = Some s /\ s <> "".
Proof.
  unfold or_null, truthy_opt. destruct o as [x|].
  - destruct (truthy x) eqn:Ht.
    + apply truthy_nonempty in Ht. split; [intros [= <-]; auto | intros [H _]; exact H].
    + assert (x = "") as -> by (destruct x; [reflexivity | discriminate]).
      split; [discriminate | intros [[= <-] Hne]; congruence].
  - split; [discriminate | intros [? _]; discriminate].
Qed.

Lemma vehicles_patch_vehicle (id k : string) (f : Vehicle -> Vehicle) (d : Db) :
  vehicles (patch_vehicle id f d) !! k =
    if decide (id = k) then Some (f (default no_vehicle (vehicles d !! id)))
    else vehicles d !! k.
Proof. unfold patch_vehicle. cbn. apply lookup_insert. Qed.

Lemma users_patch_user (id k : string) (f : User -> User) (d : Db) :
  users (patch_user id f d) !! k =
    if decide (id = k) then Some (f (default no_user (users d !! id)))
    else users d !! k.
Proof. unfold patch_user. cbn. apply lookup_insert. Qed.

Lemma users_patch_vehicle (id : string) (f : Vehicle -> Vehicle) (d : Db) :
  users (patch_vehicle id f d) = users d.
Proof. reflexivity. Qed.

Lemma vehicles_patch_user (id : string) (f : User -> User) (d : Db) :
  vehicles (patch_user id f d) = vehicles d.
Proof. reflexivity. Qed.

Section Writes.
Variables (vehicleId driverId : string) (assigned current : option string).
Variables (t1 t2 t3 t4 : Z) (d : Db).

Local Abbreviation final := (assign_writes vehicleId driverId assigned current t1 t2 t3 t4 d).
Local Abbreviation released := (released vehicleId assigned).
Local Abbreviation dismissed := (dismissed driverId current).

Lemma assign_vehicles_target :
  exists rec, vehicles final !! vehicleId = Some rec /\ v_driverId rec = Some driverId.
Proof.
  unfold assign_writes.
  rewrite vehicles_patch_vehicle, decide_True by reflexivity. eauto.
Qed.

Lemma assign_vehicles_released (k : string) :
  released k ->
  exists rec, vehicles final !! k = Some rec /\ v_driverId rec = None.
Proof.
  intros (-> & Hne & Hother). unfold assign_writes.
  rewrite vehicles_patch_vehicle, decide_False by congruence.
  apply truthy_nonempty in Hne. rewrite Hne.
  apply String.eqb_neq in Hother. rewrite Hother. cbn [negb andb].
  assert (Hv : forall x, vehicles x !! k = Some (put_driverId None t1 (default no_vehicle (vehicles d !! k))) ->
    exists rec, vehicles x !! k = Some rec /\ v_driverId rec = None) by (intros x ->; eauto).
  destruct current as [previous|]; [destruct (negb (previous =? driverId)%string)|];
    apply Hv; rewrite ?vehicles_patch_user, vehicles_patch_vehicle, decide_True; reflexivity.
Qed.

Lemma assign_vehicles_other (k : string) :
  k <> vehicleId -> ~ released k -> vehicles final !! k = vehicles d !! k.
Proof.
  intros Hk Hrel. unfold assign_writes.
  rewrite vehicles_patch_vehicle, decide_False by congruence.
  assert (Hd1 : vehicles
    match assigned with
    | Some other => if truthy other && negb (other =? vehicleId)%string
                    then patch_vehicle other (put_driverId None t1) d else d
    | None => d
    end !! k = vehicles d !! k).
  { destruct assigned as [other|]; [|reflexivity].
    destruct (truthy other && negb (other =? vehicleId)%string) eqn:Hc; [|reflexivity].
    apply andb_true_iff in Hc as [Ht Hn]. apply truthy_nonempty in Ht.
    apply negb_true_iff, String.eqb_neq in Hn.
    rewrite vehicles_patch_vehicle, decide_False; [reflexivity|].
    intros ->. apply Hrel. unfold released. auto. }
  destruct current as [previous|]; [destruct (negb (previous =? driverId)%string)|];
    rewrite ?vehicles_patch_user; exact Hd1.
Qed.

Lemma assign_users_target (u : User) :
  users d !! driverId = Some u ->
  users final !! driverId = Some (put_assignedVehicleId (Some vehicleId) t2 u).
Proof.
  intros Hu. unfold assign_writes. rewrite users_patch_vehicle.
  assert (Hd2 : forall x, users x !! driverId = Some u ->
    users (patch_user driverId (put_assignedVehicleId (Some vehicleId) t2) x) !! driverId
      = Some (put_assignedVehicleId (Some vehicleId) t2 u)).
  { intros x Hx. rewrite users_patch_user, decide_True, Hx; reflexivity. }
  assert (Hd1 : users
    match assigned with
    | Some other => if truthy other && negb (other =? vehicleId)%string
                    then patch_vehicle other (put_driverId None t1) d else d
    | None => d
    end !! driverId = Some u).
  { destruct assigned as [other|]; [destruct (truthy other && negb (other =? vehicleId)%string)|];
      rewrite ?users_patch_vehicle; exact Hu. }
  destruct current as [previous|]; [destruct (negb (previous =? driverId)%string) eqn:Hp|].
  - apply negb_true_iff, String.eqb_neq in Hp.
    rewrite users_patch_user, decide_False by exact Hp. auto.
  - auto.
  - auto.
Qed.

Lemma assign_users_dismissed (k : string) :
  dismissed k ->
  exists u, users final !! k = Some u /\ u_assignedVehicleId u = None.
Proof.
  intros [-> Hne]. unfold assign_writes. rewrite users_patch_vehicle.
  apply String.eqb_neq in Hne. rewrite Hne. cbn [negb].
  rewrite users_patch_user, decide_True by reflexivity. eauto.
Qed.

Lemma assign_users_other (k : string) :
  k <> driverId -> ~ dismissed k -> users final !! k = users d !! k.
Proof.
  intros Hk Hdis. unfold assign_writes. rewrite users_patch_vehicle.
  assert (Hd2 : users (patch_user driverId (put_assignedVehicleId (Some vehicleId) t2)
    match assigned with
    | Some other => if truthy other && negb (other =? vehicleId)%string
                    then patch_vehicle other (put_driverId None t1) d else d
    | None => d
    end) !! k = users d !! k).
  { rewrite users_patch_user, decide_False by congruence.
    destruct assigned as [other|]; [destruct (truthy other && negb (other =? vehicleId)%string)|];
      rewrite ?users_patch_vehicle; reflexivity. }
  destruct current as [previous|]; [destruct (negb (previous =? driverId)%string) eqn:Hp|];
    try exact Hd2.
  apply negb_true_iff, String.eqb_neq in Hp.
  rewrite users_patch_user, decide_False; [exact Hd2|].
  intros ->. apply Hdis. unfold dismissed. auto.
Qed.

End Writes.

(** A swap keeps the invariant. *)
Lemma assign_writes_consistent (vehicleId driverId : string) (v : Vehicle) (u : User)
    (t1 t2 t3 t4 : Z) (d : Db) :
  consistent d ->
  vehicleId <> "" -> driverId <> "" ->
  vehicles d !! vehicleId = Some v ->
  users d !! driverId = Some u ->
  u_role u = Some "driver" ->
  consistent (assign_writes vehicleId driverId (u_assignedVehicleId u)
                (or_null (v_driverId v)) t1 t2 t3 t4 d).
Proof.
  intros ([Hwv Hwu] & Hvs) HvehicleId HdriverId Hv Hu Hrole.
  set (assigned := u_assignedVehicleId u).
  set (current := or_null (v_driverId v)).
  assert (Hnodis : forall k, dismissed driverId current k -> v_driverId v = Some k /\ k <> "").
  { intros k [Hc _]. now apply or_null_Some in Hc. }
  repeat split.
  - rewrite assign_vehicles_other; [exact Hwv | congruence |].
    intros (_ & Hne & _). congruence.
  - rewrite assign_users_other; [exact Hwu | congruence |].
    intros Hd. apply Hnodis in Hd as [_ Hne]. congruence.
  - intros k rec dr Hk Hdr.
    destruct (decide (k = vehicleId)) as [->|Hkv].
    + destruct (assign_vehicles_target vehicleId driverId assigned current t1 t2 t3 t4 d)
        as (rec' & Hrec' & Hdrv).
      rewrite Hk in Hrec'. injection Hrec' as <-. rewrite Hdr in Hdrv. injection Hdrv as ->.
      eexists. split; [apply assign_users_target; exact Hu|]. cbn. auto.
    + destruct (decide (assigned = Some k /\ k <> "" /\ k <> vehicleId)) as [Hrel|Hrel].
      * destruct (assign_vehicles_released vehicleId driverId assigned current t1 t2 t3 t4 d k Hrel)
          as (rec' & Hrec' & Hnone).
        rewrite Hk in Hrec'. injection Hrec' as <-. congruence.
      * rewrite assign_vehicles_other in Hk by assumption.
        destruct (Hvs k rec dr Hk Hdr) as (ud & Hud & Hudrole & Hudassigned).
        exists ud. split; [|auto].
        rewrite assign_users_other; [exact Hud | |].
        -- intros ->. rewrite Hu in Hud. injection Hud as <-.
           apply Hrel. repeat split; [exact Hudassigned | | exact Hkv].
           intros ->. congruence.
        -- intros Hd. destruct (Hnodis _ Hd) as [Hvd _].
           destruct (Hvs vehicleId v dr Hv Hvd) as (u0 & Hu0 & _ & Hu0a).
           rewrite Hud in Hu0. injection Hu0 as <-. congruence.
Qed.

(** And the other direction with it. *)
Lemma assign_writes_bidirectional (vehicleId driverId : string) (v : Vehicle) (u : User)
    (t1 t2 t3 t4 : Z) (d : Db) :
  bidirectional d ->
  vehicleId <> "" -> driverId <> "" ->
  vehicles d !! vehicleId = Some v ->
  users d !! driverId = Some u ->
  u_role u = Some "driver" ->
  bidirectional (assign_writes vehicleId driverId (u_assignedVehicleId u)
                   (or_null (v_driverId v)) t1 t2 t3 t4 d).
Proof.
  intros (Hcons & Hds) HvehicleId HdriverId Hv Hu Hrole.
  split; [now apply assign_writes_consistent|].
  destruct Hcons as ([Hwv Hwu] & Hvs).
  set (assigned := u_assignedVehicleId u).
  set (current := or_null (v_driverId v)).
  intros y u' v0 Hy Ha.
  destruct (decide (y = driverId)) as [->|Hyd].
  - rewrite (assign_users_target vehicleId driverId assigned current t1 t2 t3 t4 d u Hu) in Hy.
    injection Hy as <-. cbn in Ha. injection Ha as <-.
    apply assign_vehicles_target.
  - destruct (decide (current = Some y /\ y <> driverId)) as [Hdis|Hdis].
    + destruct (assign_users_dismissed vehicleId driverId assigned current t1 t2 t3 t4 d y Hdis)
        as (u0 & Hu0 & Hnone).
      rewrite Hy in Hu0. injection Hu0 as <-. congruence.
    + rewrite assign_users_other in Hy by assumption.
      destruct (Hds y u' v0 Hy Ha) as (rec0 & Hrec0 & Hrec0d).
      exists rec0. split; [|exact Hrec0d].
      rewrite assign_vehicles_other; [exact Hrec0 | |].
      * intros ->. rewrite Hv in Hrec0. injection Hrec0 as <-.
        apply Hdis. split; [|exact Hyd].
        apply or_null_Some. split; [exact Hrec0d|]. intros ->. congruence.
      * intros (Hass & _ & _).
        destruct (Hds driverId u v0 Hu Hass) as (rec1 & Hrec1 & Hrec1d).
        rewrite Hrec0 in Hrec1. injection Hrec1 as <-. congruence.
Qed.

Section WithPlatform.
Context `{Platform}.

(** A call that passes the three checks makes the writes of [assign_writes]. *)
Lemma assignDriver_run (vehicleId driverId uid : string) (v : Vehicle) (u : User) (w : World) :
  currentUser w = Some uid ->
  vehicleId <> "" -> driverId <> "" ->
  vehicles (db w) !! vehicleId = Some v ->
  users (db w) !! driverId = Some u ->
  u_role u = Some "driver" ->
  exists t1 t2 t3 t4 w',
    assignDriver vehicleId (Some driverId) w = (Ok tt, w')
    /\ db w' = assign_writes vehicleId driverId (u_assignedVehicleId u)
                 (or_null (v_driverId v)) t1 t2 t3 t4 (db w)
    /\ currentUser w' = currentUser w.
Proof.
  intros Hauth HvehicleId HdriverId Hv Hu Hrole.
  apply truthy_nonempty in HvehicleId, HdriverId.
  unfold assignDriver, bind at 1. unfold requireAuth at 1. rewrite Hauth, HvehicleId.
  cbn [negb]. unfold try_catch, bind at 1. unfold get at 1, gets. rewrite Hv.
  unfold bind at 1. rewrite HdriverId.
  unfold assign_branch, bind at 1. unfold get at 1, gets. rewrite Hu.
  rewrite bool_decide_eq_true_2 by exact Hrole. cbn [negb].
  unfold assign_writes.
  destruct (u_assignedVehicleId u) as [other|];
    [destruct (truthy other && negb (other =? vehicleId)%string)|];
    (destruct (or_null (v_driverId v)) as [previous|];
      [destruct (negb (previous =? driverId)%string)|]);
    cbn; eexists _, _, _, _, _; (split; [reflexivity|]); (split; [reflexivity | exact Hauth]).
  Unshelve. all: exact 0.
Qed.

(** C2. From a database that satisfies the invariant of the data model (a
    vehicle's driver is a user of role [driver] whose vehicle it is), with
    a user signed in, two distinct stored vehicles and a stored user of
    role [driver]: [assign(vehicleA, driverX)] and then
    [assign(vehicleB, driverX)] both complete, the invariant holds after
    each (in both directions when it held in both), and at the end
    vehicleA has no driver, vehicleB's driver is driverX, driverX's vehicle
    is vehicleB and no other vehicle names driverX. *)
Theorem assignDriver_exclusive :
  forall (vehicleA vehicleB driverX uid : string) (a b : Vehicle) (x : User) (w : World),
    currentUser w = Some uid ->
    consistent (db w) ->
    vehicleA <> vehicleB ->
    vehicles (db w) !! vehicleA = Some a ->
    vehicles (db w) !! vehicleB = Some b ->
    users (db w) !! driverX = Some x ->
    u_role x = Some "driver" ->
    exists w1 w2,
      assignDriver vehicleA (Some driverX) w = (Ok tt, w1)
      /\ assignDriver vehicleB (Some driverX) w1 = (Ok tt, w2)
      /\ consistent (db w1) /\ consistent (db w2)
      /\ (driver_side (db w) -> bidirectional (db w1) /\ bidirectional (db w2))
      /\ (exists ra, vehicles (db w2) !! vehicleA = Some ra /\ v_driverId ra = None)
      /\ (exists rb, vehicles (db w2) !! vehicleB = Some rb /\ v_driverId rb = Some driverX)
      /\ (exists ux, users (db w2) !! driverX = Some ux
                     /\ u_assignedVehicleId ux = Some vehicleB)
      /\ (forall k rec, vehicles (db w2) !! k = Some rec ->
                        v_driverId rec = Some driverX -> k = vehicleB).
Proof.
  intros vehicleA vehicleB driverX uid a b x w Hauth Hinv Hab Ha Hb Hx Hrole.
  assert (HA : vehicleA <> "") by (intros ->; destruct Hinv as ([? _] & _); congruence).
  assert (HB : vehicleB <> "") by (intros ->; destruct Hinv as ([? _] & _); congruence).
  assert (HX : driverX <> "") by (intros ->; destruct Hinv as ([_ ?] & _); congruence).
  destruct (assignDriver_run vehicleA driverX uid a x w Hauth HA HX Ha Hx Hrole)
    as (t1 & t2 & t3 & t4 & w1 & Hrun1 & Hdb1 & Hauth1).
  assert (Hinv1 : consistent (db w1)).
  { rewrite Hdb1. now apply assign_writes_consistent. }
  assert (Hx1 : users (db w1) !! driverX
                = Some (put_assignedVehicleId (Some vehicleA) t2 x)).
  { rewrite Hdb1. now apply assign_users_target. }
  assert (Hb1 : exists b1, vehicles (db w1) !! vehicleB = Some b1).
  { rewrite Hdb1.
    destruct (decide (released vehicleA (u_assignedVehicleId x) vehicleB)) as [Hrel|Hrel].
    - destruct (assign_vehicles_released vehicleA driverX (u_assignedVehicleId x)
                  (or_null (v_driverId a)) t1 t2 t3 t4 (db w) vehicleB Hrel) as (r & Hr & _).
      eauto.
    - rewrite assign_vehicles_other by (auto; congruence). eauto. }
  destruct Hb1 as [b1 Hb1].
  pose proof Hauth as Hauth0. rewrite <- Hauth1 in Hauth.
  destruct (assignDriver_run vehicleB driverX uid b1 _ w1 Hauth HB HX Hb1 Hx1 Hrole)
    as (s1 & s2 & s3 & s4 & w2 & Hrun2 & Hdb2 & _).
  assert (Hinv2 : consistent (db w2)).
  { rewrite Hdb2. now apply assign_writes_consistent. }
  exists w1, w2. repeat (split; [assumption|]).
  assert (HxB : users (db w2) !! driverX
                = Some (put_assignedVehicleId (Some vehicleB) s2
                          (put_assignedVehicleId (Some vehicleA) t2 x))).
  { rewrite Hdb2. now apply assign_users_target. }
  split; [|repeat split].
  - intros Hds.
    assert (Hbi1 : bidirectional (db w1)).
    { rewrite Hdb1. apply assign_writes_bidirectional; try assumption. now split. }
    split; [exact Hbi1|].
    rewrite Hdb2. now apply assign_writes_bidirectional.
  - rewrite Hdb2. apply assign_vehicles_released. cbn. unfold released. auto.
  - rewrite Hdb2. apply assign_vehicles_target.
  - eexists. split; [exact HxB | reflexivity].
  - intros k rec Hk Hdr.
    destruct Hinv2 as (_ & Hvs).
    destruct (Hvs k rec driverX Hk Hdr) as (u0 & Hu0 & _ & Hassigned).
    rewrite HxB in Hu0. injection Hu0 as <-. cbn in Hassigned. congruence.
Qed.

(** C7, as the code has it. For a signed-in caller, a non-empty
    [vehicleId] and a non-empty [driverId]: the call throws
    [Vehicle not found] when the vehicle is not stored, else
    [Driver not found] when the user is not stored, else
    [User is not a driver] when the user's role is not [driver], each
    wrapped in [Failed to assign driver: ...]; in the three cases the
    world is the one the call started from, and otherwise the call
    completes. *)
Theorem assignDriver_checks_first :
  forall (vehicleId driverId uid : string) (w : World),
    currentUser w = Some uid ->
    vehicleId <> "" -> driverId <> "" ->
    let run := assignDriver vehicleId (Some driverId) w in
    match vehicles (db w) !! vehicleId with
    | None =>
        run = (Throw ("Failed to assign driver: Vehicle not found: " ++ vehicleId), w)
    | Some _ =>
        match users (db w) !! driverId with
        | None =>
            run = (Throw ("Failed to assign driver: Driver not found: " ++ driverId), w)
        | Some u =>
            if bool_decide (u_role u = Some "driver")
            then fst run = Ok tt
            else run = (Throw "Failed to assign driver: User is not a driver", w)
        end
    end.
Proof.
  intros vehicleId driverId uid w Hauth HvehicleId HdriverId run.
  destruct (vehicles (db w) !! vehicleId) as [v|] eqn:Hv;
    [destruct (users (db w) !! driverId) as [u|] eqn:Hu;
      [destruct (bool_decide (u_role u = Some "driver")) eqn:Hrole|]|].
  - apply bool_decide_eq_true_1 in Hrole.
    destruct (assignDriver_run vehicleId driverId uid v u w Hauth HvehicleId HdriverId Hv Hu Hrole)
      as (t1 & t2 & t3 & t4 & w' & Hrun & _).
    subst run. now rewrite Hrun.
  - apply truthy_nonempty in HvehicleId, HdriverId.
    subst run. unfold assignDriver, bind at 1. unfold requireAuth at 1.
    rewrite Hauth, HvehicleId. cbn [negb].
    unfold try_catch, bind at 1. unfold get at 1, gets. rewrite Hv.
    unfold bind at 1. rewrite HdriverId.
    unfold assign_branch, bind at 1. unfold get at 1, gets. rewrite Hu, Hrole.
    reflexivity.
  - apply truthy_nonempty in HvehicleId, HdriverId.
    subst run. unfold assignDriver, bind at 1. unfold requireAuth at 1.
    rewrite Hauth, HvehicleId. cbn [negb].
    unfold try_catch, bind at 1. unfold get at 1, gets. rewrite Hv.
    unfold bind at 1. rewrite HdriverId.
    unfold assign_branch, bind at 1. unfold get at 1, gets. rewrite Hu.
    reflexivity.
  - apply truthy_nonempty in HvehicleId.
    subst run. unfold assignDriver, bind at 1. unfold requireAuth at 1.
    rewrite Hauth, HvehicleId. cbn [negb].
    unfold try_catch, bind at 1. unfold get at 1, gets. rewrite Hv.
    reflexivity.
Qed.

End WithPlatform.

Lemma bidirectionalb_sound (d : Db) : bidirectionalb d = true -> bidirectional d.
Proof.
  unfold bidirectionalb.
  destruct (vehicles d !! "") eqn:Hv0; [discriminate|].
  destruct (users d !! "") eqn:Hu0; [discriminate|].
  intros [Hvs Hds]%andb_true_iff.
  rewrite forallb_forall in Hvs, Hds.
  unfold bidirectional, consistent, wf_keys. repeat split; try assumption.
  - intros v rec driver Hv Hdr.
    specialize (Hvs (v, rec)). unfold vehicle_okb in Hvs. cbn in Hvs. rewrite Hdr in Hvs.
    destruct (users d !! driver) as [u|].
    + exists u. split; [reflexivity|].
      assert (Hin : In (v, rec) (map_to_list (vehicles d)))
        by (apply list_elem_of_In, elem_of_map_to_list; exact Hv).
      apply Hvs, andb_true_iff in Hin as [H1 H2].
      split; eapply bool_decide_eq_true_1; eassumption.
    + assert (Hin : In (v, rec) (map_to_list (vehicles d)))
        by (apply list_elem_of_In, elem_of_map_to_list; exact Hv).
      apply Hvs in Hin. discriminate.
  - intros driver u v Hu Ha.
    specialize (Hds (driver, u)). unfold driver_okb in Hds. cbn in Hds. rewrite Ha in Hds.
    assert (Hin : In (driver, u) (map_to_list (users d)))
      by (apply list_elem_of_In, elem_of_map_to_list; exact Hu).
    apply Hds in Hin.
    destruct (vehicles d !! v) as [rec|]; [|discriminate].
    exists rec. split; [reflexivity|]. eapply bool_decide_eq_true_1; eassumption.
Qed.

Import Scenario.

Lemma fleet_bidirectional : bidirectional fleet_db.
Proof. apply bidirectionalb_sound. vm_compute. reflexivity. Qed.

Lemma assignDriver_exclusive_witness :
  exists w1 w2,
    @assignDriver Reference.platform "v1" (Some "d1") fleet = (Ok tt, w1)
    /\ @assignDriver Reference.platform "v2" (Some "d1") w1 = (Ok tt, w2)
    /\ consistent (db w1) /\ consistent (db w2)
    /\ (driver_side (db fleet) -> bidirectional (db w1) /\ bidirectional (db w2))
    /\ (exists ra, vehicles (db w2) !! "v1" = Some ra /\ v_driverId ra = None)
    /\ (exists rb, vehicles (db w2) !! "v2" = Some rb /\ v_driverId rb = Some "d1")
    /\ (exists ux, users (db w2) !! "d1" = Some ux /\ u_assignedVehicleId ux = Some "v2")
    /\ (forall k rec, vehicles (db w2) !! k = Some rec ->
                      v_driverId rec = Some "d1" -> k = "v2").
Proof.
  apply (@assignDriver_exclusive Reference.platform "v1" "v2" "d1" "a1"
           (car (Some "d2")) (car None) (person "driver" (Some "v3")) fleet).
  - reflexivity.
  - exact (proj1 fleet_bidirectional).
  - discriminate.
  - reflexivity.
  - reflexivity.
  - reflexivity.
  - reflexivity.
Defined.

Lemma assignDriver_checks_first_witness :
  @assignDriver Reference.platform "v9" (Some "d1") fleet
    = (Throw "Failed to assign driver: Vehicle not found: v9", fleet)
  /\ @assignDriver Reference.platform "v2" (Some "d9") fleet
    = (Throw "Failed to assign driver: Driver not found: d9", fleet)
  /\ @assignDriver Reference.platform "v2" (Some "c1") fleet
    = (Throw "Failed to assign driver: User is not a driver", fleet).
Proof.
  split; [|split].
  - exact (@assignDriver_checks_first Reference.platform "v9" "d1" "a1" fleet
             eq_refl ltac:(discriminate) ltac:(discriminate)).
  - exact (@assignDriver_checks_first Reference.platform "v2" "d9" "a1" fleet
             eq_refl ltac:(discriminate) ltac:(discriminate)).
  - exact (@assignDriver_checks_first Reference.platform "v2" "c1" "a1" fleet
             eq_refl ltac:(discriminate) ltac:(discriminate)).
Defined.

(** C7 as stated fails on three calls the code can receive. An empty
    [driverId] is not [null], no user is stored under it, and yet the call
    completes and writes the vehicle; a signed-out caller gets
    [Not authenticated] and an empty [vehicleId] gets
    [Vehicle ID is required], neither of them a not-found error. *)
Lemma assignDriver_checks_counterexample :
  (users (db fleet) !! "" = None
   /\ fst (@assignDriver Reference.platform "v2" (Some "") fleet) = Ok tt
   /\ vehicles (db (snd (@assignDriver Reference.platform "v2" (Some "") fleet))) !! "v2"
      = Some (put_driverId (Some "") 1700000000000 (car None))
   /\ vehicles (db fleet) !! "v2" = Some (car None))
  /\ (vehicles (db fleet_signed_out) !! "v9" = None
      /\ @assignDriver Reference.platform "v9" (Some "d1") fleet_signed_out
         = (Throw "Not authenticated", fleet_signed_out))
  /\ (vehicles (db fleet) !! "" = None
      /\ @assignDriver Reference.platform "" (Some "d1") fleet
         = (Throw "Vehicle ID is required", fleet)).
Proof. vm_compute. repeat split. Qed.

End AssignmentFacts.

Module BookingFacts.
Import JS Async Store FirebaseUtils AssignmentFacts.
Local Open Scope string_scope.

Section WithPlatform.
Context `{Platform}.

Lemma is_terminal_iff (status : option BookingStatus) :
  is_terminal status = true <-> status = Some completed \/ status = Some cancelled.
Proof.
  destruct status as [[]|]; cbn; split; intros Hs; try reflexivity; try discriminate;
    auto; destruct Hs; discriminate.
Qed.

(** C4. [createBooking] stores the booking under the pushed key with status
    [pending_payment] and payment status [pending], then marks the vehicle
    it names unavailable. [updateBooking] on a stored booking that names a
    vehicle marks that vehicle available when the patch sets the status to
    [completed] or [cancelled], and leaves every vehicle record as it was
    for any other patch. *)
Theorem booking_availability :
  forall (bookingData : BookingData) (w : World)
         (bookingId : string) (updates : BookingPatch) (current : Booking) (w2 : World),
    bookings (db w2) !! bookingId = Some current ->
    b_vehicleId current <> "" ->
    let created := createBooking bookingData w in
    let changed := updateBooking bookingId updates w2 in
    (fst created = Ok (push_key (tick w))
     /\ (exists b, bookings (db (snd created)) !! push_key (tick w) = Some b
                   /\ b_status b = pending_payment
                   /\ b_paymentStatus b = payment_pending
                   /\ b_vehicleId b = d_vehicleId bookingData)
     /\ (exists v, vehicles (db (snd created)) !! d_vehicleId bookingData = Some v
                   /\ v_available v = Some false))
    /\ fst changed = Ok tt
    /\ (p_status updates = Some completed \/ p_status updates = Some cancelled ->
        exists v, vehicles (db (snd changed)) !! b_vehicleId current = Some v
                  /\ v_available v = Some true)
    /\ (p_status updates <> Some completed /\ p_status updates <> Some cancelled ->
        vehicles (db (snd changed)) = vehicles (db w2)).
Proof.
  intros bookingData w bookingId updates current w2 Hcurrent Hvehicle created changed.
  split; [|split; [|split]].
  - subst created. unfold createBooking, markVehicleAsInUse, bind, push, Date_now,
      write, modify, ret. cbn.
    split; [reflexivity|]. split.
    + eexists. split; [apply lookup_insert_eq|]. cbn. auto.
    + eexists. split; [apply lookup_insert_eq|]. reflexivity.
  - subst changed. unfold updateBooking, bind at 1. unfold Date_now at 1.
    unfold bind at 1. unfold get, gets. cbn. rewrite Hcurrent.
    destruct (is_terminal (p_status updates) && truthy (b_vehicleId current)); reflexivity.
  - intros Hterminal. apply is_terminal_iff in Hterminal.
    apply truthy_nonempty in Hvehicle.
    subst changed. unfold updateBooking, bind at 1. unfold Date_now at 1.
    unfold bind at 1. unfold get, gets. cbn. rewrite Hcurrent, Hterminal, Hvehicle. cbn.
    eexists. split; [apply lookup_insert_eq|]. reflexivity.
  - intros [Hc1 Hc2].
    assert (Hterminal : is_terminal (p_status updates) = false).
    { destruct (is_terminal (p_status updates)) eqn:E; [|reflexivity].
      apply is_terminal_iff in E. tauto. }
    subst changed. unfold updateBooking, bind at 1. unfold Date_now at 1.
    unfold bind at 1. unfold get, gets. cbn. rewrite Hcurrent, Hterminal. reflexivity.
Qed.

End WithPlatform.

Import Scenario.

Lemma booking_availability_witness :
  let created := @createBooking Reference.platform trip fleet in
  fst created = Ok "-K0"
  /\ (exists v, vehicles (db (snd created)) !! "v2" = Some v /\ v_available v = Some false)
  /\ (exists v, vehicles (db (snd (@updateBooking Reference.platform "-K0"
                    (set_status completed) (snd created)))) !! "v2" = Some v
                /\ v_available v = Some true)
  /\ vehicles (db (snd (@updateBooking Reference.platform "-K0"
                    (set_status in_progress) (snd created))))
     = vehicles (db (snd created)).
Proof.
  intros created.
  assert (Hstored : exists current,
    bookings (db (snd created)) !! "-K0" = Some current /\ b_vehicleId current = "v2").
  { eexists. split; [vm_compute; reflexivity | reflexivity]. }
  destruct Hstored as (current & Hcurrent & Hv).
  assert (Hne : b_vehicleId current <> "") by (rewrite Hv; discriminate).
  destruct (@booking_availability Reference.platform trip fleet "-K0"
              (set_status completed) current (snd created) Hcurrent Hne)
    as ((Hkey & _ & Hbusy) & _ & Hfree & _).
  destruct (@booking_availability Reference.platform trip fleet "-K0"
              (set_status in_progress) current (snd created) Hcurrent Hne)
    as (_ & _ & _ & Hsame).
  rewrite Hv in Hfree.
  split; [exact Hkey|]. split; [exact Hbusy|]. split.
  - apply Hfree. left. reflexivity.
  - apply Hsame. split; discriminate.
Defined.

End BookingFacts.

Module ThrottleFacts.
Import JS Geo Async Store FirebaseUtils DriverLocationUpdater.
Import TrackingIdentityFacts LocationServiceFacts.
Local Open Scope string_scope.

Section WithPlatform.
Context `{Platform}.

Lemma updateLocation_signed_out (vehicleId : string) (lat lng : float)
    (options : option UpdateOptions) (w : World) :
  currentUser w = None ->
  FirebaseUtils.updateLocation vehicleId lat lng options w = (Throw "Not authenticated", w).
Proof.
  intros Hout. unfold FirebaseUtils.updateLocation, bind at 1. unfold requireAuth at 1.
  now rewrite Hout.
Qed.

Lemma calculateDistance_zero (lat1 lon1 lat2 lon2 : float) :
  PrimFloat.is_zero lat1 || PrimFloat.is_zero lon1
  || PrimFloat.is_zero lat2 || PrimFloat.is_zero lon2 = true ->
  calculateDistance lat1 lon1 lat2 lon2 = infinity.
Proof.
  intros Hz. unfold calculateDistance, truthy_num.
  destruct (PrimFloat.is_zero lat1); [reflexivity|].
  destruct (PrimFloat.is_zero lon1); [cbn; now rewrite orb_true_r|].
  destruct (PrimFloat.is_zero lat2); [cbn; now rewrite !orb_true_r|].
  destruct (PrimFloat.is_zero lon2); [cbn; now rewrite !orb_true_r|].
  discriminate Hz.
Qed.

Lemma updateLocation_dropped (s : Session) (vehicleId : string) (latitude longitude : float)
    (source : Source) (forceUpdate : bool) :
  passes s latitude longitude source forceUpdate = false ->
  updateLocation vehicleId latitude longitude source forceUpdate s = (Ok tt, clock_read s).
Proof.
  unfold passes, updateLocation, try_catch, bind at 1.
  unfold store at 1, zoom, Date_now. cbn [world set_world fst snd].
  unfold bind at 1, gets at 1. cbn [refs set_world world].
  destruct (negb forceUpdate && (Date_clock (tick (world s)) - lastUpdateRef (refs s) <? 5000)%Z).
  - reflexivity.
  - destruct (lastLocationRef (refs s)) as [last|]; [|discriminate].
    destruct (negb forceUpdate); [|discriminate].
    intros Hclose. apply negb_false_iff in Hclose. rewrite Hclose. reflexivity.
Qed.

Lemma updateLocation_admitted (s : Session) (vehicleId : string) (latitude longitude : float)
    (source : Source) (forceUpdate : bool) :
  passes s latitude longitude source forceUpdate = true ->
  let now := Date_clock (tick (world s)) in
  let options :=
    Some {| FirebaseUtils.forceUpdate := Some (forceUpdate || is_ip source);
            previousLocation :=
              option_map (fun data => {| lat := l_lat data; lng := l_lng data |})
                (vehicleLocations (db (world s)) !! vehicleId) |} in
  let call := FirebaseUtils.updateLocation vehicleId latitude longitude options
                (tick_once (world s)) in
  updateLocation vehicleId latitude longitude source forceUpdate s =
    (Ok tt,
     {| refs := refs_after source
                  (match fst call with Ok result => Some (trackingId result) | Throw _ => None end)
                  (admit_reading now latitude longitude (refs s));
        world := snd call; user := user s; effects := effects s |}).
Proof.
  intros Hpass now options call.
  assert (Hcall : (exists tid, fst call = Ok {| updated := true; trackingId := tid |})
                  \/ (exists e, fst call = Throw e)).
  { destruct (currentUser (world s)) as [uid|] eqn:Hu.
    - left.
      destruct (updateLocation_stores vehicleId latitude longitude options
                  (tick_once (world s)) uid Hu) as (tid & _ & Hrun & _).
      eauto.
    - right. subst call. rewrite updateLocation_signed_out by exact Hu. eauto. }
  unfold passes in Hpass. fold now in Hpass.
  unfold updateLocation, try_catch, bind at 1.
  unfold store at 1, zoom, Date_now. cbn [world set_world fst snd].
  unfold bind at 1, gets at 1. cbn [refs set_world world]. fold now.
  destruct (negb forceUpdate && (now - lastUpdateRef (refs s) <? 5000)%Z); [discriminate|].
  assert (Hclose :
    match lastLocationRef (refs s) with
    | Some last =>
        if negb forceUpdate
        then (calculateDistance (lat last) (lng last) latitude longitude <? minDistance source)%float
        else false
    | None => false
    end = false).
  { destruct (lastLocationRef (refs s)); [|reflexivity].
    destruct (negb forceUpdate); [|reflexivity]. now apply negb_true_iff. }
  rewrite Hclose.
  unfold bind at 1, update_refs at 1, modify. cbn [refs set_refs world user effects].
  unfold bind at 1, store at 1, zoom, get, gets. cbn [refs set_refs set_world world user effects fst snd db].
  unfold bind at 1, store at 1, zoom. cbn [refs set_refs set_world world user effects].
  change (db (tick_once (world s))) with (db (world s)).
  fold options. fold call. clearbody call.
  destruct call as [res w2]. cbn [fst snd] in *.
  destruct Hcall as [[tid ->]|[e ->]].
  - cbn [updated trackingId]. unfold refs_after.
    destruct source; reflexivity.
  - reflexivity.
Qed.

Lemma refs_after_last (source : Source) (trackingId : option string) (r : Refs) :
  lastUpdateRef (refs_after source trackingId r) = lastUpdateRef r
  /\ lastLocationRef (refs_after source trackingId r) = lastLocationRef r.
Proof. destruct trackingId, source; split; reflexivity. Qed.

Lemma passes_admitted (s : Session) (vehicleId : string) (latitude longitude : float)
    (source : Source) (forceUpdate : bool) :
  passes s latitude longitude source forceUpdate = true ->
  admitted (Date_clock (tick (world s))) latitude longitude
    (updateLocation vehicleId latitude longitude source forceUpdate s).
Proof.
  intros Hpass. rewrite updateLocation_admitted by exact Hpass.
  unfold admitted. cbn [fst snd refs].
  split; [reflexivity|]. apply refs_after_last.
Qed.

Lemma passes_persisted (s : Session) (vehicleId uid : string) (latitude longitude : float)
    (source : Source) (forceUpdate : bool) :
  passes s latitude longitude source forceUpdate = true ->
  currentUser (world s) = Some uid ->
  persisted vehicleId uid latitude longitude
    (updateLocation vehicleId latitude longitude source forceUpdate s).
Proof.
  intros Hpass Hu. rewrite updateLocation_admitted by exact Hpass.
  unfold persisted. cbn [fst snd world].
  match goal with
  | |- context [FirebaseUtils.updateLocation ?v ?a ?b ?o ?w] =>
      destruct (updateLocation_stores v a b o w uid Hu)
        as (tid & rec & _ & Hstored & Hfields)
  end.
  exists rec. split; [exact Hstored | exact Hfields].
Qed.

(** No threshold is above [Infinity]. *)
Lemma infinity_not_below_any (threshold : float) : (infinity <? threshold)%float = false.
Proof.
  rewrite ltb_spec. unfold SFltb.
  change (Prim2SF infinity) with (S754_infinity false).
  destruct (Prim2SF threshold) as [| [] | | [] ? ?]; reflexivity.
Qed.

(** C10. When one of the four coordinates is [0] (or [-0]),
    [calculateDistance] is [Infinity], which is below no threshold; so a
    reading that is not forced, comes 5 s or more after the last admitted
    one and has a zero coordinate, or follows a position that has one, is
    admitted whatever its source, and stored when the driver is signed in. *)
Theorem zero_coordinate_always_admitted :
  forall (lat1 lon1 lat2 lon2 : float),
    PrimFloat.is_zero lat1 || PrimFloat.is_zero lon1
    || PrimFloat.is_zero lat2 || PrimFloat.is_zero lon2 = true ->
    calculateDistance lat1 lon1 lat2 lon2 = infinity
    /\ (forall threshold, (infinity <? threshold)%float = false)
    /\ (forall (s : Session) (vehicleId : string) (source : Source),
          lastLocationRef (refs s) = Some {| lat := lat1; lng := lon1 |} ->
          (5000 <= Date_clock (tick (world s)) - lastUpdateRef (refs s))%Z ->
          let run := updateLocation vehicleId lat2 lon2 source false s in
          admitted (Date_clock (tick (world s))) lat2 lon2 run
          /\ (forall uid, currentUser (world s) = Some uid ->
                 persisted vehicleId uid lat2 lon2 run)).
Proof.
  intros lat1 lon1 lat2 lon2 Hzero.
  split; [now apply calculateDistance_zero|].
  split; [apply infinity_not_below_any|].
  intros s vehicleId source Hlast Helapsed run.
  assert (Hpass : passes s lat2 lon2 source false = true).
  { unfold passes. rewrite Hlast. cbn [negb andb lat lng].
    replace (Date_clock (tick (world s)) - lastUpdateRef (refs s) <? 5000)%Z with false
      by (symmetry; apply Z.ltb_ge; exact Helapsed).
    now rewrite calculateDistance_zero, infinity_not_below_any. }
  split.
  - now apply passes_admitted.
  - intros uid Hu. now apply passes_persisted.
Qed.

(** C3, as the code has it. In a signed-in session a reading that is not
    forced is dropped when less than 5000 ms have passed since the last
    admitted one, whatever the distance; else it is dropped when a last
    admitted position exists and [calculateDistance] from it (the
    haversine distance over a radius of 6371000 m, or [Infinity] when one
    of the four coordinates is falsy) is below 10 m for [gps] and 100 m
    for [ip]; in every other case, a forced reading among them, it is
    admitted and stored. *)
Theorem throttle_rules :
  forall (s : Session) (vehicleId uid : string) (latitude longitude : float)
         (source : Source) (forceUpdate : bool),
    currentUser (world s) = Some uid ->
    let now := Date_clock (tick (world s)) in
    let elapsed := (now - lastUpdateRef (refs s))%Z in
    let displacement := fun last : Coord =>
      calculateDistance (lat last) (lng last) latitude longitude in
    let run := updateLocation vehicleId latitude longitude source forceUpdate s in
    (forceUpdate = false -> (elapsed < 5000)%Z -> dropped s run)
    /\ (forceUpdate = false -> (5000 <= elapsed)%Z ->
        forall last, lastLocationRef (refs s) = Some last ->
        (displacement last <? minDistance source)%float = true ->
        dropped s run)
    /\ (forceUpdate = true
        \/ ((5000 <= elapsed)%Z
            /\ forall last, lastLocationRef (refs s) = Some last ->
                  (displacement last <? minDistance source)%float = false) ->
        admitted now latitude longitude run
        /\ persisted vehicleId uid latitude longitude run)
    /\ minDistance gps = 10%float /\ minDistance ip = 100%float
    /\ (forall lat1 lon1 lat2 lon2,
          calculateDistance lat1 lon1 lat2 lon2 =
            if truthy_num lat1 && truthy_num lon1 && truthy_num lat2 && truthy_num lon2
            then haversine lat1 lon1 lat2 lon2 else infinity).
Proof.
  intros s vehicleId uid latitude longitude source forceUpdate Hu now elapsed displacement run.
  split; [|split; [|split; [|split; [|split]]]]; try reflexivity.
  - intros -> Hlt. apply updateLocation_dropped. unfold passes. fold now. fold elapsed.
    cbn [negb andb]. now replace (elapsed <? 5000)%Z with true by (symmetry; apply Z.ltb_lt; exact Hlt).
  - intros -> Hge last Hlast Hclose. apply updateLocation_dropped.
    unfold passes. fold now. fold elapsed. cbn [negb andb].
    replace (elapsed <? 5000)%Z with false by (symmetry; apply Z.ltb_ge; exact Hge).
    rewrite Hlast. cbn [negb]. fold (displacement last). now rewrite Hclose.
  - intros Hcase.
    assert (Hpass : passes s latitude longitude source forceUpdate = true).
    { unfold passes. fold now. fold elapsed.
      destruct Hcase as [-> | [Hge Hfar]].
      - cbn [negb andb]. now destruct (lastLocationRef (refs s)).
      - replace (elapsed <? 5000)%Z with false by (symmetry; apply Z.ltb_ge; exact Hge).
        rewrite andb_false_r.
        destruct (lastLocationRef (refs s)) as [last|]; [|reflexivity].
        destruct (negb forceUpdate); [|reflexivity].
        fold (displacement last). now rewrite (Hfar last eq_refl). }
    split; [now apply passes_admitted | now apply passes_persisted].
  - intros lat1 lon1 lat2 lon2. unfold calculateDistance.
    destruct (truthy_num lat1), (truthy_num lon1), (truthy_num lat2), (truthy_num lon2);
      reflexivity.
Qed.

End WithPlatform.

Import Scenario.

Lemma zero_coordinate_always_admitted_witness :
  @calculateDistance Reference.platform 0 77.5946 0.0001 77.5946 = infinity
  /\ admitted 1700000000000 0.0001 77.5946
       (@updateLocation Reference.platform "v1" 0.0001 77.5946 gps false
          (driving (last_seen 6000 0 77.5946))).
Proof.
  destruct (@zero_coordinate_always_admitted Reference.platform 0 77.5946 0.0001 77.5946
              eq_refl) as (Hd & _ & Hrun).
  split; [exact Hd|].
  apply (Hrun (driving (last_seen 6000 0 77.5946)) "v1" gps eq_refl).
  vm_compute. discriminate.
Defined.

(** The readings of the specification's scenario: 6 s after a reading at
    (12.9716, 77.5946), one at (12.9721, 77.5946), about 56 m away. *)
Lemma throttle_rules_witness :
  currentUser (world (driving (last_seen 6000 12.9716 77.5946))) = Some "d2"
  /\ admitted 1700000000000 12.9721 77.5946
       (@updateLocation Reference.platform "v1" 12.9721 77.5946 gps false
          (driving (last_seen 6000 12.9716 77.5946)))
  /\ persisted "v1" "d2" 12.9721 77.5946
       (@updateLocation Reference.platform "v1" 12.9721 77.5946 gps false
          (driving (last_seen 6000 12.9716 77.5946))).
Proof.
  split; [reflexivity|].
  destruct (@throttle_rules Reference.platform (driving (last_seen 6000 12.9716 77.5946))
              "v1" "d2" 12.9721 77.5946 gps false eq_refl) as (_ & _ & Hadmit & _).
  apply Hadmit. right. split.
  - vm_compute. discriminate.
  - intros last [= <-]. vm_compute. reflexivity.
Defined.

(** C3 as stated fails on two sessions. On the equator the haversine
    distance between a position and itself is 0 m, below the 10 m of
    [gps], and the reading is admitted and stored all the same, because
    [calculateDistance] answers [Infinity]. Signed out, a forced reading
    is admitted and nothing is stored. *)
Lemma throttle_rules_counterexample :
  let on_equator := driving (last_seen 6000 0 77.5946) in
  let run := @updateLocation Reference.platform "v1" 0 77.5946 gps false on_equator in
  let signed_out := driving_signed_out (last_seen 6000 12.9716 77.5946) in
  let forced := @updateLocation Reference.platform "v1" 12.9721 77.5946 ip true signed_out in
  ((@haversine Reference.platform 0 77.5946 0 77.5946 <? 10)%float = true
   /\ vehicleLocations (db (world on_equator)) !! "v1" = None
   /\ lastUpdateRef (refs (snd run)) = 1700000000000
   /\ vehicleLocations (db (world (snd run))) !! "v1"
      = Some {| l_vehicleId := "v1"; l_trackingId := "V13707";
                l_lat := 0; l_lng := 77.5946;
                l_timestamp := 1700000002000; l_updatedBy := "d2" |})
  /\ (lastUpdateRef (refs (snd forced)) = 1700000000000
      /\ lastLocationRef (refs (snd forced)) = Some {| lat := 12.9721; lng := 77.5946 |}
      /\ vehicleLocations (db (world (snd forced))) !! "v1" = None).
Proof. vm_compute. repeat split. Qed.

End ThrottleFacts.

Module FallbackFacts.
Import JS Geo Async Store FirebaseUtils DriverLocationUpdater.
Local Open Scope string_scope.

Lemma random_index_below (draw : Z) (n : nat) : (0 < n)%nat -> (random_index draw n < n)%nat.
Proof.
  intros Hn. unfold random_index.
  pose proof (Z.mod_pos_bound draw (2 ^ 53) ltac:(lia)) as Hd.
  assert (Hq : (draw mod 2 ^ 53) * Z.of_nat n / 2 ^ 53 < Z.of_nat n).
  { apply Z.div_lt_upper_bound; [lia|]. nia. }
  assert (0 <= (draw mod 2 ^ 53) * Z.of_nat n / 2 ^ 53) by (apply Z.div_pos; nia).
  lia.
Qed.

Lemma timed_out_unusable `{Platform} (env : IPEnv) (service : string) :
  5000 <= latency (replies env service) -> usable env service = None.
Proof.
  intros Hlate. unfold usable, fetch_with_abort.
  now replace (5000 <=? latency (replies env service))%Z with true
    by (symmetry; apply Z.leb_le; exact Hlate).
Qed.

Section WithPlatform.
Context `{Platform}.

Lemma add_effects_app (log1 log2 : list Effect) (s : Session) :
  add_effects log2 (add_effects log1 s) = add_effects (log1 ++ log2) s.
Proof. unfold add_effects. cbn. now rewrite app_assoc. Qed.

Lemma add_effects_nil (s : Session) : add_effects [] s = s.
Proof. destruct s. unfold add_effects. cbn. now rewrite app_nil_r. Qed.

(** The loop returns the first usable answer and queries, in order, the
    services up to it, each with an abort due after 5000 ms. *)
Lemma try_services_run (env : IPEnv) (pending : list string) (s : Session) :
  try_services env pending s =
    (Ok (fst (first_usable env pending)),
     add_effects (List.map (fun service => Fetch service 5000)
                    (snd (first_usable env pending))) s).
Proof.
  revert s. induction pending as [|service rest IH]; intros s.
  - cbn. now rewrite add_effects_nil.
  - cbn [try_services first_usable]. unfold bind at 1, emit at 1, modify.
    fold (add_effects [Fetch service 5000] s).
    unfold usable.
    destruct (fetch_with_abort env service 5000) as [|[] [[latitude longitude]|]];
      try (rewrite IH, add_effects_app; destruct (first_usable env rest); reflexivity).
    destruct (truthy_field latitude && truthy_field longitude).
    + reflexivity.
    + rewrite IH, add_effects_app. destruct (first_usable env rest). reflexivity.
Qed.


Lemma first_usable_none (env : IPEnv) (pending : list string) :
  (forall service, In service pending -> usable env service = None) ->
  first_usable env pending = (None, pending).
Proof.
  induction pending as [|service rest IH]; intros Hnone; [reflexivity|].
  cbn [first_usable]. rewrite (Hnone service) by (left; reflexivity).
  rewrite IH by (intros x Hx; apply Hnone; right; exact Hx). reflexivity.
Qed.


(** What one call of [getIPLocation] does. *)
Lemma getIPLocation_run (env : IPEnv) (s : Session) :
  getIPLocation env s =
    (Ok (match fst (first_usable env services) with
         | Some location => Some location
         | None => if console_fails env then Some centre_of_India
                   else nth_error indianCities
                          (random_index (draw env) (List.length indianCities))
         end),
     add_effects (List.map (fun service => Fetch service 5000)
                    (snd (first_usable env services))) s).
Proof.
  unfold getIPLocation, try_catch, bind at 1. rewrite try_services_run.
  destruct (fst (first_usable env services)); [reflexivity|].
  unfold bind, console_log. destruct (console_fails env); reflexivity.
Qed.

Lemma random_city (env : IPEnv) :
  exists city,
    nth_error indianCities (random_index (draw env) (List.length indianCities)) = Some city.
Proof.
  destruct (nth_error indianCities (random_index (draw env) (List.length indianCities)))
    as [city|] eqn:Hn; [eauto|].
  apply nth_error_None in Hn.
  pose proof (random_index_below (draw env) (List.length indianCities) ltac:(cbn; lia)).
  lia.
Qed.

Lemma getIPLocation_returns (env : IPEnv) (s : Session) :
  exists location, fst (getIPLocation env s) = Ok (Some location).
Proof.
  rewrite getIPLocation_run. cbn [fst].
  destruct (fst (first_usable env services)) as [found|]; [eauto|].
  destruct (console_fails env); [eauto|].
  destruct (random_city env) as [city ->]. eauto.
Qed.


End WithPlatform.
End FallbackFacts.

Module AcquisitionFacts.
Import JS Geo Async Store FirebaseUtils DriverLocationUpdater.
Import ThrottleFacts FallbackFacts.
Local Open Scope string_scope.

Lemma attempts_app (log1 log2 : list Effect) :
  attempts (log1 ++ log2) = (attempts log1 + attempts log2)%nat.
Proof. unfold attempts. now rewrite List.filter_app, List.length_app. Qed.

Lemma attempts_fetches (l : list string) :
  attempts (List.map (fun service => Fetch service 5000) l) = 0%nat.
Proof. induction l as [|x l IH]; [reflexivity | exact IH]. Qed.

Lemma within_ret {A} (a : A) : within 0 (ret a).
Proof. intros s. exists a, s. split; [reflexivity | lia]. Qed.

Lemma within_bind {A B} (n k : nat) (m : M Session A) (f : A -> M Session B) :
  within n m -> (forall a, within k (f a)) -> within (n + k) (bind m f).
Proof.
  intros Hm Hf s. destruct (Hm s) as (a & s1 & Hrun & Hle).
  destruct (Hf a s1) as (b & s2 & Hrun2 & Hle2).
  exists b, s2. unfold bind. rewrite Hrun. split; [exact Hrun2 | lia].
Qed.

Lemma within_weaken {A} (n k : nat) (m : M Session A) :
  (n <= k)%nat -> within n m -> within k m.
Proof.
  intros Hnk Hm s. destruct (Hm s) as (a & s' & Hrun & Hle).
  exists a, s'. split; [exact Hrun | lia].
Qed.

Lemma within_update_refs (f : Refs -> Refs) : within 0 (update_refs f).
Proof. intros s. eexists _, _. split; [reflexivity|]. cbn -[attempts]. lia. Qed.

Lemma within_emit (e : Effect) : within (if is_attempt e then 1 else 0) (emit e).
Proof.
  intros s. eexists _, _. split; [reflexivity|]. cbn [effects].
  rewrite attempts_app. unfold attempts at 2. cbn. destruct (is_attempt e); cbn; lia.
Qed.

Section WithPlatform.
Context `{Platform}.

Lemma within_updateLocation (vehicleId : string) (latitude longitude : float)
    (source : Source) (forceUpdate : bool) :
  within 0 (updateLocation vehicleId latitude longitude source forceUpdate).
Proof.
  intros s. destruct (passes s latitude longitude source forceUpdate) eqn:Hp.
  - rewrite updateLocation_admitted by exact Hp. eexists _, _.
    split; [reflexivity|]. cbn -[attempts]. lia.
  - rewrite updateLocation_dropped by exact Hp. eexists _, _.
    split; [reflexivity|]. cbn -[attempts]. lia.
Qed.

Lemma within_getIPLocation (env : IPEnv) : within 0 (getIPLocation env).
Proof.
  intros s. rewrite getIPLocation_run. eexists _, _. split; [reflexivity|].
  cbn [effects add_effects]. rewrite attempts_app, attempts_fetches. lia.
Qed.

Lemma getAssignedVehicle_cached (s : Session) :
  vehicleIdRef (refs s) <> "" ->
  getAssignedVehicle s = (Ok (Some (vehicleIdRef (refs s))), s).
Proof.
  intros Hne. apply AssignmentFacts.truthy_nonempty in Hne.
  unfold getAssignedVehicle, try_catch, bind at 1. unfold gets at 1. now rewrite Hne.
Qed.

Lemma within_getAssignedVehicle : within 0 getAssignedVehicle.
Proof.
  intros s. unfold getAssignedVehicle, try_catch, bind at 1. unfold gets at 1.
  destruct (truthy (vehicleIdRef (refs s))).
  - eexists _, _. split; [reflexivity | lia].
  - unfold bind at 1, gets at 1.
    destruct (negb (truthy
      match user s with
      | Some u => match or_null (su_assignedVehicleId u) with Some v => v | None => "" end
      | None => ""
      end)).
    + unfold bind, store, zoom, getVehiclesByDriver, gets.
      match goal with |- context [List.map fst ?l] => destruct (List.map fst l) end;
        eexists _, _; (split; [reflexivity | cbn -[attempts]; lia]).
    + eexists _, _. split; [reflexivity | cbn -[attempts]; lia].
Qed.

Lemma within_handleGeolocationSuccess (position : Position) (source : Origin) :
  within 0 (handleGeolocationSuccess position source).
Proof.
  unfold handleGeolocationSuccess.
  apply (within_bind 0 0); [apply within_getAssignedVehicle|].
  intros [vehicleId|]; [|apply within_ret].
  destruct ((100 <? accuracy position)%float && _);
    [apply within_ret | apply within_updateLocation].
Qed.

Lemma within_ip_fallback (env : IPEnv) (vehicleId : option string) :
  within 0 (ip_fallback env vehicleId).
Proof.
  destruct vehicleId as [vehicleId|]; [|apply within_ret].
  apply (within_bind 0 0); [apply within_getIPLocation|].
  intros [location|]; [apply within_updateLocation | apply within_ret].
Qed.

(** A call with [retryCount] makes at most [3 - retryCount] requests,
    its own and those of the retries it starts. *)
Lemma within_tryGPSLocation (env : IPEnv) (outcomes : list Outcome) :
  forall retryCount, within (3 - retryCount) (tryGPSLocation env outcomes retryCount).
Proof.
  induction outcomes as [|outcome rest IH]; intros retryCount;
    cbn [tryGPSLocation]; destruct (3 <=? retryCount)%nat eqn:Hrc.
  - apply (within_weaken 0); [lia|].
    apply (within_bind 0 0); [apply within_update_refs|]. intros _.
    apply (within_bind 0 0); [apply within_update_refs|]. intros _. apply within_ret.
  - apply Nat.leb_gt in Hrc. apply (within_weaken (1 + 0)); [lia|].
    apply within_bind; [apply (within_emit (GetCurrentPosition _ _))|]. intros _.
    apply within_ret.
  - apply (within_weaken 0); [lia|].
    apply (within_bind 0 0); [apply within_update_refs|]. intros _.
    apply (within_bind 0 0); [apply within_update_refs|]. intros _. apply within_ret.
  - apply Nat.leb_gt in Hrc. apply (within_weaken (1 + (3 - (retryCount + 1)))); [lia|].
    apply within_bind; [apply (within_emit (GetCurrentPosition _ _))|]. intros _.
    destruct outcome as [position|error|].
    + apply (within_weaken 0); [lia|].
      apply (within_bind 0 0); [apply within_handleGeolocationSuccess|]. intros _.
      apply (within_bind 0 0); [apply within_update_refs|]. intros _. apply within_ret.
    + replace (3 - (retryCount + 1))%nat with ((3 - (retryCount + 1)) + 0)%nat by lia.
      apply within_bind; [|intros _; apply within_ret].
      unfold handleGeolocationError.
      replace (3 - (retryCount + 1))%nat with (0 + (3 - (retryCount + 1)))%nat by lia.
      apply within_bind; [apply within_getAssignedVehicle|]. intros vehicleId.
      destruct error.
      * apply (within_weaken 0); [lia|].
        apply (within_bind 0 0); [apply within_update_refs|]. intros _.
        apply (within_bind 0 0); [apply within_update_refs|]. intros _.
        apply within_ip_fallback.
      * apply (within_weaken 0); [lia|].
        apply (within_bind 0 0); [apply within_update_refs|]. intros _.
        apply (within_bind 0 0); [apply within_update_refs|]. intros _.
        apply within_ip_fallback.
      * replace (3 - (retryCount + 1))%nat with (0 + (3 - (retryCount + 1)))%nat by lia.
        apply within_bind; [apply within_update_refs|]. intros _.
        destruct (retryCount <? 2)%nat.
        -- replace (3 - (retryCount + 1))%nat with (0 + (3 - (retryCount + 1)))%nat by lia.
           apply within_bind; [apply (within_emit (SetTimeout _ _))|]. intros _.
           replace (3 - (retryCount + 1))%nat with ((3 - (retryCount + 1)) + 0)%nat by lia.
           apply within_bind; [apply IH|]. intros _. apply within_ret.
        -- apply (within_weaken 0); [lia|].
           apply (within_bind 0 0); [apply within_update_refs|]. intros _.
           apply within_ip_fallback.
    + apply (within_weaken 0); [lia|]. apply within_ret.
Qed.

Lemma tryGPSLocation_timeout_retry (env : IPEnv) (rest : list Outcome)
    (retryCount : nat) (s : Session) :
  vehicleIdRef (refs s) <> "" ->
  (retryCount < 2)%nat ->
  tryGPSLocation env (Failed TIMEOUT :: rest) retryCount s =
    (Ok false, snd (tryGPSLocation env rest (retryCount + 1) (after_timeout retryCount s))).
Proof.
  intros Hcached Hrc. cbn [tryGPSLocation].
  replace (3 <=? retryCount)%nat with false by (symmetry; apply Nat.leb_gt; lia).
  unfold bind at 1, emit at 1, modify.
  unfold bind at 1, handleGeolocationError, bind at 1.
  rewrite getAssignedVehicle_cached by exact Hcached.
  unfold bind at 1, update_refs at 1, modify.
  replace (retryCount <? 2)%nat with true by (symmetry; apply Nat.ltb_lt; lia).
  unfold bind at 1, emit at 1, modify.
  cbn [refs world user effects set_refs].
  rewrite <- app_assoc. cbn [app].
  change {| refs := setGpsStatus timeout (refs s); world := world s; user := user s;
            effects := effects s ++
              [GetCurrentPosition retryCount (attempt_options retryCount);
               SetTimeout (2000 * (Z.of_nat retryCount + 1)) (retryCount + 1)] |}
    with (after_timeout retryCount s).
  destruct (within_tryGPSLocation env rest (retryCount + 1) (after_timeout retryCount s))
    as (b & s' & Hrun & _).
  unfold bind. rewrite Hrun. reflexivity.
Qed.

Lemma tryGPSLocation_last_timeout (env : IPEnv) (rest : list Outcome) (s : Session) :
  vehicleIdRef (refs s) <> "" ->
  tryGPSLocation env (Failed TIMEOUT :: rest) 2 s =
    (Ok false,
     snd (ip_fallback env (Some (vehicleIdRef (refs s))) (after_last_timeout s))).
Proof.
  intros Hcached. cbn [tryGPSLocation Nat.leb Nat.ltb].
  unfold bind at 1, emit at 1, modify.
  unfold bind at 1, handleGeolocationError, bind at 1.
  rewrite getAssignedVehicle_cached by exact Hcached.
  unfold bind at 1, update_refs at 1, modify.
  change (2 <? 2)%nat with false. cbv iota.
  unfold bind at 1, update_refs at 1, modify.
  match goal with
  | |- context [ip_fallback env ?v ?x] =>
      change x with (after_last_timeout s);
      change v with (Some (vehicleIdRef (refs s)))
  end.
  destruct (within_ip_fallback env (Some (vehicleIdRef (refs s))) (after_last_timeout s))
    as ([] & s' & Hrun & _).
  rewrite Hrun. reflexivity.
Qed.

Lemma refs_after_fallback (trackingId : option string) (r : Refs) :
  useFallbackLocation (refs_after ip trackingId r) = useFallbackLocation r.
Proof. destruct trackingId; reflexivity. Qed.

(** C8. A round started by [tryGPSLocation(0)] makes at most three one-shot
    requests. With the vehicle resolved: a [TIMEOUT] on an attempt that is
    not the third sets the status [timeout] and starts, after
    2000 ms x the attempt number, the next attempt; the first attempt asks for
    high accuracy and no cached position, the later ones for no high
    accuracy and positions up to 30000 ms old; a [TIMEOUT] on the third
    attempt starts no further request, turns the fallback on and has the
    location of [getIPLocation] admitted as a forced [ip] reading, which
    is stored when the driver is signed in. *)
Theorem gps_retry_policy :
  forall (env : IPEnv) (s : Session),
    vehicleIdRef (refs s) <> "" ->
    (forall (outcomes : list Outcome) (s0 : Session),
       let round := tryGPSLocation env outcomes 0 s0 in
       (exists resolved, fst round = Ok resolved)
       /\ (attempts (effects (snd round)) <= attempts (effects s0) + 3)%nat)
    /\ (forall (rest : list Outcome) (retryCount : nat),
          (retryCount + 1 < 3)%nat ->
          tryGPSLocation env (Failed TIMEOUT :: rest) retryCount s =
            (Ok false,
             snd (tryGPSLocation env rest (retryCount + 1) (after_timeout retryCount s))))
    /\ attempt_options 0 =
         {| enableHighAccuracy := true; timeout_ms := 15000; maximumAge := 0 |}
    /\ (forall n, attempt_options (S n) =
           {| enableHighAccuracy := false; timeout_ms := 15000; maximumAge := 30000 |})
    /\ (forall rest : list Outcome,
          let round := tryGPSLocation env (Failed TIMEOUT :: rest) 2 s in
          exists location s1,
            getIPLocation env (after_last_timeout s) = (Ok (Some location), s1)
            /\ let forced := updateLocation (vehicleIdRef (refs s))
                               (lat location) (lng location) ip true s1 in
               round = (Ok false, snd forced)
               /\ admitted (Date_clock (tick (world s))) (lat location) (lng location) forced
               /\ useFallbackLocation (refs (snd round)) = true
               /\ attempts (effects (snd round)) = (attempts (effects s) + 1)%nat
               /\ (forall uid, currentUser (world s) = Some uid ->
                     persisted (vehicleIdRef (refs s)) uid
                       (lat location) (lng location) forced)).
Proof.
  intros env s Hcached.
  split; [|split; [|split; [reflexivity|split; [reflexivity|]]]].
  - intros outcomes s0 round.
    destruct (within_tryGPSLocation env outcomes 0 s0) as (b & s' & Hrun & Hle).
    subst round. rewrite Hrun. cbn [fst snd]. split; [eauto | exact Hle].
  - intros rest retryCount Hrc. apply tryGPSLocation_timeout_retry; [exact Hcached | lia].
  - intros rest round.
    destruct (getIPLocation_returns env (after_last_timeout s)) as (location & Hloc).
    pose proof (getIPLocation_run env (after_last_timeout s)) as Hrun.
    destruct (getIPLocation env (after_last_timeout s)) as [r s1] eqn:Hip.
    cbn [fst] in Hloc. subst r.
    exists location, s1. split; [reflexivity|]. intros forced.
    assert (Hs1 : s1 = add_effects
      (List.map (fun service => Fetch service 5000) (snd (first_usable env services)))
      (after_last_timeout s)) by congruence.
    assert (Hround : round = (Ok false, snd forced)).
    { subst round. rewrite tryGPSLocation_last_timeout by exact Hcached.
      unfold ip_fallback, bind. rewrite Hip. reflexivity. }
    assert (Hpass : passes s1 (lat location) (lng location) ip true = true).
    { unfold passes. cbn [negb andb]. now destruct (lastLocationRef (refs s1)). }
    assert (Hworld : world s1 = world s) by (rewrite Hs1; reflexivity).
    split; [exact Hround|]. split; [|split; [|split]].
    + rewrite <- Hworld. now apply passes_admitted.
    + rewrite Hround. cbn [snd]. subst forced.
      rewrite updateLocation_admitted by exact Hpass. cbn [refs snd].
      rewrite refs_after_fallback, Hs1. reflexivity.
    + rewrite Hround. cbn [snd]. subst forced.
      rewrite updateLocation_admitted by exact Hpass. cbn [effects snd].
      rewrite Hs1. cbn [effects add_effects after_last_timeout set_refs].
      rewrite !attempts_app, attempts_fetches. cbn. lia.
    + intros uid Hu. apply passes_persisted; [exact Hpass | now rewrite Hworld].
Qed.

End WithPlatform.

Import Scenario.

(** Three timeouts in a row while no IP service answers: three requests,
    two timers of 2 s and 4 s, the three services queried, and the city
    drawn becomes the vehicle's location. *)
Lemma gps_retry_policy_witness :
  let round := @tryGPSLocation Reference.platform offline
                 [Failed TIMEOUT; Failed TIMEOUT; Failed TIMEOUT] 0 (driving first_reading) in
  vehicleIdRef (refs (driving first_reading)) <> ""
  /\ (attempts (effects (snd round)) <= 3)%nat
  /\ effects (snd round) =
       [ GetCurrentPosition 0 {| enableHighAccuracy := true; timeout_ms := 15000; maximumAge := 0 |};
         SetTimeout 2000 1;
         GetCurrentPosition 1 {| enableHighAccuracy := false; timeout_ms := 15000; maximumAge := 30000 |};
         SetTimeout 4000 2;
         GetCurrentPosition 2 {| enableHighAccuracy := false; timeout_ms := 15000; maximumAge := 30000 |};
         Fetch "https://ipapi.co/json/" 5000;
         Fetch "https://ipinfo.io/json/" 5000;
         Fetch "https://geolocation-db.com/json/" 5000 ]
  /\ useFallbackLocation (refs (snd round)) = true
  /\ lastLocationRef (refs (snd round)) = Some {| lat := 12.9716; lng := 77.5946 |}.
Proof.
  intros round.
  assert (Hcached : vehicleIdRef (refs (driving first_reading)) <> "") by discriminate.
  destruct (@gps_retry_policy Reference.platform offline (driving first_reading) Hcached)
    as (Hbound & _).
  split; [exact Hcached|]. split; [exact (proj2 (Hbound _ (driving first_reading)))|].
  vm_compute. repeat split.
Defined.

End AcquisitionFacts.

(* ===================================================================== *)
(** * The code at work on the scenarios of the specification *)
(* ===================================================================== *)

Module Examples.
Import JS Geo Async Store TrackingCode FirebaseUtils DriverLocationUpdater Scenario.

Example tracking_code_v1 : generateConsistentTrackingId "v1" = "V13707".
Proof. reflexivity. Qed.

Example tracking_code_push_key : generateConsistentTrackingId "-NxK3abc_9zQ" = "NXK36324".
Proof. vm_compute. reflexivity. Qed.

(** (12.9716, 77.5946) and (12.9721, 77.5946) are between 55 m and 56 m apart. *)
Example distance_of_the_scenario :
  let d := @calculateDistance Reference.platform 12.9716 77.5946 12.9721 77.5946 in
  ((55 <? d) && (d <? 56))%float = true.
Proof. vm_compute. reflexivity. Qed.

(** Readings at 0, 1000, 4000 and 6000 ms, each some 56 m north of the one
    before: the first and the last are admitted. *)
Example time_gate :
  let at_0 := @updateLocation Reference.platform "v1" 12.9716 77.5946 gps false
                (driving first_reading) in
  let later (ago : Z) (latitude : float) :=
    @updateLocation Reference.platform "v1" latitude 77.5946 gps false
      (driving (last_seen ago 12.9716 77.5946)) in
  lastLocationRef (refs (snd at_0)) = Some {| lat := 12.9716; lng := 77.5946 |}
  /\ refs (snd (later 1000%Z 12.9721%float)) = last_seen 1000%Z 12.9716 77.5946
  /\ refs (snd (later 4000%Z 12.9726%float)) = last_seen 4000%Z 12.9716 77.5946
  /\ lastLocationRef (refs (snd (later 6000%Z 12.9731%float)))
     = Some {| lat := 12.9731; lng := 77.5946 |}.
Proof. vm_compute. repeat split. Qed.

(** Six seconds after the last reading: 3 m further north is dropped and
    about 15 m is admitted for [gps]; about 56 m is dropped for [ip]. *)
Example distance_gate :
  let next (latitude : float) (source : Source) :=
    @updateLocation Reference.platform "v1" latitude 77.5946 source false
      (driving (last_seen 6000%Z 12.9716 77.5946)) in
  refs (snd (next 12.971627%float gps)) = last_seen 6000%Z 12.9716 77.5946
  /\ lastLocationRef (refs (snd (next 12.971735%float gps)))
     = Some {| lat := 12.971735; lng := 77.5946 |}
  /\ refs (snd (next 12.9721%float ip)) = last_seen 6000%Z 12.9716 77.5946.
Proof. vm_compute. repeat split. Qed.

(** No service answers and the draw falls on the third city. *)
Example fallback_offline :
  fst (@getIPLocation Reference.platform offline (driving first_reading))
  = Ok (Some {| lat := 12.9716; lng := 77.5946 |}).
Proof. vm_compute. reflexivity. Qed.

(** The first service has no coordinates, the second one answers. *)
Example fallback_second_service :
  @getIPLocation Reference.platform second_answers (driving first_reading)
  = (Ok (Some {| lat := 19.076; lng := 72.8777 |}),
     add_effects [ Fetch "https://ipapi.co/json/" 5000%Z;
                   Fetch "https://ipinfo.io/json/" 5000%Z ] (driving first_reading)).
Proof. vm_compute. reflexivity. Qed.

(** A denied permission: one request, no retry, the IP location stored. *)
Example permission_denied :
  let round := @tryGPSLocation Reference.platform second_answers
                 [Failed PERMISSION_DENIED] 0 (driving first_reading) in
  attempts (effects (snd round)) = 1%nat
  /\ gpsStatus (refs (snd round)) = denied
  /\ option_map l_lat (vehicleLocations (db (world (snd round))) !! "v1") = Some 19.076%float.
Proof. vm_compute. repeat split. Qed.

End Examples.

(* ===================================================================== *)
(** * Further properties: the tracking code and the short identifier *)
(* ===================================================================== *)

Module TrackingCodeMore.
Import JS TrackingCode TrackingAlphabet TrackingCodeFacts.

Lemma chars_app (s1 s2 : string) : chars (s1 ++ s2)%string = (chars s1 ++ chars s2)%list.
Proof.
  unfold chars. induction s1 as [|c s1 IH]; [reflexivity|].
  change (c :: list_ascii_of_string (s1 ++ s2)%string
          = c :: (list_ascii_of_string s1 ++ list_ascii_of_string s2)%list).
  now f_equal.
Qed.

Lemma of_chars_of_string (s : string) : of_chars (chars s) = s.
Proof. apply string_of_list_ascii_of_string. Qed.

Lemma length_chars (s : string) : List.length (chars s) = String.length s.
Proof. rewrite <- (of_chars_of_string s) at 2. now rewrite length_of_chars. Qed.

Lemma of_chars_app (l1 l2 : list ascii) :
  of_chars (l1 ++ l2) = (of_chars l1 ++ of_chars l2)%string.
Proof.
  unfold of_chars. induction l1 as [|c l1 IH]; [reflexivity|].
  change (String c (string_of_list_ascii (l1 ++ l2))
          = String c (string_of_list_ascii l1 ++ string_of_list_ascii l2)%string).
  now f_equal.
Qed.

Lemma upper_alnum_is_code_char (c : ascii) :
  is_alnum c = true -> is_code_char (upper c) = true.
Proof.
  destruct c as [[] [] [] [] [] [] [] []]; intros Hc; try reflexivity; discriminate Hc.
Qed.

Lemma digit_is_code_char (d : Z) : 0 <= d < 10 -> is_code_char (digit d) = true.
Proof.
  intros Hd.
  assert (Hcases : d = 0 \/ d = 1 \/ d = 2 \/ d = 3 \/ d = 4 \/ d = 5 \/ d = 6 \/ d = 7
                   \/ d = 8 \/ d = 9) by lia.
  repeat (destruct Hcases as [-> | Hcases]; [reflexivity|]). now subst.
Qed.

Lemma four_digits_code_chars (n : Z) :
  0 <= n < 10000 -> Forall (fun c => is_code_char c = true) (chars (four_digits n)).
Proof.
  intros Hn. unfold four_digits. rewrite chars_of_chars.
  repeat constructor; apply digit_is_code_char.
  - split; [apply Z.div_pos; lia | apply Z.div_lt_upper_bound; lia].
  - apply Z.mod_pos_bound. lia.
  - apply Z.mod_pos_bound. lia.
  - apply Z.mod_pos_bound. lia.
Qed.

Lemma prefix4_code_chars (vehicleId : string) :
  Forall (fun c => is_code_char c = true) (chars (prefix4 vehicleId)).
Proof.
  unfold prefix4. rewrite chars_of_chars. apply List.Forall_forall.
  intros c Hc. apply List.in_map_iff in Hc as (c0 & <- & Hc0).
  apply upper_alnum_is_code_char.
  assert (Hin : In c0 (List.filter is_alnum (chars vehicleId))).
  { rewrite <- (firstn_skipn 4 (List.filter is_alnum (chars vehicleId))).
    apply in_or_app. now left. }
  now apply List.filter_In in Hin.
Qed.

Lemma generateConsistentTrackingId_split (vehicleId : string) :
  generateConsistentTrackingId vehicleId
    = (prefix4 vehicleId
       ++ four_digits (abs_rem (rolling_hash vehicleId) 10000))%string.
Proof.
  unfold generateConsistentTrackingId, uniqueDigits.
  rewrite shortId_prefix4, hash_loop_rolling.
  now rewrite padStart_four_digits by apply abs_rem_range.
Qed.

(** X1. The tracking code is made of uppercase letters and digits only, and
    its length is 4 plus the number of alphanumeric characters of the
    identifier, counted up to 4: from 4 characters (an identifier with no
    letter or digit) to 8. *)
Theorem tracking_code_alphabet :
  forall vehicleId : string,
    let code := generateConsistentTrackingId vehicleId in
    Forall (fun c => is_code_char c = true) (chars code)
    /\ String.length code
       = (Nat.min 4 (List.length (List.filter is_alnum (chars vehicleId))) + 4)%nat
    /\ (4 <= String.length code <= 8)%nat.
Proof.
  intros vehicleId code. subst code. rewrite generateConsistentTrackingId_split.
  assert (Hlen : String.length
            (prefix4 vehicleId ++ four_digits (abs_rem (rolling_hash vehicleId) 10000))
          = (Nat.min 4 (List.length (List.filter is_alnum (chars vehicleId))) + 4)%nat).
  { rewrite <- length_chars, chars_app, List.length_app, !length_chars.
    unfold prefix4, four_digits. rewrite !length_of_chars, List.length_map, List.length_firstn.
    reflexivity. }
  split; [|split; [exact Hlen | rewrite Hlen; lia]].
  rewrite chars_app. apply List.Forall_app. split.
  - apply prefix4_code_chars.
  - apply four_digits_code_chars, abs_rem_range.
Qed.

(** X2. [generateShortId] returns the end of the identifier: the identifier
    is some prefix followed by the short identifier, whose length is 6, or
    the length of the identifier when that is less (an identifier of at
    most 6 characters is returned whole). *)
Theorem generateShortId_suffix :
  forall fullId : string,
    (exists front, fullId = (front ++ generateShortId fullId)%string)
    /\ String.length (generateShortId fullId) = Nat.min 6 (String.length fullId)
    /\ ((String.length fullId <= 6)%nat -> generateShortId fullId = fullId).
Proof.
  intros fullId. unfold generateShortId.
  set (cs := chars fullId). set (k := (List.length cs - 6)%nat).
  assert (Hsplit : fullId = (of_chars (firstn k cs) ++ of_chars (skipn k cs))%string).
  { rewrite <- (of_chars_of_string fullId) at 1. fold cs.
    rewrite <- (firstn_skipn k cs) at 1. apply of_chars_app. }
  split; [eauto|]. split.
  - rewrite length_of_chars, List.length_skipn. subst k cs. rewrite length_chars. lia.
  - intros Hshort. subst k cs. rewrite length_chars.
    replace (String.length fullId - 6)%nat with 0%nat by lia.
    cbn [skipn]. apply of_chars_of_string.
Qed.

End TrackingCodeMore.

(* ===================================================================== *)
(** * Further properties: tracking identities and locations *)
(* ===================================================================== *)

Module TrackingMore.
Import JS Geo Async Store TrackingCode FirebaseUtils StoreQueries.
Import TrackingIdentityFacts LocationServiceFacts.
Local Open Scope string_scope.

Section WithPlatform.
Context `{Platform}.

(** Signed in, the identifier a call resolves is the one stored after it. *)
Lemma getOrCreateTrackingId_stored (vehicleId uid : string) (w : World) :
  currentUser w = Some uid ->
  exists tid data,
    fst (getOrCreateTrackingId vehicleId w) = Ok tid
    /\ vehicleTrackingIds (db (snd (getOrCreateTrackingId vehicleId w))) !! vehicleId
       = Some data
    /\ t_trackingId data = tid
    /\ currentUser (snd (getOrCreateTrackingId vehicleId w)) = Some uid.
Proof.
  intros Hu. rewrite getOrCreateTrackingId_run.
  destruct (vehicleTrackingIds (db w) !! vehicleId) as [data|] eqn:E.
  - exists (t_trackingId data), data. cbn. auto.
  - rewrite Hu. eexists _, _. cbn. split; [reflexivity|].
    split; [apply lookup_insert_eq|]. cbn. auto.
Qed.

Lemma updateLocation_keeps_tracking (vehicleId uid : string) (lat lng : float)
    (options : option UpdateOptions) (w : World) :
  currentUser w = Some uid ->
  exists tid data,
    fst (updateLocation vehicleId lat lng options w)
      = Ok {| updated := true; trackingId := tid |}
    /\ vehicleTrackingIds (db (snd (updateLocation vehicleId lat lng options w))) !! vehicleId
       = Some data
    /\ t_trackingId data = tid
    /\ vehicleTrackingIds (db (snd (updateLocation vehicleId lat lng options w)))
       = vehicleTrackingIds (db (snd (getOrCreateTrackingId vehicleId w)))
    /\ (exists rec,
          vehicleLocations (db (snd (updateLocation vehicleId lat lng options w))) !! vehicleId
            = Some rec
          /\ l_trackingId rec = tid /\ l_lat rec = lat /\ l_lng rec = lng)
    /\ currentUser (snd (updateLocation vehicleId lat lng options w)) = Some uid.
Proof.
  intros Hu.
  destruct (updateLocation_run vehicleId lat lng options w uid Hu) as (tid & Htid & Hrun).
  destruct (getOrCreateTrackingId_stored vehicleId uid w Hu)
    as (tid' & data & Htid' & Hdata & Hdt & Hu1).
  rewrite Htid in Htid'. injection Htid' as <-.
  exists tid, data. rewrite Hrun. cbn [fst snd].
  split; [reflexivity|]. split; [exact Hdata|]. split; [exact Hdt|].
  split; [reflexivity|]. split; [|exact Hu1].
  eexists. split; [apply lookup_insert_eq|]. cbn. auto.
Qed.

(** X3. Signed in, two location updates of a vehicle (of a non-empty
    identifier) in a row, whatever their coordinates and options, return
    and store the same tracking identifier, the one [getTrackingId] finds
    afterwards; the second update writes no tracking record, and the
    location kept is the second one. *)
Theorem trackingId_stable_across_updates :
  forall (vehicleId uid : string) (lat1 lng1 lat2 lng2 : float)
         (options1 options2 : option UpdateOptions) (w : World),
    vehicleId <> "" ->
    currentUser w = Some uid ->
    let first := updateLocation vehicleId lat1 lng1 options1 w in
    let second := updateLocation vehicleId lat2 lng2 options2 (snd first) in
    exists tid,
      fst first = Ok {| updated := true; trackingId := tid |}
      /\ fst second = Ok {| updated := true; trackingId := tid |}
      /\ vehicleTrackingIds (db (snd second)) = vehicleTrackingIds (db (snd first))
      /\ fst (getTrackingId vehicleId (snd second)) = Ok (Some tid)
      /\ (exists rec, fst (getLocation vehicleId (snd second)) = Ok (Some rec)
                      /\ l_trackingId rec = tid /\ l_lat rec = lat2 /\ l_lng rec = lng2).
Proof.
  intros vehicleId uid lat1 lng1 lat2 lng2 options1 options2 w _ Hu first second.
  destruct (updateLocation_keeps_tracking vehicleId uid lat1 lng1 options1 w Hu)
    as (tid & data & Hfirst & Hdata & Hdt & _ & _ & Hu1).
  fold first in Hfirst, Hdata, Hu1.
  destruct (updateLocation_keeps_tracking vehicleId uid lat2 lng2 options2 (snd first) Hu1)
    as (tid2 & data2 & Hsecond & Hdata2 & Hdt2 & Hsame & Hrec & _).
  fold second in Hsecond, Hdata2, Hsame, Hrec.
  assert (Hkept : snd (getOrCreateTrackingId vehicleId (snd first)) = snd first).
  { rewrite getOrCreateTrackingId_run, Hdata. reflexivity. }
  rewrite Hkept in Hsame.
  assert (tid2 = tid) as ->.
  { rewrite Hsame, Hdata in Hdata2. injection Hdata2 as <-. congruence. }
  exists tid. split; [exact Hfirst|]. split; [exact Hsecond|]. split; [exact Hsame|]. split.
  - unfold getTrackingId, bind, get, gets, ret. cbn. rewrite Hdata2. cbn. now rewrite Hdt2.
  - destruct Hrec as (rec & Hrec & Hfields). exists rec.
    unfold getLocation, get, gets. cbn. now rewrite Hrec.
Qed.

(** X4. [getOrCreateTrackingId] of a non-empty identifier never throws. With
    no record for the vehicle and nobody signed in it answers the derived
    code and leaves the database as it is; a call made once a user has
    signed in answers the same code and stores it. *)
Theorem getOrCreateTrackingId_unpersisted :
  forall (vehicleId uid : string) (w : World),
    vehicleId <> "" ->
    vehicleTrackingIds (db w) !! vehicleId = None ->
    currentUser w = None ->
    let signed_out := getOrCreateTrackingId vehicleId w in
    let later := getOrCreateTrackingId vehicleId
      {| db := db (snd signed_out); currentUser := Some uid; tick := tick (snd signed_out) |} in
    (forall w0 : World, exists tid, fst (getOrCreateTrackingId vehicleId w0) = Ok tid)
    /\ fst signed_out = Ok (generateConsistentTrackingId vehicleId)
    /\ db (snd signed_out) = db w
    /\ fst later = Ok (generateConsistentTrackingId vehicleId)
    /\ option_map t_trackingId (vehicleTrackingIds (db (snd later)) !! vehicleId)
       = Some (generateConsistentTrackingId vehicleId).
Proof.
  intros vehicleId uid w _ Hnone Hout signed_out later.
  split; [intros w0; apply getOrCreateTrackingId_returns|].
  subst later signed_out. rewrite !getOrCreateTrackingId_run. rewrite Hnone, Hout.
  cbn. rewrite Hnone. cbn. rewrite lookup_insert_eq. cbn. auto.
Qed.

Lemma find_trackingId_sound (trackingId : string)
    (m : gmap string TrackingIdentity) (vehicleId : string) (data : TrackingIdentity) :
  List.find (fun entry => String.eqb (t_trackingId (snd entry)) trackingId) (map_to_list m)
    = Some (vehicleId, data) ->
  m !! vehicleId = Some data /\ t_trackingId data = trackingId.
Proof.
  intros Hfind. apply List.find_some in Hfind as [Hin Heq].
  apply list_elem_of_In, elem_of_map_to_list in Hin.
  split; [exact Hin | now apply String.eqb_eq in Heq].
Qed.

(** X5. [getLocationByTrackingId] never throws and never writes. A location
    it returns is the stored location of a vehicle whose tracking record
    holds the identifier; it returns nothing when no tracking record holds
    it; and when exactly one vehicle holds it, it returns what [getLocation]
    returns for that vehicle. *)
Theorem getLocationByTrackingId_sound :
  forall (trackingId : string) (w : World),
    let run := getLocationByTrackingId trackingId w in
    snd run = w
    /\ (exists found, fst run = Ok found
          /\ (forall loc, found = Some loc ->
                exists vehicleId data,
                  vehicleTrackingIds (db w) !! vehicleId = Some data
                  /\ t_trackingId data = trackingId
                  /\ vehicleLocations (db w) !! vehicleId = Some loc)
          /\ ((forall vehicleId data, vehicleTrackingIds (db w) !! vehicleId = Some data ->
                  t_trackingId data <> trackingId) -> found = None)
          /\ (forall vehicleId data,
                vehicleTrackingIds (db w) !! vehicleId = Some data ->
                t_trackingId data = trackingId ->
                (forall other data', vehicleTrackingIds (db w) !! other = Some data' ->
                    t_trackingId data' = trackingId -> other = vehicleId) ->
                Ok found = fst (getLocation vehicleId w))).
Proof.
  intros trackingId w run. subst run.
  unfold getLocationByTrackingId, try_catch, bind, gets, getLocation, get, gets, ret.
  cbn [fst snd].
  destruct (List.find (fun entry => String.eqb (t_trackingId (snd entry)) trackingId)
              (map_to_list (vehicleTrackingIds (db w)))) as [[vid data]|] eqn:Hfind.
  - apply find_trackingId_sound in Hfind as [Hdata Htid].
    cbn. split; [reflexivity|]. eexists. split; [reflexivity|]. split; [|split].
    + intros loc Hloc. exists vid, data. auto.
    + intros Hnone. exfalso. exact (Hnone vid data Hdata Htid).
    + intros vehicleId data0 Hdata0 Htid0 Honly.
      now rewrite (Honly vid data Hdata Htid).
  - cbn. split; [reflexivity|]. eexists. split; [reflexivity|]. split; [|split].
    + discriminate.
    + reflexivity.
    + intros vehicleId data0 Hdata0 Htid0 _. exfalso.
      eapply List.find_none in Hfind;
        [|apply list_elem_of_In, elem_of_map_to_list; exact Hdata0].
      cbn in Hfind. apply String.eqb_neq in Hfind. contradiction.
Qed.

End WithPlatform.

Import Scenario.

Lemma trackingId_stable_across_updates_witness :
  let first := @updateLocation Reference.platform "V1" 12.9716 77.5946 None signed_in in
  let second := @updateLocation Reference.platform "V1" 12.9721 77.5946 same_place (snd first) in
  fst first = Ok {| updated := true; trackingId := "V12715" |}
  /\ fst second = Ok {| updated := true; trackingId := "V12715" |}
  /\ fst (getTrackingId "V1" (snd second)) = Ok (Some "V12715").
Proof.
  intros first second.
  destruct (@trackingId_stable_across_updates Reference.platform "V1" "u7"
              12.9716 77.5946 12.9721 77.5946 None same_place signed_in
              ltac:(discriminate) eq_refl)
    as (tid & Hfirst & Hsecond & _ & Hget & _).
  assert (tid = "V12715") as ->.
  { vm_compute in Hfirst. now injection Hfirst as <-. }
  auto.
Defined.

Lemma getOrCreateTrackingId_unpersisted_witness :
  fst (@getOrCreateTrackingId Reference.platform "V1" signed_out) = Ok "V12715"
  /\ db (snd (@getOrCreateTrackingId Reference.platform "V1" signed_out)) = db signed_out.
Proof.
  destruct (@getOrCreateTrackingId_unpersisted Reference.platform "V1" "u7" signed_out
              ltac:(discriminate) eq_refl eq_refl) as (_ & Hcode & Hdb & _).
  split; [exact Hcode | exact Hdb].
Defined.

End TrackingMore.

(* ===================================================================== *)
(** * Further properties: assignment, unassignment, removal *)
(* ===================================================================== *)

Module AssignmentMore.
Import JS Async Store FirebaseUtils Assignment Unassignment StoreQueries.
Import AssignmentFacts.
Local Open Scope string_scope.

Lemma vehicles_unassign (vehicleId : string) (current : option string)
    (t1 t2 : Z) (d : Db) (k : string) :
  vehicles (unassign_writes vehicleId current t1 t2 d) !! k =
    if decide (vehicleId = k)
    then Some (put_driverId None t2 (default no_vehicle (vehicles d !! vehicleId)))
    else vehicles d !! k.
Proof.
  unfold unassign_writes. rewrite vehicles_patch_vehicle.
  destruct current; rewrite ?vehicles_patch_user; reflexivity.
Qed.

Lemma users_unassign (vehicleId : string) (current : option string)
    (t1 t2 : Z) (d : Db) (k : string) :
  users (unassign_writes vehicleId current t1 t2 d) !! k =
    match current with
    | Some previous =>
        if decide (previous = k)
        then Some (put_assignedVehicleId None t1 (default no_user (users d !! previous)))
        else users d !! k
    | None => users d !! k
    end.
Proof.
  unfold unassign_writes. rewrite users_patch_vehicle.
  destruct current; [apply users_patch_user | reflexivity].
Qed.

(** Under the invariant a stored [driverId] is not the empty string. *)
Lemma consistent_driver_nonempty (d : Db) (v : string) (rec : Vehicle) :
  consistent d -> vehicles d !! v = Some rec -> or_null (v_driverId rec) = v_driverId rec.
Proof.
  intros ([_ Hwu] & Hvs) Hv.
  destruct (v_driverId rec) as [dr|] eqn:Hd; [|reflexivity].
  apply or_null_Some. split; [reflexivity|]. intros ->.
  destruct (Hvs v rec "" Hv Hd) as (u & Hu & _). congruence.
Qed.

Lemma unassign_writes_bidirectional (vehicleId : string) (v : Vehicle)
    (t1 t2 : Z) (d : Db) :
  bidirectional d ->
  vehicles d !! vehicleId = Some v ->
  bidirectional (unassign_writes vehicleId (v_driverId v) t1 t2 d).
Proof.
  intros (([Hwv Hwu] & Hvs) & Hds) Hv.
  assert (Hne : vehicleId <> "") by (intros ->; congruence).
  repeat split.
  - rewrite vehicles_unassign, decide_False by exact Hne. exact Hwv.
  - rewrite users_unassign. destruct (v_driverId v) as [dr|] eqn:Hd; [|exact Hwu].
    rewrite decide_False; [exact Hwu|]. intros ->.
    destruct (Hvs vehicleId v "" Hv Hd) as (u & Hu & _). congruence.
  - intros k rec dr Hk Hdr. rewrite vehicles_unassign in Hk.
    destruct (decide (vehicleId = k)) as [->|Hkv].
    + injection Hk as <-. discriminate.
    + destruct (Hvs k rec dr Hk Hdr) as (u & Hu & Hrole & Hassigned).
      exists u. split; [|auto]. rewrite users_unassign.
      destruct (v_driverId v) as [cur|] eqn:Hd; [|exact Hu].
      rewrite decide_False; [exact Hu|]. intros ->.
      destruct (Hvs vehicleId v dr Hv Hd) as (u0 & Hu0 & _ & Ha0).
      rewrite Hu in Hu0. injection Hu0 as <-. congruence.
  - intros y u v0 Hy Ha. rewrite users_unassign in Hy.
    assert (Hy0 : users d !! y = Some u /\ v_driverId v <> Some y).
    { destruct (v_driverId v) as [cur|] eqn:Hd.
      - destruct (decide (cur = y)) as [->|Hcy].
        + injection Hy as <-. discriminate.
        + split; [exact Hy | congruence].
      - split; [exact Hy | discriminate]. }
    destruct Hy0 as [Hy0 Hnot].
    destruct (Hds y u v0 Hy0 Ha) as (rec & Hrec & Hrecd).
    exists rec. split; [|exact Hrecd].
    rewrite vehicles_unassign, decide_False; [exact Hrec|].
    intros <-. rewrite Hv in Hrec. injection Hrec as <-. contradiction.
Qed.

(** The record of the vehicle a swap takes the driver from. *)
Lemma assign_vehicles_released_record (vehicleId driverId : string)
    (assigned current : option string) (t1 t2 t3 t4 : Z) (d : Db) (k : string) :
  released vehicleId assigned k ->
  vehicles (assign_writes vehicleId driverId assigned current t1 t2 t3 t4 d) !! k
    = Some (put_driverId None t1 (default no_vehicle (vehicles d !! k))).
Proof.
  intros (-> & Hne & Hother). unfold assign_writes.
  rewrite vehicles_patch_vehicle, decide_False by congruence.
  apply truthy_nonempty in Hne. rewrite Hne.
  apply String.eqb_neq in Hother. rewrite Hother. cbn [negb andb].
  destruct current as [previous|]; [destruct (negb (previous =? driverId)%string)|];
    rewrite ?vehicles_patch_user, vehicles_patch_vehicle, decide_True; reflexivity.
Qed.

(** The record of the vehicle a swap gives the driver to. *)
Lemma assign_vehicles_target_record (vehicleId driverId : string)
    (assigned current : option string) (t1 t2 t3 t4 : Z) (d : Db) (v : Vehicle) :
  vehicles d !! vehicleId = Some v ->
  vehicles (assign_writes vehicleId driverId assigned current t1 t2 t3 t4 d) !! vehicleId
    = Some (put_driverId (Some driverId) t4 v).
Proof.
  intros Hv. unfold assign_writes.
  rewrite vehicles_patch_vehicle, decide_True by reflexivity. do 2 f_equal.
  assert (Hd1 : vehicles
    match assigned with
    | Some other => if truthy other && negb (other =? vehicleId)%string
                    then patch_vehicle other (put_driverId None t1) d else d
    | None => d
    end !! vehicleId = Some v).
  { destruct assigned as [other|]; [|exact Hv].
    destruct (truthy other && negb (other =? vehicleId)%string) eqn:Hc; [|exact Hv].
    apply andb_true_iff in Hc as [_ Hn]. apply negb_true_iff, String.eqb_neq in Hn.
    rewrite vehicles_patch_vehicle, decide_False by exact Hn. exact Hv. }
  destruct current as [previous|]; [destruct (negb (previous =? driverId)%string)|];
    rewrite ?vehicles_patch_user, Hd1; reflexivity.
Qed.

Lemma assign_writes_rest (vehicleId driverId : string)
    (assigned current : option string) (t1 t2 t3 t4 : Z) (d : Db) :
  let final := assign_writes vehicleId driverId assigned current t1 t2 t3 t4 d in
  bookings final = bookings d
  /\ vehicleLocations final = vehicleLocations d
  /\ vehicleTrackingIds final = vehicleTrackingIds d.
Proof.
  unfold assign_writes.
  destruct assigned as [other|]; [destruct (truthy other && negb (other =? vehicleId)%string)|];
    (destruct current as [previous|]; [destruct (negb (previous =? driverId)%string)|]);
    cbn; auto.
Qed.

Lemma NoDup_fst_filter {A B} (f : A * B -> bool) (l : list (A * B)) :
  NoDup (List.map fst l) -> NoDup (List.map fst (List.filter f l)).
Proof.
  induction l as [|x l IH]; cbn; [auto|].
  intros Hnd. apply NoDup_cons in Hnd as [Hx Hl].
  destruct (f x); cbn; [|auto].
  apply NoDup_cons. split; [|auto].
  intros Hin. apply Hx. apply list_elem_of_In in Hin. apply list_elem_of_In.
  apply List.in_map_iff in Hin as (y & Hy & Hin). apply List.in_map_iff.
  exists y. split; [exact Hy|]. now apply List.filter_In in Hin as [Hin _].
Qed.

Lemma NoDup_all_equal {A} (l : list A) (a : A) :
  NoDup l -> (forall x, In x l -> x = a) -> l = [] \/ l = [a].
Proof.
  intros Hnd Hall. destruct l as [|x [|y l]].
  - now left.
  - right. f_equal. apply Hall. now left.
  - exfalso. apply NoDup_cons in Hnd as [Hx _]. apply Hx.
    rewrite (Hall x) by (now left). rewrite <- (Hall y) by (right; now left).
    apply list_elem_of_In. now left.
Qed.

Section WithPlatform.
Context `{Platform}.

(** A call that passes the checks makes the writes of [unassign_writes]. *)
Lemma assignDriver_unassign_run (vehicleId uid : string) (v : Vehicle) (w : World) :
  currentUser w = Some uid ->
  vehicleId <> "" ->
  vehicles (db w) !! vehicleId = Some v ->
  exists t1 t2 w',
    assignDriver vehicleId None w = (Ok tt, w')
    /\ db w' = unassign_writes vehicleId (or_null (v_driverId v)) t1 t2 (db w)
    /\ currentUser w' = currentUser w.
Proof.
  intros Hauth HvehicleId Hv.
  apply truthy_nonempty in HvehicleId.
  unfold assignDriver, bind at 1. unfold requireAuth at 1. rewrite Hauth, HvehicleId.
  cbn [negb]. unfold try_catch, bind at 1. unfold get at 1, gets. rewrite Hv.
  unfold unassign_branch, unassign_writes.
  destruct (or_null (v_driverId v)) as [previous|];
    cbn; eexists _, _, _; (split; [reflexivity|]); (split; [reflexivity | exact Hauth]).
  Unshelve. all: exact 0.
Qed.

(** X6. With a user signed in and the invariant holding in both directions,
    [assignDriver(vehicleId, null)] on a stored vehicle completes, keeps the
    invariant in both directions, clears the vehicle's driver and nothing
    else of its record, clears the vehicle of the driver it had, and leaves
    every other vehicle and every other user as they were. *)
Theorem assignDriver_unassign :
  forall (vehicleId uid : string) (v : Vehicle) (w : World),
    currentUser w = Some uid ->
    bidirectional (db w) ->
    vehicles (db w) !! vehicleId = Some v ->
    exists w',
      assignDriver vehicleId None w = (Ok tt, w')
      /\ bidirectional (db w')
      /\ (exists rec, vehicles (db w') !! vehicleId = Some rec
                      /\ v_driverId rec = None
                      /\ v_name rec = v_name v /\ v_available rec = v_available v)
      /\ (forall driver, v_driverId v = Some driver ->
            exists u, users (db w') !! driver = Some u
                      /\ u_assignedVehicleId u = None /\ u_role u = Some "driver")
      /\ (forall k, k <> vehicleId -> vehicles (db w') !! k = vehicles (db w) !! k)
      /\ (forall k, v_driverId v <> Some k -> users (db w') !! k = users (db w) !! k).
Proof.
  intros vehicleId uid v w Hauth Hinv Hv.
  assert (Hne : vehicleId <> "")
    by (intros ->; destruct Hinv as (([? _] & _) & _); congruence).
  destruct (assignDriver_unassign_run vehicleId uid v w Hauth Hne Hv)
    as (t1 & t2 & w' & Hrun & Hdb & _).
  rewrite (consistent_driver_nonempty (db w) vehicleId v (proj1 Hinv) Hv) in Hdb.
  exists w'. split; [exact Hrun|]. rewrite Hdb.
  split; [now apply unassign_writes_bidirectional|].
  split; [|split; [|split]].
  - eexists. rewrite vehicles_unassign, decide_True, Hv by reflexivity.
    split; [reflexivity|]. cbn. auto.
  - intros driver Hd.
    destruct Hinv as ((_ & Hvs) & _).
    destruct (Hvs vehicleId v driver Hv Hd) as (u & Hu & Hrole & _).
    eexists. rewrite users_unassign, Hd, decide_True, Hu by reflexivity.
    split; [reflexivity|]. cbn. auto.
  - intros k Hk. rewrite vehicles_unassign, decide_False by congruence. reflexivity.
  - intros k Hk. rewrite users_unassign.
    destruct (v_driverId v) as [cur|]; [|reflexivity].
    rewrite decide_False by congruence. reflexivity.
Qed.

(** X7. What one successful assignment changes and what it leaves alone. With
    a user signed in and the invariant holding, [assignDriver(vehicleId,
    driverId)] on a stored vehicle and a stored driver completes and keeps
    the invariant; the vehicle's record keeps its other fields and names the
    driver; the driver's record keeps its role and names the vehicle; the
    vehicle the driver had is released and the driver the vehicle had is
    dismissed; every other vehicle, every other user, and all bookings,
    locations and tracking records are as before. *)
Theorem assignDriver_frame :
  forall (vehicleId driverId uid : string) (v : Vehicle) (u : User) (w : World),
    currentUser w = Some uid ->
    consistent (db w) ->
    vehicles (db w) !! vehicleId = Some v ->
    users (db w) !! driverId = Some u ->
    u_role u = Some "driver" ->
    exists w',
      assignDriver vehicleId (Some driverId) w = (Ok tt, w')
      /\ consistent (db w')
      /\ (exists rec, vehicles (db w') !! vehicleId = Some rec
                      /\ v_driverId rec = Some driverId
                      /\ v_name rec = v_name v /\ v_available rec = v_available v)
      /\ (exists rec, users (db w') !! driverId = Some rec
                      /\ u_assignedVehicleId rec = Some vehicleId
                      /\ u_role rec = u_role u /\ u_name rec = u_name u)
      /\ (forall k, released vehicleId (u_assignedVehicleId u) k ->
            exists rec, vehicles (db w') !! k = Some rec /\ v_driverId rec = None)
      /\ (forall k, dismissed driverId (v_driverId v) k ->
            exists rec, users (db w') !! k = Some rec /\ u_assignedVehicleId rec = None)
      /\ (forall k, k <> vehicleId -> ~ released vehicleId (u_assignedVehicleId u) k ->
            vehicles (db w') !! k = vehicles (db w) !! k)
      /\ (forall k, k <> driverId -> ~ dismissed driverId (v_driverId v) k ->
            users (db w') !! k = users (db w) !! k)
      /\ bookings (db w') = bookings (db w)
      /\ vehicleLocations (db w') = vehicleLocations (db w)
      /\ vehicleTrackingIds (db w') = vehicleTrackingIds (db w).
Proof.
  intros vehicleId driverId uid v u w Hauth Hinv Hv Hu Hrole.
  assert (HV : vehicleId <> "") by (intros ->; destruct Hinv as ([? _] & _); congruence).
  assert (HD : driverId <> "") by (intros ->; destruct Hinv as ([_ ?] & _); congruence).
  destruct (assignDriver_run vehicleId driverId uid v u w Hauth HV HD Hv Hu Hrole)
    as (t1 & t2 & t3 & t4 & w' & Hrun & Hdb & _).
  pose proof (consistent_driver_nonempty (db w) vehicleId v Hinv Hv) as Hcur.
  rewrite Hcur in Hdb.
  exists w'. split; [exact Hrun|]. rewrite Hdb.
  split; [rewrite <- Hcur; now apply assign_writes_consistent|].
  split; [|split; [|split; [|split; [|split; [|split]]]]].
  - eexists. split; [apply assign_vehicles_target_record; exact Hv|]. cbn. auto.
  - eexists. split; [apply assign_users_target; exact Hu|]. cbn. auto.
  - intros k Hk. now apply assign_vehicles_released.
  - intros k Hk. now apply assign_users_dismissed.
  - intros k Hk Hrel. now apply assign_vehicles_other.
  - intros k Hk Hdis. now apply assign_users_other.
  - apply assign_writes_rest.
Qed.


(** X9. [deleteVehicle] of a non-empty identifier: signed out it throws and
    changes nothing. Signed in it completes; the vehicle, its location and
    its tracking record are gone, the records of every other vehicle stay,
    and users and bookings are not touched, so the invariant of the vehicles
    is kept while a driver who was assigned to the vehicle still names it:
    the driver side of the invariant is lost. *)
Theorem deleteVehicle_removes :
  forall (vehicleId : string) (w : World),
    vehicleId <> "" ->
    let run := deleteVehicle vehicleId w in
    match currentUser w with
    | None => run = (Throw "Not authenticated", w)
    | Some _ =>
        fst run = Ok tt
        /\ vehicles (db (snd run)) !! vehicleId = None
        /\ vehicleLocations (db (snd run)) !! vehicleId = None
        /\ vehicleTrackingIds (db (snd run)) !! vehicleId = None
        /\ (forall k, k <> vehicleId ->
              vehicles (db (snd run)) !! k = vehicles (db w) !! k
              /\ vehicleLocations (db (snd run)) !! k = vehicleLocations (db w) !! k
              /\ vehicleTrackingIds (db (snd run)) !! k = vehicleTrackingIds (db w) !! k)
        /\ users (db (snd run)) = users (db w)
        /\ bookings (db (snd run)) = bookings (db w)
        /\ (consistent (db w) -> consistent (db (snd run)))
        /\ (forall driver u, users (db w) !! driver = Some u ->
              u_assignedVehicleId u = Some vehicleId ->
              ~ driver_side (db (snd run)))
    end.
Proof.
  intros vehicleId w Hne run. subst run.
  unfold deleteVehicle, bind, requireAuth, write, modify, remove_at.
  apply truthy_nonempty in Hne. rewrite Hne.
  destruct (currentUser w) as [uid|]; [|reflexivity].
  cbn. split; [reflexivity|].
  split; [apply lookup_delete_eq|]. split; [apply lookup_delete_eq|].
  split; [apply lookup_delete_eq|].
  split; [intros k Hk; rewrite !lookup_delete_ne by congruence; auto|].
  split; [reflexivity|]. split; [reflexivity|]. split.
  - intros ([Hwv Hwu] & Hvs). repeat split; cbn.
    + apply truthy_nonempty in Hne. rewrite lookup_delete_ne by exact Hne. exact Hwv.
    + exact Hwu.
    + intros k rec dr Hk Hdr. cbn in Hk.
      apply lookup_delete_Some in Hk as [_ Hk]. exact (Hvs k rec dr Hk Hdr).
  - intros driver u Hu Ha Hds.
    destruct (Hds driver u vehicleId Hu Ha) as (rec & Hrec & _).
    cbn in Hrec. rewrite lookup_delete_eq in Hrec. discriminate.
Qed.

(** X10. A removed vehicle comes back. With the invariant holding in both
    directions, remove vehicle A, which driver D drives, and then assign D
    to another stored vehicle B: both calls complete, and because D's record
    still names A, the second call clears the driver of A with [update],
    which creates under [vehicles/A] a node that has no field of a vehicle
    besides the cleared driver and the time stamp. *)
Theorem deleteVehicle_then_assign_recreates :
  forall (vehicleA vehicleB driver uid : string) (a b : Vehicle) (w : World),
    currentUser w = Some uid ->
    bidirectional (db w) ->
    vehicleA <> vehicleB ->
    vehicles (db w) !! vehicleA = Some a ->
    v_driverId a = Some driver ->
    vehicles (db w) !! vehicleB = Some b ->
    exists w1 w2,
      deleteVehicle vehicleA w = (Ok tt, w1)
      /\ vehicles (db w1) !! vehicleA = None
      /\ assignDriver vehicleB (Some driver) w1 = (Ok tt, w2)
      /\ (exists rec, vehicles (db w2) !! vehicleA = Some rec /\ is_stub rec).
Proof.
  intros vehicleA vehicleB driver uid a b w Hauth Hinv Hab Ha Hd Hb.
  destruct Hinv as (([Hwv Hwu] & Hvs) & Hds).
  destruct (Hvs vehicleA a driver Ha Hd) as (u & Hu & Hrole & Hassigned).
  assert (HA : vehicleA <> "") by (intros ->; congruence).
  assert (HB : vehicleB <> "") by (intros ->; congruence).
  assert (HD : driver <> "") by (intros ->; congruence).
  set (w1 := snd (deleteVehicle vehicleA w)).
  assert (Hrun1 : deleteVehicle vehicleA w = (Ok tt, w1)).
  { subst w1. unfold deleteVehicle, bind, requireAuth, write, modify. now rewrite Hauth. }
  assert (Hw1 : w1 = with_db (fun d =>
    set_vehicleTrackingIds (delete vehicleA (vehicleTrackingIds d))
      (set_vehicleLocations (delete vehicleA (vehicleLocations d))
         (set_vehicles (delete vehicleA (vehicles d)) d))) w).
  { subst w1. unfold deleteVehicle, bind, requireAuth, write, modify, remove_at.
    apply truthy_nonempty in HA. now rewrite Hauth, HA. }
  assert (Hgone : vehicles (db w1) !! vehicleA = None).
  { rewrite Hw1. cbn. apply lookup_delete_eq. }
  assert (Hb1 : vehicles (db w1) !! vehicleB = Some b).
  { rewrite Hw1. cbn. rewrite lookup_delete_ne by exact Hab. exact Hb. }
  assert (Hu1 : users (db w1) !! driver = Some u) by (rewrite Hw1; exact Hu).
  assert (Hauth1 : currentUser w1 = Some uid) by (rewrite Hw1; exact Hauth).
  destruct (assignDriver_run vehicleB driver uid b u w1 Hauth1 HB HD Hb1 Hu1 Hrole)
    as (t1 & t2 & t3 & t4 & w2 & Hrun2 & Hdb2 & _).
  exists w1, w2. split; [exact Hrun1|]. split; [exact Hgone|]. split; [exact Hrun2|].
  eexists. split.
  - rewrite Hdb2. apply assign_vehicles_released_record.
    unfold released. rewrite Hassigned. auto.
  - rewrite Hgone. cbn. unfold is_stub. cbn. auto.
Qed.

(** X11. [getVehiclesByDriver] reads only. When the invariant holds it
    returns at most one vehicle, the one the driver's record names; when it
    holds in both directions and the driver's record names a vehicle, it
    returns exactly that vehicle. *)
Theorem getVehiclesByDriver_at_most_one :
  forall (driverId : string) (w : World),
    consistent (db w) ->
    exists found,
      DriverLocationUpdater.getVehiclesByDriver driverId w = (Ok found, w)
      /\ (found = [] \/ exists v u, found = [v] /\ users (db w) !! driverId = Some u
                                    /\ u_assignedVehicleId u = Some v)
      /\ (driver_side (db w) ->
          forall u v, users (db w) !! driverId = Some u ->
                      u_assignedVehicleId u = Some v -> found = [v]).
Proof.
  intros driverId w (_ & Hvs).
  unfold DriverLocationUpdater.getVehiclesByDriver, gets.
  set (found := List.map fst (List.filter _ _)).
  exists found. split; [reflexivity|].
  assert (Hnd : NoDup found).
  { subst found. apply NoDup_fst_filter. apply NoDup_fst_map_to_list. }
  assert (Hin : forall v, In v found <->
            exists rec, vehicles (db w) !! v = Some rec /\ v_driverId rec = Some driverId).
  { intros v. subst found. rewrite List.in_map_iff. split.
    - intros ([v' rec] & <- & Hf). apply List.filter_In in Hf as [Hf Hdr].
      apply list_elem_of_In, elem_of_map_to_list in Hf.
      apply bool_decide_eq_true_1 in Hdr. exists rec. auto.
    - intros (rec & Hrec & Hdr). exists (v, rec). split; [reflexivity|].
      apply List.filter_In. split.
      + apply list_elem_of_In, elem_of_map_to_list. exact Hrec.
      + apply bool_decide_eq_true_2. exact Hdr. }
  clearbody found. split.
  - destruct found as [|v0 rest] eqn:Hfound; [now left|]. right.
    assert (Hv0 : In v0 (v0 :: rest)) by now left.
    apply Hin in Hv0 as (rec0 & Hrec0 & Hdr0).
    destruct (Hvs v0 rec0 driverId Hrec0 Hdr0) as (u & Hu & _ & Ha).
    exists v0, u. split; [|auto].
    destruct (NoDup_all_equal (v0 :: rest) v0 Hnd) as [Hnil|Hone]; [|discriminate|exact Hone].
    intros x Hx. apply Hin in Hx as (rec & Hrec & Hdr).
    destruct (Hvs x rec driverId Hrec Hdr) as (u' & Hu' & _ & Ha').
    rewrite Hu in Hu'. injection Hu' as <-. congruence.
  - intros Hds u v Hu Ha.
    destruct (Hds driverId u v Hu Ha) as (rec & Hrec & Hdr).
    assert (Hv : In v found) by (apply Hin; eauto).
    destruct (NoDup_all_equal found v Hnd) as [Hnil|Hone]; [| |exact Hone].
    + intros x Hx. apply Hin in Hx as (rec' & Hrec' & Hdr').
      destruct (Hvs x rec' driverId Hrec' Hdr') as (u' & Hu' & _ & Ha').
      rewrite Hu in Hu'. injection Hu' as <-. congruence.
    + rewrite Hnil in Hv. destruct Hv.
Qed.

End WithPlatform.

Import Scenario.

Lemma assignDriver_unassign_witness :
  exists w',
    @assignDriver Reference.platform "v1" None fleet = (Ok tt, w')
    /\ bidirectional (db w')
    /\ (exists rec, vehicles (db w') !! "v1" = Some rec /\ v_driverId rec = None)
    /\ (exists u, users (db w') !! "d2" = Some u /\ u_assignedVehicleId u = None).
Proof.
  destruct (@assignDriver_unassign Reference.platform "v1" "a1" (car (Some "d2")) fleet
              eq_refl fleet_bidirectional eq_refl)
    as (w' & Hrun & Hinv & (rec & Hrec & Hnone & _) & Hdriver & _).
  exists w'. split; [exact Hrun|]. split; [exact Hinv|]. split; [eauto|].
  destruct (Hdriver "d2" eq_refl) as (u & Hu & Ha & _). eauto.
Defined.

Lemma assignDriver_frame_witness :
  exists w',
    @assignDriver Reference.platform "v2" (Some "d1") fleet = (Ok tt, w')
    /\ vehicles (db w') !! "v1" = Some (car (Some "d2"))
    /\ users (db w') !! "d2" = Some (person "driver" (Some "v1"))
    /\ (exists rec, vehicles (db w') !! "v3" = Some rec /\ v_driverId rec = None).
Proof.
  destruct (@assignDriver_frame Reference.platform "v2" "d1" "a1" (car None)
              (person "driver" (Some "v3")) fleet
              eq_refl (proj1 fleet_bidirectional) eq_refl eq_refl eq_refl)
    as (w' & Hrun & _ & _ & _ & Hrel & _ & Hvehicles & Husers & _).
  exists w'. split; [exact Hrun|]. split; [|split].
  - rewrite Hvehicles; [reflexivity | discriminate |].
    intros (Hk & _). discriminate.
  - rewrite Husers; [reflexivity | discriminate |].
    intros (Hk & _). discriminate.
  - apply Hrel. unfold released. cbn. repeat split; discriminate.
Defined.


Lemma deleteVehicle_removes_witness :
  fst (deleteVehicle "v1" fleet) = Ok tt
  /\ vehicles (db (snd (deleteVehicle "v1" fleet))) !! "v1" = None
  /\ ~ driver_side (db (snd (deleteVehicle "v1" fleet))).
Proof.
  pose proof (deleteVehicle_removes "v1" fleet ltac:(discriminate)) as Hrun.
  cbv zeta in Hrun. change (currentUser fleet) with (Some "a1") in Hrun.
  destruct Hrun as (Hok & Hgone & _ & _ & _ & _ & _ & _ & Hlost).
  split; [exact Hok|]. split; [exact Hgone|].
  exact (Hlost "d2" (person "driver" (Some "v1")) eq_refl eq_refl).
Defined.

Lemma deleteVehicle_then_assign_recreates_witness :
  exists w1 w2,
    deleteVehicle "v1" fleet = (Ok tt, w1)
    /\ vehicles (db w1) !! "v1" = None
    /\ @assignDriver Reference.platform "v2" (Some "d2") w1 = (Ok tt, w2)
    /\ (exists rec, vehicles (db w2) !! "v1" = Some rec /\ is_stub rec).
Proof.
  exact (@deleteVehicle_then_assign_recreates Reference.platform "v1" "v2" "d2" "a1"
           (car (Some "d2")) (car None) fleet
           eq_refl fleet_bidirectional ltac:(discriminate) eq_refl eq_refl eq_refl).
Defined.

Lemma getVehiclesByDriver_at_most_one_witness :
  exists found,
    DriverLocationUpdater.getVehiclesByDriver "d2" fleet = (Ok found, fleet)
    /\ found = ["v1"].
Proof.
  destruct (getVehiclesByDriver_at_most_one "d2" fleet (proj1 fleet_bidirectional))
    as (found & Hrun & _ & Hone).
  exists found. split; [exact Hrun|].
  exact (Hone (proj2 fleet_bidirectional) (person "driver" (Some "v1")) "v1" eq_refl eq_refl).
Defined.

End AssignmentMore.

(* ===================================================================== *)
(** * Further properties: bookings *)
(* ===================================================================== *)

Module BookingMore.
Import JS Async Store TrackingCode FirebaseUtils StoreQueries BookingQueries.
Import AssignmentFacts.
Local Open Scope string_scope.

Lemma insert_newest_In (x y : Booking) (l : list Booking) :
  In y (insert_newest x l) <-> y = x \/ In y l.
Proof.
  induction l as [|z l IH]; cbn.
  - split; [intros [<-|[]]; auto | intros [->|[]]; auto].
  - destruct (b_createdAt x <? b_createdAt z)%Z; cbn; rewrite ?IH; intuition congruence.
Qed.

Lemma insert_newest_length (x : Booking) (l : list Booking) :
  List.length (insert_newest x l) = S (List.length l).
Proof.
  induction l as [|z l IH]; cbn; [reflexivity|].
  destruct (b_createdAt x <? b_createdAt z)%Z; cbn; now rewrite ?IH.
Qed.

Lemma insert_newest_sorted (x : Booking) (l : list Booking) :
  newest_first l -> newest_first (insert_newest x l).
Proof.
  unfold newest_first. induction l as [|z l IH]; cbn; intros Hs.
  - constructor; constructor.
  - apply StronglySorted_inv in Hs as [Hl Hz].
    destruct (b_createdAt x <? b_createdAt z)%Z eqn:Hc.
    + apply Z.ltb_lt in Hc. constructor; [auto|].
      apply List.Forall_forall. intros y Hy. apply insert_newest_In in Hy as [->|Hy]; [lia|].
      rewrite List.Forall_forall in Hz. auto.
    + apply Z.ltb_ge in Hc. constructor; [constructor; assumption|].
      constructor; [exact Hc|].
      rewrite List.Forall_forall in Hz. apply List.Forall_forall. intros y Hy.
      specialize (Hz y Hy). lia.
Qed.

Lemma sort_newest_first_In (y : Booking) (l : list Booking) :
  In y (sort_newest_first l) <-> In y l.
Proof.
  induction l as [|x l IH]; cbn; [reflexivity|].
  rewrite insert_newest_In, IH. intuition congruence.
Qed.

Lemma sort_newest_first_length (l : list Booking) :
  List.length (sort_newest_first l) = List.length l.
Proof.
  induction l as [|x l IH]; cbn; [reflexivity|]. now rewrite insert_newest_length, IH.
Qed.

Lemma sort_newest_first_sorted (l : list Booking) : newest_first (sort_newest_first l).
Proof.
  induction l as [|x l IH]; cbn; [constructor|]. now apply insert_newest_sorted.
Qed.

Lemma select_In (keep : Booking -> bool) (data : gmap string Booking) (b : Booking) :
  In b (select keep data) <-> exists id, data !! id = Some b /\ keep b = true.
Proof.
  unfold select. rewrite List.in_map_iff. split.
  - intros ([id b'] & <- & Hin). apply List.filter_In in Hin as [Hin Hk].
    apply list_elem_of_In, elem_of_map_to_list in Hin. exists id. auto.
  - intros (id & Hid & Hk). exists (id, b). split; [reflexivity|].
    apply List.filter_In. split; [|exact Hk].
    apply list_elem_of_In, elem_of_map_to_list. exact Hid.
Qed.

Section WithPlatform.
Context `{Platform}.

(** X12. [getBookingsByUser] and [getBookingsByDriver] read only, and return
    the stored bookings of the user (of the driver), all of them and no
    other, the newest first. *)
Theorem bookings_listed_newest_first :
  forall (who : string) (w : World),
    (exists found,
        getBookingsByUser who w = (Ok found, w)
        /\ (forall b, In b found <->
                      exists id, bookings (db w) !! id = Some b /\ b_userId b = who)
        /\ newest_first found
        /\ List.length found
           = List.length (select (fun b => String.eqb (b_userId b) who) (bookings (db w))))
    /\ (exists found,
          getBookingsByDriver who w = (Ok found, w)
          /\ (forall b, In b found <->
                        exists id, bookings (db w) !! id = Some b /\ b_driverId b = who)
          /\ newest_first found
          /\ List.length found
             = List.length (select (fun b => String.eqb (b_driverId b) who) (bookings (db w)))).
Proof.
  intros who w. split.
  - eexists. split; [reflexivity|]. split; [|split].
    + intros b. rewrite sort_newest_first_In, select_In.
      split; intros (id & Hid & Hk); exists id; (split; [exact Hid|]);
        [now apply String.eqb_eq in Hk | now apply String.eqb_eq].
    + apply sort_newest_first_sorted.
    + apply sort_newest_first_length.
  - eexists. split; [reflexivity|]. split; [|split].
    + intros b. rewrite sort_newest_first_In, select_In.
      split; intros (id & Hid & Hk); exists id; (split; [exact Hid|]);
        [now apply String.eqb_eq in Hk | now apply String.eqb_eq].
    + apply sort_newest_first_sorted.
    + apply sort_newest_first_length.
Qed.

Lemma createBooking_run (bookingData : BookingData) (w : World) :
  exists booking,
    createBooking bookingData w
      = (Ok (push_key (tick w)),
         {| db := patch_vehicle (d_vehicleId bookingData)
                    (put_available false (Date_clock (S (S (tick w)))))
                    (set_bookings (<[push_key (tick w) := booking]> (bookings (db w))) (db w));
            currentUser := currentUser w;
            tick := S (S (S (tick w))) |})
    /\ b_id booking = push_key (tick w)
    /\ b_shortId booking = generateShortId (push_key (tick w))
    /\ b_userId booking = d_userId bookingData
    /\ b_vehicleId booking = d_vehicleId bookingData
    /\ b_driverId booking = d_driverId bookingData
    /\ b_status booking = pending_payment
    /\ b_paymentStatus booking = payment_pending
    /\ b_createdAt booking = Date_clock (S (tick w))
    /\ b_updatedAt booking = Date_clock (S (tick w)).
Proof.
  unfold createBooking, markVehicleAsInUse, bind, push, Date_now, write, modify, ret,
    with_db, tick_once.
  cbn. eexists. split; [reflexivity|]. cbn. repeat split.
Qed.

(** X13. [createBooking], given a non-empty vehicle identifier, never throws
    and checks nothing about the vehicle. The booking it stores is the one [getBookingById] returns under the
    pushed key, with the last six characters of the key as its short
    identifier. Of the vehicle it names only [available] and [updatedAt]
    are written, whether the vehicle was available or not; when no such
    vehicle is stored, a node with nothing but these two fields appears.
    Users, the other vehicles and the other bookings stay as they were. *)
Theorem createBooking_frame :
  forall (bookingData : BookingData) (w : World),
    d_vehicleId bookingData <> "" ->
    let key := push_key (tick w) in
    let created := createBooking bookingData w in
    fst created = Ok key
    /\ (exists b, fst (getBookingById key (snd created)) = Ok (Some b)
                  /\ b_id b = key /\ b_shortId b = generateShortId key
                  /\ b_userId b = d_userId bookingData
                  /\ b_driverId b = d_driverId bookingData
                  /\ b_createdAt b = b_updatedAt b)
    /\ (exists v, vehicles (db (snd created)) !! d_vehicleId bookingData = Some v
                  /\ v_available v = Some false
                  /\ match vehicles (db w) !! d_vehicleId bookingData with
                     | Some before => v_driverId v = v_driverId before
                                      /\ v_name v = v_name before
                     | None => v_driverId v = None /\ v_name v = None
                     end)
    /\ (forall k, k <> d_vehicleId bookingData ->
          vehicles (db (snd created)) !! k = vehicles (db w) !! k)
    /\ (forall k, k <> key -> bookings (db (snd created)) !! k = bookings (db w) !! k)
    /\ users (db (snd created)) = users (db w).
Proof.
  intros bookingData w _ key created.
  destruct (createBooking_run bookingData w)
    as (booking & Hrun & Hid & Hshort & Huser & _ & Hdriver & _ & _ & Hc & Hu).
  subst created key. rewrite Hrun. cbn [fst snd db].
  split; [reflexivity|]. split; [|split; [|split; [|split]]].
  - exists booking. unfold getBookingById, get, gets. cbn.
    rewrite lookup_insert_eq. repeat split; try assumption. congruence.
  - eexists. rewrite vehicles_patch_vehicle, decide_True by reflexivity.
    split; [reflexivity|]. cbn.
    destruct (vehicles (db w) !! d_vehicleId bookingData); cbn; auto.
  - intros k Hk. rewrite vehicles_patch_vehicle, decide_False by congruence. reflexivity.
  - intros k Hk. cbn. rewrite lookup_insert_ne by congruence. reflexivity.
  - reflexivity.
Qed.

(** X14. A vehicle can be booked while it is booked: two [createBooking]
    calls that name the same vehicle (a non-empty identifier) both complete, and when the two pushed
    keys differ both bookings are stored, with status [pending_payment], for
    that vehicle. *)
Theorem createBooking_twice :
  forall (first second : BookingData) (w : World),
    d_vehicleId first <> "" ->
    d_vehicleId first = d_vehicleId second ->
    push_key (tick w) <> push_key (S (S (S (tick w)))) ->
    let one := createBooking first w in
    let two := createBooking second (snd one) in
    exists id1 id2 b1 b2,
      fst one = Ok id1 /\ fst two = Ok id2 /\ id1 <> id2
      /\ bookings (db (snd two)) !! id1 = Some b1
      /\ bookings (db (snd two)) !! id2 = Some b2
      /\ b_vehicleId b1 = b_vehicleId b2
      /\ b_status b1 = pending_payment /\ b_status b2 = pending_payment
      /\ (exists v, vehicles (db (snd one)) !! d_vehicleId first = Some v
                    /\ v_available v = Some false).
Proof.
  intros first second w _ Hsame Hkeys one two.
  destruct (createBooking_run first w)
    as (b1 & Hrun1 & _ & _ & _ & Hv1 & _ & Hs1 & _).
  subst two one. rewrite Hrun1. cbn [fst snd].
  match goal with |- context [createBooking second ?w1] =>
    destruct (createBooking_run second w1) as (b2 & Hrun2 & _ & _ & _ & Hv2 & _ & Hs2 & _)
  end.
  rewrite Hrun2. cbn [fst snd db tick] in *.
  exists (push_key (tick w)), (push_key (S (S (S (tick w))))), b1, b2.
  split; [reflexivity|]. split; [reflexivity|]. split; [exact Hkeys|].
  split; [|split; [|split; [|split; [|split]]]].
  - cbn. rewrite lookup_insert_ne by congruence. apply lookup_insert_eq.
  - cbn. apply lookup_insert_eq.
  - congruence.
  - exact Hs1.
  - exact Hs2.
  - eexists. rewrite vehicles_patch_vehicle, decide_True by reflexivity.
    split; reflexivity.
Qed.


End WithPlatform.

Import Scenario.

Lemma createBooking_frame_witness :
  fst (@createBooking Reference.platform trip fleet) = Ok "-K0"
  /\ (exists b, fst (getBookingById "-K0" (snd (@createBooking Reference.platform trip fleet)))
                  = Ok (Some b)
                /\ b_shortId b = "-K0")
  /\ users (db (snd (@createBooking Reference.platform trip fleet))) = users (db fleet).
Proof.
  destruct (@createBooking_frame Reference.platform trip fleet ltac:(discriminate))
    as (Hkey & (b & Hb & _ & Hshort & _) & _ & _ & _ & Husers).
  split; [exact Hkey|]. split; [|exact Husers].
  exists b. split; [exact Hb | exact Hshort].
Defined.


Lemma createBooking_twice_witness :
  exists id1 id2 b1 b2,
    fst (@createBooking Reference.platform trip fleet) = Ok id1
    /\ fst (@createBooking Reference.platform trip
              (snd (@createBooking Reference.platform trip fleet))) = Ok id2
    /\ id1 <> id2
    /\ bookings (db (snd (@createBooking Reference.platform trip
              (snd (@createBooking Reference.platform trip fleet))))) !! id1 = Some b1
    /\ bookings (db (snd (@createBooking Reference.platform trip
              (snd (@createBooking Reference.platform trip fleet))))) !! id2 = Some b2
    /\ b_vehicleId b1 = b_vehicleId b2.
Proof.
  destruct (@createBooking_twice Reference.platform trip trip fleet
              ltac:(discriminate) eq_refl ltac:(vm_compute; discriminate))
    as (id1 & id2 & b1 & b2 & H1 & H2 & Hne & Hb1 & Hb2 & Hv & _).
  exists id1, id2, b1, b2. auto 10.
Defined.

End BookingMore.

(* ===================================================================== *)
(** * Further properties: payments and shipments *)
(* ===================================================================== *)

Module LedgerFacts.
Import JS Async Store FirebaseUtils StoreQueries Ledger.
Import AssignmentFacts.
Local Open Scope string_scope.

Section WithPlatform.
Context `{Platform}.
Variable toISOString : Z -> string.

(** X16. [savePayment], for a non-empty [userId], never throws: it stores the
    payment under the pushed key of the user, with a non-empty currency, and
    returns the key. It writes no vehicle and no user. When the payment
    names a stored booking, whoever its customer is, that booking gets the
    payment status [paid], [failed] or [pending] after the payment's status,
    and its status becomes [pending] on success and is kept otherwise; its
    customer, vehicle and amount are kept, and the other bookings are
    untouched. When it names no stored booking, no booking is written. *)
Theorem savePayment_effect :
  forall (userId : string) (payment : PaymentInput) (s : Books),
    userId <> "" ->
    let key := push_key (tick (world s)) in
    let run := savePayment userId payment s in
    fst run = Ok key
    /\ (exists mine p,
          payments (snd run) !! userId = Some mine /\ mine !! key = Some p
          /\ y_id p = key /\ y_userId p = userId /\ y_status p = i_status payment
          /\ y_currency p <> "")
    /\ (forall other, other <> userId -> payments (snd run) !! other = payments s !! other)
    /\ shipments (snd run) = shipments s
    /\ vehicles (db (world (snd run))) = vehicles (db (world s))
    /\ users (db (world (snd run))) = users (db (world s))
    /\ match linked_booking payment (db (world s)) with
       | Some (bookingId, before) =>
           (exists after,
               bookings (db (world (snd run))) !! bookingId = Some after
               /\ b_paymentStatus after = paymentStatus_of (i_status payment)
               /\ b_status after
                  = (if is_success (i_status payment) then pending else b_status before)
               /\ b_userId after = b_userId before
               /\ b_vehicleId after = b_vehicleId before
               /\ b_amount after = b_amount before)
           /\ (forall k, k <> bookingId ->
                 bookings (db (world (snd run))) !! k = bookings (db (world s)) !! k)
       | None => bookings (db (world (snd run))) = bookings (db (world s))
       end.
Proof.
  intros userId payment s _ key run. subst key run.
  assert (Hcurrency : default "INR" (or_null (i_currency payment)) <> "").
  { destruct (or_null (i_currency payment)) as [c|] eqn:Hc; cbn; [|discriminate].
    now apply or_null_Some in Hc. }
  unfold linked_booking, savePayment, bind, in_world, zoom, push, Date_now, get, gets,
    write, modify, ret.
  cbn [fst snd world set_world db tick_once].
  destruct (or_null (i_bookingId payment)) as [bookingId|];
    [destruct (bookings (db (world s)) !! bookingId) as [before|] eqn:Hbefore|];
    cbn; rewrite ?Hbefore; cbn.
  - split; [reflexivity|]. split.
    { eexists _, _. rewrite lookup_insert_eq. split; [reflexivity|].
      rewrite lookup_insert_eq. split; [reflexivity|]. cbn. auto. }
    split; [intros other Hother; now rewrite lookup_insert_ne by congruence|].
    split; [reflexivity|]. split; [reflexivity|]. split; [reflexivity|]. split.
    + eexists. rewrite lookup_insert_eq. split; [reflexivity|]. cbn.
      destruct (i_status payment); cbn; auto.
    + intros k Hk. now rewrite lookup_insert_ne by congruence.
  - split; [reflexivity|]. split.
    { eexists _, _. rewrite lookup_insert_eq. split; [reflexivity|].
      rewrite lookup_insert_eq. split; [reflexivity|]. cbn. auto. }
    split; [intros other Hother; now rewrite lookup_insert_ne by congruence|].
    auto.
  - split; [reflexivity|]. split.
    { eexists _, _. rewrite lookup_insert_eq. split; [reflexivity|].
      rewrite lookup_insert_eq. split; [reflexivity|]. cbn. auto. }
    split; [intros other Hother; now rewrite lookup_insert_ne by congruence|].
    auto.
Qed.

(** X17. [convertToShipment], for a non-empty [bookingId]: when no booking is
    stored under it, it throws [Booking not found] and nothing has changed,
    no shipment is made. Otherwise, whatever the status of the booking, it
    completes: the shipment stored under the returned key is [pending], has
    no item, and carries the booking's customer, vehicle, driver and amount;
    the booking becomes [converted] and names the shipment; no vehicle and
    no user is written, so the vehicle stays unavailable. *)
Theorem convertToShipment_effect :
  forall (bookingId : string) (s : Books),
    bookingId <> "" ->
    let run := convertToShipment toISOString bookingId s in
    match bookings (db (world s)) !! bookingId with
    | None => run = (Throw "Booking not found", s)
    | Some booking =>
        let key := push_key (tick (world s)) in
        fst run = Ok key
        /\ (exists shipment,
              shipments (snd run) !! key = Some shipment
              /\ s_id shipment = key
              /\ s_status shipment = "pending" /\ s_items shipment = []
              /\ s_customerId shipment = b_userId booking
              /\ s_vehicleId shipment = b_vehicleId booking
              /\ s_driverId shipment = b_driverId booking
              /\ s_totalCost shipment = b_amount booking)
        /\ (exists after,
              bookings (db (world (snd run))) !! bookingId = Some after
              /\ b_status after = converted /\ b_shipmentId after = Some key
              /\ b_paymentStatus after = b_paymentStatus booking)
        /\ vehicles (db (world (snd run))) = vehicles (db (world s))
        /\ users (db (world (snd run))) = users (db (world s))
        /\ payments (snd run) = payments s
    end.
Proof.
  intros bookingId s _ run. subst run.
  assert (Hdriver : forall d, default "" (or_null (Some d)) = d).
  { intros d. unfold or_null, truthy_opt. destruct d; reflexivity. }
  destruct s as [w pay ship]. destruct w as [d cu tk].
  unfold convertToShipment, createShipment, updateBooking, getBookingById,
    bind, in_world, zoom, push, Date_now, get, gets, write, modify, throw, ret.
  cbn [fst snd world set_world db tick tick_once].
  destruct (bookings d !! bookingId) as [booking|] eqn:Hbooking; cbn;
    rewrite ?Hbooking; cbn; [|reflexivity].
  split; [reflexivity|]. split; [|split].
  - eexists. rewrite lookup_insert_eq. split; [reflexivity|]. cbn.
    rewrite Hdriver. auto 10.
  - eexists. rewrite lookup_insert_eq. split; [reflexivity|]. cbn. auto.
  - auto.
Qed.

End WithPlatform.

Import Scenario.

(** A booking of [c1] is paid by another user. *)
Lemma savePayment_effect_witness :
  let booked := opening (snd (@createBooking Reference.platform trip fleet)) in
  let payment :=
    {| i_orderId := "order_1"; i_paymentId := "pay_1"; i_amount := 633.6;
       i_status := pay_success; i_currency := None; i_bookingId := Some "-K0" |} in
  let run := @savePayment Reference.platform "d2" payment booked in
  fst run = Ok "-K3"
  /\ exists after, bookings (db (world (snd run))) !! "-K0" = Some after
                   /\ b_paymentStatus after = paid /\ b_status after = pending
                   /\ b_userId after = "c1".
Proof.
  intros booked payment run.
  pose proof (@savePayment_effect Reference.platform "d2" payment booked
                ltac:(discriminate)) as Hrun.
  cbv zeta in Hrun. fold run in Hrun.
  destruct Hrun as (Hkey & _ & _ & _ & _ & _ & Hlinked).
  split; [exact Hkey|].
  assert (Hl : exists before,
    linked_booking payment (db (world booked)) = Some ("-K0", before)
    /\ b_userId before = "c1").
  { eexists. split; [vm_compute; reflexivity | reflexivity]. }
  destruct Hl as (before & Hl & Hcustomer).
  rewrite Hl in Hlinked.
  destruct Hlinked as ((after & Hafter & Hpaid & Hstatus & Huser & _) & _).
  exists after. split; [exact Hafter|]. split; [exact Hpaid|]. split; [exact Hstatus|].
  now rewrite Huser.
Defined.

Lemma convertToShipment_effect_witness :
  let stamp := fun _ : Z => "2023-11-14T22:13:20.000Z" in
  let booked := opening (snd (@createBooking Reference.platform trip fleet)) in
  let run := @convertToShipment Reference.platform stamp "-K0" booked in
  @convertToShipment Reference.platform stamp "-K0" (opening fleet)
    = (Throw "Booking not found", opening fleet)
  /\ fst run = Ok "-K3"
  /\ (exists after, bookings (db (world (snd run))) !! "-K0" = Some after
                    /\ b_status after = converted /\ b_shipmentId after = Some "-K3")
  /\ vehicles (db (world (snd run))) = vehicles (db (world booked)).
Proof.
  intros stamp booked run. split.
  - exact (@convertToShipment_effect Reference.platform stamp "-K0" (opening fleet)
             ltac:(discriminate)).
  - pose proof (@convertToShipment_effect Reference.platform stamp "-K0" booked
                  ltac:(discriminate)) as Hrun.
    cbv zeta in Hrun. fold run in Hrun.
    assert (Hb : exists booking, bookings (db (world booked)) !! "-K0" = Some booking).
    { eexists. vm_compute. reflexivity. }
    destruct Hb as (booking & Hb). rewrite Hb in Hrun.
    destruct Hrun as (Hkey & _ & (after & Hafter & Hstatus & Hshipment & _) & Hvehicles & _).
    split; [exact Hkey|]. split; [|exact Hvehicles].
    exists after. auto.
Defined.

End LedgerFacts.

(* ===================================================================== *)
(** * Further properties: the acquisition of positions *)
(* ===================================================================== *)

Module AcquisitionMore.
Import JS Geo Async Store FirebaseUtils DriverLocationUpdater Watch.
Import ThrottleFacts FallbackFacts AcquisitionFacts.
Local Open Scope string_scope.

Section WithPlatform.
Context `{Platform}.




(** X18. The two accuracy filters, with the vehicle resolved. A position of
    the watch is ignored altogether unless its accuracy is below 50 m; a
    position of a one-shot request is ignored when its accuracy is above
    100 m; a position that is let through goes to [updateLocation] as a
    [gps] reading that is not forced. An accuracy that is not a number is
    let through by the one-shot filter and stopped by the watch's. *)
Theorem accuracy_filters :
  forall (position : Position) (s : Session),
    vehicleIdRef (refs s) <> "" ->
    let reading :=
      updateLocation (vehicleIdRef (refs s)) (latitude position) (longitude position)
        gps false s in
    ((accuracy position <? 50)%float = false -> watch_callback position s = (Ok tt, s))
    /\ ((accuracy position <? 50)%float = true -> watch_callback position s = reading)
    /\ ((100 <? accuracy position)%float = true ->
        handleGeolocationSuccess position one_shot s = (Ok tt, s))
    /\ ((100 <? accuracy position)%float = false ->
        handleGeolocationSuccess position one_shot s = reading)
    /\ (nan <? 50)%float = false /\ (100 <? nan)%float = false.
Proof.
  intros position s Hcached reading. subst reading.
  unfold watch_callback, handleGeolocationSuccess, bind.
  rewrite getAssignedVehicle_cached by exact Hcached.
  split; [now intros ->|]. split; [|split; [|split]].
  - intros ->. cbv beta. rewrite getAssignedVehicle_cached by exact Hcached.
    now rewrite andb_false_r.
  - now intros ->.
  - now intros ->.
  - split; reflexivity.
Qed.



Lemma tryGPSLocation_refused_run (env : IPEnv) (error : GeolocationPositionError)
    (rest : list Outcome) (retryCount : nat) (s : Session) :
  vehicleIdRef (refs s) <> "" ->
  (retryCount < 3)%nat ->
  error <> TIMEOUT ->
  tryGPSLocation env (Failed error :: rest) retryCount s =
    (Ok false,
     snd (ip_fallback env (Some (vehicleIdRef (refs s))) (after_refusal error retryCount s))).
Proof.
  intros Hcached Hrc Herror. cbn [tryGPSLocation].
  replace (3 <=? retryCount)%nat with false by (symmetry; apply Nat.leb_gt; lia).
  unfold bind at 1, emit at 1, modify.
  unfold bind at 1, handleGeolocationError, bind at 1.
  rewrite getAssignedVehicle_cached by exact Hcached.
  destruct error; [| |contradiction].
  - unfold bind at 1, update_refs at 1, modify.
    unfold bind at 1, update_refs at 1, modify.
    match goal with
    | |- context [ip_fallback env ?v ?x] =>
        change x with (after_refusal PERMISSION_DENIED retryCount s);
        change v with (Some (vehicleIdRef (refs s)))
    end.
    destruct (within_ip_fallback env (Some (vehicleIdRef (refs s)))
                (after_refusal PERMISSION_DENIED retryCount s)) as ([] & s' & Hrun & _).
    rewrite Hrun. reflexivity.
  - unfold bind at 1, update_refs at 1, modify.
    unfold bind at 1, update_refs at 1, modify.
    match goal with
    | |- context [ip_fallback env ?v ?x] =>
        change x with (after_refusal POSITION_UNAVAILABLE retryCount s);
        change v with (Some (vehicleIdRef (refs s)))
    end.
    destruct (within_ip_fallback env (Some (vehicleIdRef (refs s)))
                (after_refusal POSITION_UNAVAILABLE retryCount s)) as ([] & s' & Hrun & _).
    rewrite Hrun. reflexivity.
Qed.

(** X20. A request refused with [PERMISSION_DENIED] or
    [POSITION_UNAVAILABLE], the vehicle being resolved, is not retried: the
    round resolves to [false] after that one request and the queries of
    [getIPLocation], with no timer set; the status is [denied] or
    [unavailable], the fallback is on, and the location [getIPLocation]
    gives is admitted as the last position at the time of the call, and
    stored for the vehicle when the driver is signed in. *)
Theorem tryGPSLocation_refused :
  forall (env : IPEnv) (error : GeolocationPositionError) (rest : list Outcome)
         (retryCount : nat) (s : Session),
    vehicleIdRef (refs s) <> "" ->
    (retryCount < 3)%nat ->
    error <> TIMEOUT ->
    let round := tryGPSLocation env (Failed error :: rest) retryCount s in
    exists location,
      fst (getIPLocation env s) = Ok (Some location)
      /\ fst round = Ok false
      /\ effects (snd round)
         = (effects s ++ GetCurrentPosition retryCount (attempt_options retryCount)
              :: List.map (fun service => Fetch service 5000)
                   (snd (first_usable env services)))%list
      /\ gpsStatus (refs (snd round)) = status_of error
      /\ useFallbackLocation (refs (snd round)) = true
      /\ lastLocationRef (refs (snd round)) = Some location
      /\ lastUpdateRef (refs (snd round)) = Date_clock (tick (world s))
      /\ (forall uid, currentUser (world s) = Some uid ->
            exists rec,
              vehicleLocations (db (world (snd round))) !! vehicleIdRef (refs s) = Some rec
              /\ l_lat rec = lat location /\ l_lng rec = lng location).
Proof.
  intros env error rest retryCount s Hcached Hrc Herror round.
  set (s0 := after_refusal error retryCount s).
  destruct (getIPLocation_returns env s0) as (location & Hloc).
  exists location.
  assert (Hsame : fst (getIPLocation env s) = fst (getIPLocation env s0))
    by (rewrite !getIPLocation_run; reflexivity).
  split; [now rewrite Hsame|].
  pose proof (getIPLocation_run env s0) as Hrun.
  destruct (getIPLocation env s0) as [r s1] eqn:Hip.
  cbn [fst] in Hloc. subst r.
  assert (Hs1 : s1 = add_effects
    (List.map (fun service => Fetch service 5000) (snd (first_usable env services))) s0)
    by congruence.
  subst round. rewrite tryGPSLocation_refused_run by assumption.
  unfold ip_fallback, bind. fold s0. rewrite Hip.
  assert (Hpass : passes s1 (lat location) (lng location) ip true = true).
  { unfold passes. cbn [negb andb]. now destruct (lastLocationRef (refs s1)). }
  assert (Hworld : world s1 = world s) by (rewrite Hs1; reflexivity).
  cbn [fst snd]. split; [reflexivity|].
  split; [|split; [|split; [|split; [|split]]]].
  - rewrite updateLocation_admitted by exact Hpass. cbn [snd effects].
    rewrite Hs1. subst s0. cbn [effects add_effects after_refusal set_refs].
    rewrite <- app_assoc. reflexivity.
  - rewrite updateLocation_admitted by exact Hpass. cbn [snd refs].
    rewrite Hs1.
    match goal with |- context [refs_after ip ?t ?r] => destruct t end; reflexivity.
  - rewrite updateLocation_admitted by exact Hpass. cbn [snd refs].
    rewrite refs_after_fallback, Hs1. reflexivity.
  - destruct (passes_admitted s1 (vehicleIdRef (refs s)) (lat location) (lng location)
                ip true Hpass) as (_ & _ & Hlast).
    rewrite Hlast. now destruct location.
  - destruct (passes_admitted s1 (vehicleIdRef (refs s)) (lat location) (lng location)
                ip true Hpass) as (_ & Hnow & _).
    rewrite Hnow, Hworld. reflexivity.
  - intros uid Hu.
    destruct (passes_persisted s1 (vehicleIdRef (refs s)) uid (lat location) (lng location)
                ip true Hpass) as (rec & Hrec & _ & Hlat & Hlng & _).
    { now rewrite Hworld. }
    exists rec. auto.
Qed.

(** X21. The window of the throttle. Once a reading has been admitted, every
    reading that is not forced and comes while the clock reads less than
    5000 ms more is dropped, whatever its position, its source and the
    vehicle it is for: the call reads the clock and does nothing else. *)
Theorem throttle_window :
  forall (s : Session) (vehicleId vehicleId2 : string)
         (latitude longitude latitude2 longitude2 : float)
         (source source2 : Source) (forceUpdate : bool),
    passes s latitude longitude source forceUpdate = true ->
    let first := updateLocation vehicleId latitude longitude source forceUpdate s in
    (Date_clock (tick (world (snd first))) - Date_clock (tick (world s)) < 5000)%Z ->
    dropped (snd first)
      (updateLocation vehicleId2 latitude2 longitude2 source2 false (snd first)).
Proof.
  intros s vehicleId vehicleId2 latitude longitude latitude2 longitude2
    source source2 forceUpdate Hpass first Hsoon.
  destruct (passes_admitted s vehicleId latitude longitude source forceUpdate Hpass)
    as (_ & Hnow & _).
  fold first in Hnow.
  apply updateLocation_dropped. unfold passes. rewrite Hnow. cbn [negb andb].
  now replace (Date_clock (tick (world (snd first))) - Date_clock (tick (world s)) <? 5000)%Z
    with true by (symmetry; apply Z.ltb_lt; exact Hsoon).
Qed.


End WithPlatform.

Import Scenario.

Lemma accuracy_filters_witness :
  let position := {| latitude := 12.9716; longitude := 77.5946; accuracy := 80 |} in
  @watch_callback Reference.platform position (driving first_reading)
    = (Ok tt, driving first_reading)
  /\ lastLocationRef (refs (snd (@handleGeolocationSuccess Reference.platform position
                                   one_shot (driving first_reading))))
     = Some {| lat := 12.9716; lng := 77.5946 |}.
Proof.
  intros position.
  destruct (@accuracy_filters Reference.platform position (driving first_reading)
              ltac:(discriminate)) as (Hwatch & _ & _ & Hshot & _).
  split; [exact (Hwatch eq_refl)|].
  rewrite (Hshot eq_refl). vm_compute. reflexivity.
Defined.


Lemma tryGPSLocation_refused_witness :
  let round := @tryGPSLocation Reference.platform second_answers
                 [Failed POSITION_UNAVAILABLE] 0 (driving first_reading) in
  fst round = Ok false
  /\ gpsStatus (refs (snd round)) = unavailable
  /\ useFallbackLocation (refs (snd round)) = true
  /\ lastLocationRef (refs (snd round)) = Some {| lat := 19.076; lng := 72.8777 |}.
Proof.
  intros round.
  destruct (@tryGPSLocation_refused Reference.platform second_answers POSITION_UNAVAILABLE
              [] 0 (driving first_reading)
              ltac:(discriminate) ltac:(lia) ltac:(discriminate))
    as (location & Hloc & Hok & _ & Hstatus & Hfallback & Hlast & _).
  assert (location = {| lat := 19.076; lng := 72.8777 |}) as ->.
  { vm_compute in Hloc. now injection Hloc as <-. }
  auto.
Defined.

Lemma throttle_window_witness :
  let first := @updateLocation Reference.platform "v1" 12.9716 77.5946 gps false
                 (driving first_reading) in
  dropped (snd first)
    (@updateLocation Reference.platform "v3" 13.0827 80.2707 ip false (snd first)).
Proof.
  intros first.
  apply (@throttle_window Reference.platform (driving first_reading) "v1" "v3"
           12.9716 77.5946 13.0827 80.2707 gps ip false).
  - vm_compute. reflexivity.
  - vm_compute. reflexivity.
Defined.

End AcquisitionMore.

(* ===================================================================== *)
(** * Further properties: the approximate location *)
(* ===================================================================== *)

Module FallbackLocationFacts.
Import JS Geo Async DriverLocationUpdater FallbackLocation.
Import FallbackFacts.
Local Open Scope string_scope.

Lemma ask_returns (env : IPEnv) (pending : list string) (asked : list string) :
  exists found asked', ask env pending asked = (Ok found, asked').
Proof.
  revert asked. induction pending as [|service rest IH]; intros asked.
  - eexists _, _. reflexivity.
  - cbn [ask]. unfold bind, modify.
    destruct (answer (replies env service)) as [|[] [[latitude longitude]|]]; try apply IH.
    destruct (truthy_field latitude && truthy_field longitude); [|apply IH].
    eexists _, _. reflexivity.
Qed.

Lemma ask_first (env : IPEnv) (service : string) (rest asked : list string)
    (location : Location) :
  answers_with env service location ->
  ask env (service :: rest) asked = (Ok (Some location), (asked ++ [service])%list).
Proof.
  intros [Hanswer Htruthy]. cbn [ask]. unfold bind, modify. rewrite Hanswer.
  destruct location as [latitude longitude]. cbn [fst snd] in Htruthy.
  now rewrite Htruthy.
Qed.

Lemma ask_none (env : IPEnv) (pending asked : list string) :
  (forall service, In service pending -> answer (replies env service) = NetworkError) ->
  ask env pending asked = (Ok None, (asked ++ pending)%list).
Proof.
  revert asked. induction pending as [|service rest IH]; intros asked Hdown.
  - cbn. now rewrite app_nil_r.
  - cbn [ask]. unfold bind, modify. rewrite (Hdown service) by now left.
    rewrite IH by (intros x Hx; apply Hdown; now right).
    now rewrite <- app_assoc.
Qed.

Lemma random_city_of_five (env : IPEnv) :
  exists city,
    nth_error indianCities (random_index (draw env) (List.length indianCities)) = Some city
    /\ In city indianCities.
Proof.
  destruct (nth_error indianCities (random_index (draw env) (List.length indianCities)))
    as [city|] eqn:Hn.
  - exists city. split; [reflexivity|]. eapply nth_error_In; exact Hn.
  - apply nth_error_None in Hn.
    pose proof (random_index_below (draw env) (List.length indianCities) ltac:(cbn; lia)).
    lia.
Qed.

Section WithPlatform.
Context `{Platform}.

(** X23. [getApproximateLocation] against [getIPLocation]. When [console.log]
    works it returns a location. When the first service answers with both
    coordinates it returns them as they came, after that one request and
    however long the answer took, whereas [getIPLocation] gives up on an
    answer that takes 5000 ms or more. When no service can be reached it has
    asked the three of them and returns one of its five cities, or, when
    [console.log] throws, fails, whereas [getIPLocation] then returns the
    centre of India. *)
Theorem getApproximateLocation_waits :
  forall (env : IPEnv) (asked : list string),
    let run := getApproximateLocation env asked in
    (console_fails env = false -> exists location, fst run = Ok (Some location))
    /\ (forall location, answers_with env "https://ipapi.co/json/" location ->
          run = (Ok (Some location), (asked ++ ["https://ipapi.co/json/"])%list)
          /\ (5000 <= latency (replies env "https://ipapi.co/json/") ->
              usable env "https://ipapi.co/json/" = None))
    /\ ((forall service, answer (replies env service) = NetworkError) ->
        snd run = (asked ++ services)%list
        /\ (console_fails env = false ->
            exists city, fst run = Ok (Some (of_city city)) /\ In city indianCities)
        /\ (console_fails env = true ->
            fst run = Throw "console.log"
            /\ forall s, fst (getIPLocation env s) = Ok (Some centre_of_India))).
Proof.
  intros env asked run. subst run. split; [|split].
  - intros Hconsole. unfold getApproximateLocation, bind.
    destruct (ask_returns env services asked) as (found & asked' & ->).
    destruct found as [location|]; [eexists; reflexivity|].
    rewrite Hconsole. destruct (random_city_of_five env) as (city & -> & _).
    eexists. reflexivity.
  - intros location Hanswers. split.
    + unfold getApproximateLocation, bind, services.
      now rewrite (ask_first env _ _ asked location Hanswers).
    + apply timed_out_unusable.
  - intros Hdown. unfold getApproximateLocation, bind.
    rewrite ask_none by (intros service _; apply Hdown).
    destruct (random_city_of_five env) as (city & Hcity & Hin).
    destruct (console_fails env) eqn:Hconsole.
    + split; [reflexivity|]. split; [discriminate|]. intros _. split; [reflexivity|].
      intros s. rewrite getIPLocation_run. cbn [fst].
      rewrite first_usable_none; [cbn [fst]; now rewrite Hconsole|].
      intros service _. unfold usable, fetch_with_abort. rewrite Hdown.
      now destruct (5000 <=? latency (replies env service))%Z.
    + split; [reflexivity|]. split; [|discriminate]. intros _.
      exists city. rewrite Hcity. split; [reflexivity | exact Hin].
Qed.

End WithPlatform.

Import Scenario.

(** The first service answers after 9 s: [getApproximateLocation] returns
    its coordinates, [getIPLocation] has moved on and ends on a city. *)
Example approximate_location_waits :
  getApproximateLocation offline []
    = (Ok (Some (JNumber 12.9716, JNumber 77.5946)), ["https://ipapi.co/json/"])
  /\ List.length
       (effects (snd (@getIPLocation Reference.platform offline (driving first_reading))))
     = 3%nat.
Proof. vm_compute. split; reflexivity. Qed.

End FallbackLocationFacts.

(* ===================================================================== *)
(** * Further properties: users and the items of a shipment *)
(* ===================================================================== *)

Module UserAndShipmentFacts.
Import JS Async Store FirebaseUtils Assignment Ledger UserUpdate.
Import AssignmentFacts.
Local Open Scope string_scope.

Lemma number_items_length (shipmentId : string) (items : list ItemInput) :
  forall index, List.length (number_items shipmentId index items) = List.length items.
Proof.
  induction items as [|item rest IH]; intros index; cbn; [reflexivity|]. now rewrite IH.
Qed.

Lemma number_items_nth (shipmentId : string) (items : list ItemInput) :
  forall (index i : nat) (item : ItemInput),
    nth_error items i = Some item ->
    exists stored,
      nth_error (number_items shipmentId index items) i = Some stored
      /\ m_id stored = shipmentId ++ "-item-" ++ toString (Z.of_nat (index + i + 1))
      /\ m_name stored = n_name item
      /\ m_quantity stored = n_quantity item
      /\ m_weight stored = or_zero (n_weight item)
      /\ m_value stored = or_zero (n_value item).
Proof.
  induction items as [|first rest IH]; intros index i item Hi.
  - destruct i; discriminate.
  - destruct i as [|i].
    + injection Hi as <-. eexists. split; [reflexivity|]. cbn.
      replace (index + 0 + 1)%nat with (index + 1)%nat by lia. auto.
    + cbn in Hi. destruct (IH (S index) i item Hi) as (stored & Hstored & Hid & Hrest).
      exists stored. split; [exact Hstored|].
      replace (index + S i + 1)%nat with (S index + i + 1)%nat by lia. auto.
Qed.

Section WithPlatform.
Context `{Platform}.
Variable toISOString : Z -> string.

(** X24. [updateUser] asks for no signed-in user and touches no vehicle. For
    a non-empty [userId] it completes, signed in or not, and merges the
    given fields into the user's record, which it creates when there is
    none; the other users and all vehicles are as before. So naming, through
    it, a vehicle that does not name the user as its driver leaves a
    database in which the user's vehicle does not point back. *)
Theorem updateUser_unchecked :
  forall (userId : string) (updates : UserPatch) (w : World),
    userId <> "" ->
    let run := updateUser userId updates w in
    fst run = Ok tt
    /\ users (db (snd run)) !! userId
       = Some (put_user updates (Date_clock (tick w))
                 (default no_user (users (db w) !! userId)))
    /\ (forall k, k <> userId -> users (db (snd run)) !! k = users (db w) !! k)
    /\ vehicles (db (snd run)) = vehicles (db w)
    /\ (forall v, q_assignedVehicleId updates = Some (Some v) ->
          (forall rec, vehicles (db w) !! v = Some rec -> v_driverId rec <> Some userId) ->
          ~ driver_side (db (snd run))).
Proof.
  intros userId updates w _ run. subst run.
  unfold updateUser, bind, Date_now, write, modify. cbn [fst snd db tick_once with_db].
  split; [reflexivity|].
  assert (Huser : users (patch_user userId (put_user updates (Date_clock (tick w))) (db w))
                    !! userId
                  = Some (put_user updates (Date_clock (tick w))
                            (default no_user (users (db w) !! userId))))
    by (rewrite users_patch_user, decide_True; reflexivity).
  split; [exact Huser|]. split; [|split].
  - intros k Hk. rewrite users_patch_user, decide_False by congruence. reflexivity.
  - reflexivity.
  - intros v Hv Hother Hds.
    destruct (Hds userId _ v Huser) as (rec & Hrec & Hdriver).
    + cbn. now rewrite Hv.
    + rewrite vehicles_patch_user in Hrec. exact (Hother rec Hrec Hdriver).
Qed.

(** X25. [createShipment] never throws. The shipment it stores under the
    pushed key is [pending], has equal creation and update stamps, and has
    one item for each item given, in the same order: the item at index [i]
    gets the identifier [<shipment id>-item-<i+1>], keeps its name and
    quantity, and has weight and value [0] when none (or [0], or not a
    number) was given. Nothing else of the database is written. *)
Theorem createShipment_items :
  forall (shipmentData : ShipmentData) (s : Books),
    let key := push_key (tick (world s)) in
    let run := createShipment toISOString shipmentData s in
    fst run = Ok key
    /\ (exists shipment,
          shipments (snd run) !! key = Some shipment
          /\ s_id shipment = key /\ s_status shipment = "pending"
          /\ s_createdAt shipment = s_updatedAt shipment
          /\ s_customerId shipment = sd_customerId shipmentData
          /\ List.length (s_items shipment) = List.length (sd_items shipmentData)
          /\ (forall i item, nth_error (sd_items shipmentData) i = Some item ->
                exists stored,
                  nth_error (s_items shipment) i = Some stored
                  /\ m_id stored = key ++ "-item-" ++ toString (Z.of_nat (i + 1))
                  /\ m_name stored = n_name item
                  /\ m_quantity stored = n_quantity item
                  /\ m_weight stored = or_zero (n_weight item)
                  /\ m_value stored = or_zero (n_value item)))
    /\ (forall k, k <> key -> shipments (snd run) !! k = shipments s !! k)
    /\ db (world (snd run)) = db (world s)
    /\ payments (snd run) = payments s.
Proof.
  intros shipmentData s key run. subst key run.
  unfold createShipment, bind, in_world, zoom, push, Date_now, modify, ret.
  cbn [fst snd world set_world shipments set_shipments db tick tick_once payments].
  split; [reflexivity|]. split; [|split; [|split]].
  - eexists. rewrite lookup_insert_eq. split; [reflexivity|].
    cbn [s_id s_status s_createdAt s_updatedAt s_customerId s_items].
    split; [reflexivity|]. split; [reflexivity|]. split; [reflexivity|].
    split; [reflexivity|]. split; [apply number_items_length|].
    intros i item Hi. exact (number_items_nth _ _ 0%nat i item Hi).
  - intros k Hk. rewrite lookup_insert_ne by congruence. reflexivity.
  - reflexivity.
  - reflexivity.
Qed.

End WithPlatform.

Import Scenario.

(** Signed out, the driver [d1] of [v3] is made to name [v2]. *)
Lemma updateUser_unchecked_witness :
  let run := @updateUser Reference.platform "d1" (names_vehicle "v2") fleet_signed_out in
  fst run = Ok tt
  /\ option_map u_assignedVehicleId (users (db (snd run)) !! "d1") = Some (Some "v2")
  /\ vehicles (db (snd run)) = vehicles fleet_db
  /\ ~ driver_side (db (snd run)).
Proof.
  intros run.
  destruct (@updateUser_unchecked Reference.platform "d1" (names_vehicle "v2")
              fleet_signed_out ltac:(discriminate))
    as (Hok & Huser & _ & Hvehicles & Hbroken).
  fold run in Hok, Huser, Hvehicles, Hbroken.
  split; [exact Hok|]. split; [now rewrite Huser|]. split; [exact Hvehicles|].
  apply (Hbroken "v2" eq_refl).
  intros rec Hrec. vm_compute in Hrec. injection Hrec as <-. discriminate.
Defined.

End UserAndShipmentFacts.

(* ===================================================================== *)
(** * Further properties: sequences of calls *)
(* ===================================================================== *)

Module OperationsFacts.
Import JS Geo Async Store TrackingCode FirebaseUtils StoreQueries BookingQueries.
Import Ledger Operations.
Import TrackingIdentityFacts LocationServiceFacts AssignmentFacts ThrottleFacts BookingMore.
Local Open Scope string_scope.

Section WithPlatform.
Context `{Platform}.
Variable toISOString : Z -> string.

Lemma getOrCreateTrackingId_derived (vehicleId : string) (w : World) :
  derived_ids (db w) -> derived_ids (db (snd (getOrCreateTrackingId vehicleId w))).
Proof.
  intros Hd. rewrite getOrCreateTrackingId_run.
  destruct (vehicleTrackingIds (db w) !! vehicleId) as [data|] eqn:E; [exact Hd|].
  destruct (currentUser w); [|exact Hd].
  intros v data. cbn. rewrite lookup_insert.
  destruct (decide (vehicleId = v)) as [<-|Hne]; [|apply Hd].
  intros [= <-]. split; reflexivity.
Qed.

Lemma updateLocation_derived (vehicleId : string) (lat lng : float)
    (options : option UpdateOptions) (w : World) :
  derived_ids (db w) -> derived_ids (db (snd (updateLocation vehicleId lat lng options w))).
Proof.
  intros Hd. destruct (currentUser w) as [uid|] eqn:Hu.
  - destruct (updateLocation_run vehicleId lat lng options w uid Hu) as (tid & _ & ->).
    exact (getOrCreateTrackingId_derived vehicleId w Hd).
  - now rewrite updateLocation_signed_out.
Qed.

Lemma assignDriver_keeps_tracking (vehicleId : string) (driverId : option string) (w : World) :
  vehicleTrackingIds (db (snd (assignDriver vehicleId driverId w)))
    = vehicleTrackingIds (db w).
Proof.
  unfold assignDriver, bind at 1. unfold requireAuth at 1.
  destruct (currentUser w) as [uid|]; [|reflexivity].
  destruct (truthy vehicleId); cbn [negb]; [|reflexivity].
  unfold try_catch, bind at 1. unfold get at 1, gets.
  destruct (vehicles (db w) !! vehicleId) as [v|]; [|reflexivity].
  unfold bind at 1.
  destruct driverId as [d|]; [destruct (truthy d)|].
  - unfold assign_branch, bind at 1. unfold get at 1, gets.
    destruct (users (db w) !! d) as [u|]; [|reflexivity].
    destruct (bool_decide (u_role u = Some "driver")); cbn [negb]; [|reflexivity].
    destruct (u_assignedVehicleId u) as [other|];
      [destruct (truthy other && negb (other =? vehicleId)%string)|];
      (destruct (or_null (v_driverId v)) as [previous|];
        [destruct (negb (previous =? d)%string)|]);
      reflexivity.
  - unfold unassign_branch.
    destruct (or_null (v_driverId v)) as [previous|]; reflexivity.
  - unfold unassign_branch.
    destruct (or_null (v_driverId v)) as [previous|]; reflexivity.
Qed.

Lemma perform_derived (w : World) (op : Operation) :
  derived_ids (db w) -> derived_ids (db (perform w op)).
Proof.
  intros Hd. destruct op as [v la lo o|v|v d|v|bookingData|bookingId updates|uid|];
    cbn [perform].
  - now apply updateLocation_derived.
  - now apply getOrCreateTrackingId_derived.
  - intros k data. rewrite assignDriver_keeps_tracking. apply Hd.
  - unfold deleteVehicle, bind, requireAuth, write, modify.
    destruct (currentUser w); [|exact Hd].
    intros k data. cbn. unfold remove_at. destruct (truthy v); [|discriminate].
    intros Hk. apply lookup_delete_Some in Hk as [_ Hk]. now apply Hd.
  - destruct (createBooking_run bookingData w) as (b & -> & _). exact Hd.
  - unfold updateBooking, markVehicleAsAvailable, bind, Date_now, get, gets, write, modify,
      throw, ret. cbn [db tick_once fst snd].
    destruct (bookings (db w) !! bookingId) as [current|]; [|exact Hd].
    destruct (is_terminal (p_status updates) && truthy (b_vehicleId current)); exact Hd.
  - exact Hd.
  - exact Hd.
Qed.

(** X26. [getAllBookings] throws [Not authenticated] when nobody is signed in;
    signed in it reads only and returns every stored booking, each once, the
    newest first. *)
Theorem getAllBookings_guarded :
  forall (w : World),
    match currentUser w with
    | None => getAllBookings w = (Throw "Not authenticated", w)
    | Some _ =>
        exists found,
          getAllBookings w = (Ok found, w)
          /\ (forall b, In b found <-> exists id, bookings (db w) !! id = Some b)
          /\ newest_first found
          /\ List.length found = List.length (map_to_list (bookings (db w)))
    end.
Proof.
  intros w. unfold getAllBookings, bind, requireAuth, gets.
  destruct (currentUser w) as [uid|]; [|reflexivity].
  eexists. split; [reflexivity|]. split; [|split].
  - intros b. rewrite sort_newest_first_In, select_In.
    split; [intros (id & Hid & _); eauto | intros (id & Hid); eauto].
  - apply sort_newest_first_sorted.
  - rewrite sort_newest_first_length. unfold select. rewrite List.length_map.
    f_equal. induction (map_to_list (bookings (db w))) as [|x l IH]; cbn; congruence.
Qed.

Lemma savePayment_linked (userId : string) (payment : PaymentInput) (s : Books)
    (bookingId : string) (before : Booking) :
  or_null (i_bookingId payment) = Some bookingId ->
  bookings (db (world s)) !! bookingId = Some before ->
  exists key s',
    savePayment userId payment s = (Ok key, s')
    /\ bookings (db (world s')) !! bookingId
       = Some (apply_patch (bookingUpdate payment)
                 (Date_clock (S (S (tick (world s))))) before)
    /\ vehicles (db (world s')) = vehicles (db (world s)).
Proof.
  intros Hor Hbefore.
  unfold savePayment, bind, in_world, zoom, push, Date_now, get, gets, write, modify, ret.
  cbn [fst snd world set_world db tick_once]. rewrite Hor. cbn. rewrite Hbefore. cbn.
  eexists _, _. split; [reflexivity|]. cbn. rewrite lookup_insert_eq. auto.
Qed.

Lemma convertToShipment_stored (bookingId : string) (s : Books) (booking : Booking) :
  bookings (db (world s)) !! bookingId = Some booking ->
  exists key now s',
    convertToShipment toISOString bookingId s = (Ok key, s')
    /\ bookings (db (world s')) !! bookingId
       = Some (apply_patch
                 {| p_status := Some converted; p_paymentStatus := None; p_vehicleId := None;
                    p_driverId := None; p_paymentId := None; p_shipmentId := Some key |}
                 now booking)
    /\ vehicles (db (world s')) = vehicles (db (world s)).
Proof.
  intros Hbooking. destruct s as [[d cu tk] pay ship]. cbn in Hbooking.
  unfold convertToShipment, createShipment, updateBooking, getBookingById,
    bind, in_world, zoom, push, Date_now, get, gets, write, modify, throw, ret.
  cbn [fst snd world set_world db tick tick_once]. rewrite Hbooking. cbn. rewrite Hbooking.
  cbn. eexists _, _, _. split; [reflexivity|]. cbn. rewrite lookup_insert_eq. auto.
Qed.

Lemma updateBooking_completed (bookingId : string) (w : World) (current : Booking) :
  bookings (db w) !! bookingId = Some current ->
  b_vehicleId current <> "" ->
  exists now w',
    updateBooking bookingId
      {| p_status := Some completed; p_paymentStatus := None; p_vehicleId := None;
         p_driverId := None; p_paymentId := None; p_shipmentId := None |} w = (Ok tt, w')
    /\ (exists b, bookings (db w') !! bookingId = Some b /\ b_status b = completed)
    /\ vehicles (db w') !! b_vehicleId current
       = Some (put_available true now
                 (default no_vehicle (vehicles (db w) !! b_vehicleId current))).
Proof.
  intros Hcurrent Hvehicle. apply truthy_nonempty in Hvehicle.
  unfold updateBooking, markVehicleAsAvailable, bind, Date_now, get, gets, write, modify,
    throw, ret.
  cbn [db tick_once fst snd]. rewrite Hcurrent. cbn [is_terminal p_status andb].
  rewrite Hvehicle. cbn.
  eexists _, _. split; [reflexivity|]. cbn. split.
  - eexists. rewrite lookup_insert_eq. split; reflexivity.
  - now rewrite lookup_insert_eq.
Qed.

(** X27. A booking from creation to completion. A booking is made for a
    vehicle, paid with success by any user, and turned into a shipment: at
    that point it is [converted], [paid] and names the shipment, and the
    vehicle is still marked unavailable; only when the booking is then set
    to [completed] is the vehicle marked available again. *)
Theorem booking_lifecycle :
  forall (bookingData : BookingData) (payer orderId paymentId : string) (amount : float)
         (s : Books),
    d_vehicleId bookingData <> "" ->
    payer <> "" ->
    push_key (tick (world s)) <> "" ->
    let key := push_key (tick (world s)) in
    let payment :=
      {| i_orderId := orderId; i_paymentId := paymentId; i_amount := amount;
         i_status := pay_success; i_currency := None; i_bookingId := Some key |} in
    let booked := snd (in_world (createBooking bookingData) s) in
    let paid_for := snd (savePayment payer payment booked) in
    let shipped := convertToShipment toISOString key paid_for in
    let done := snd (in_world (updateBooking key
      {| p_status := Some completed; p_paymentStatus := None; p_vehicleId := None;
         p_driverId := None; p_paymentId := None; p_shipmentId := None |}) (snd shipped)) in
    (exists shipmentId b,
        fst shipped = Ok shipmentId
        /\ bookings (db (world (snd shipped))) !! key = Some b
        /\ b_status b = converted /\ b_paymentStatus b = paid
        /\ b_shipmentId b = Some shipmentId
        /\ b_userId b = d_userId bookingData)
    /\ (exists v, vehicles (db (world (snd shipped))) !! d_vehicleId bookingData = Some v
                  /\ v_available v = Some false)
    /\ (exists v, vehicles (db (world done)) !! d_vehicleId bookingData = Some v
                  /\ v_available v = Some true)
    /\ (exists b, bookings (db (world done)) !! key = Some b /\ b_status b = completed).
Proof.
  intros bookingData payer orderId paymentId amount s Hvehicle _ Hkey
    key payment booked paid_for shipped done.
  assert (Hor : or_null (i_bookingId payment) = Some key)
    by (apply or_null_Some; split; [reflexivity | exact Hkey]).
  destruct (createBooking_run bookingData (world s))
    as (b0 & Hcreate & _ & _ & Huser & Hvid & _ & _ & _).
  assert (Hbooked : booked = set_world (snd (createBooking bookingData (world s))) s).
  { subst booked. unfold in_world, zoom.
    now destruct (createBooking bookingData (world s)). }
  rewrite Hcreate in Hbooked. cbn [snd] in Hbooked. fold key in Hbooked.
  assert (Hb0 : bookings (db (world booked)) !! key = Some b0).
  { rewrite Hbooked. cbn. apply lookup_insert_eq. }
  assert (Hv0 : exists v, vehicles (db (world booked)) !! d_vehicleId bookingData = Some v
                          /\ v_available v = Some false).
  { rewrite Hbooked. cbn [world set_world db].
    rewrite vehicles_patch_vehicle, decide_True by reflexivity. eexists. split; reflexivity. }
  destruct (savePayment_linked payer payment booked key b0 Hor Hb0)
    as (payKey & s2 & Hpay & Hb2 & Hv2).
  assert (Hpaid : paid_for = s2) by (subst paid_for; now rewrite Hpay).
  destruct (convertToShipment_stored key s2 _ Hb2) as (shipKey & now3 & s3 & Hship & Hb3 & Hv3).
  assert (Hshipped : shipped = (Ok shipKey, s3)) by (subst shipped; now rewrite Hpaid).
  rewrite Hshipped in *. cbn [fst snd] in *.
  split; [|split].
  - eexists _, _. split; [reflexivity|]. split; [exact Hb3|]. cbn.
    repeat split. exact Huser.
  - rewrite Hv3, Hv2. exact Hv0.
  - destruct (updateBooking_completed key (world s3) _ Hb3) as (now4 & w4 & Hdone & Hb4 & Hv4).
    { cbn. now rewrite Hvid. }
    assert (Hw4 : world done = w4).
    { subst done. rewrite ?Hshipped. unfold in_world, zoom. cbn [snd]. now rewrite Hdone. }
    rewrite Hw4. split; [|exact Hb4].
    cbn [b_vehicleId apply_patch p_vehicleId default bookingUpdate] in Hv4.
    rewrite Hvid in Hv4. rewrite Hv4. eexists. split; reflexivity.
Qed.

(** X28. The derived tracking code does not tell vehicles apart: there are two
    distinct vehicle identifiers with the same code, and when both vehicles
    report a location from a database without tracking records for them,
    both are given that code, which [getTrackingId] then returns for each. *)
Theorem tracking_codes_collide :
  exists vehicleA vehicleB : string,
    vehicleA <> vehicleB
    /\ generateConsistentTrackingId vehicleA = generateConsistentTrackingId vehicleB
    /\ forall (uid : string) (w : World) (latA lngA latB lngB : float),
         currentUser w = Some uid ->
         vehicleTrackingIds (db w) !! vehicleA = None ->
         vehicleTrackingIds (db w) !! vehicleB = None ->
         let first := updateLocation vehicleA latA lngA None w in
         let second := updateLocation vehicleB latB lngB None (snd first) in
         exists code,
           fst first = Ok {| updated := true; trackingId := code |}
           /\ fst second = Ok {| updated := true; trackingId := code |}
           /\ fst (getTrackingId vehicleA (snd second)) = Ok (Some code)
           /\ fst (getTrackingId vehicleB (snd second)) = Ok (Some code).
Proof.
  exists "truck-1008", "truck-2070".
  split; [discriminate|]. split; [vm_compute; reflexivity|].
  intros uid w latA lngA latB lngB Hu HA HB first second.
  assert (Hcode : generateConsistentTrackingId "truck-2070"
                  = generateConsistentTrackingId "truck-1008") by (vm_compute; reflexivity).
  exists (generateConsistentTrackingId "truck-1008").
  destruct (updateLocation_run "truck-1008" latA lngA None w uid Hu) as (tidA & HtidA & HrunA).
  rewrite getOrCreateTrackingId_run, HA, Hu in HtidA, HrunA. cbn [fst snd] in HtidA, HrunA.
  injection HtidA as <-.
  fold first in HrunA.
  assert (Hu1 : currentUser (snd first) = Some uid) by (rewrite HrunA; exact Hu).
  assert (HB1 : vehicleTrackingIds (db (snd first)) !! "truck-2070" = None).
  { rewrite HrunA. cbn. rewrite lookup_insert_ne by discriminate. exact HB. }
  assert (HA1 : option_map t_trackingId (vehicleTrackingIds (db (snd first)) !! "truck-1008")
                = Some (generateConsistentTrackingId "truck-1008")).
  { rewrite HrunA. cbn. now rewrite lookup_insert_eq. }
  destruct (updateLocation_run "truck-2070" latB lngB None (snd first) uid Hu1)
    as (tidB & HtidB & HrunB).
  rewrite getOrCreateTrackingId_run, HB1, Hu1 in HtidB, HrunB. cbn [fst snd] in HtidB, HrunB.
  injection HtidB as <-.
  fold second in HrunB.
  split; [now rewrite HrunA|]. split; [rewrite HrunB, Hcode; reflexivity|].
  unfold getTrackingId, bind, get, gets, ret. rewrite HrunB. cbn [fst snd db with_db
    vehicleTrackingIds set_vehicleTrackingIds set_vehicleLocations tick_once].
  split.
  - rewrite lookup_insert_ne by discriminate.
    destruct (vehicleTrackingIds (db (snd first)) !! "truck-1008") as [data|];
      [|discriminate]. cbn in HA1 |- *. now injection HA1 as ->.
  - rewrite lookup_insert_eq. cbn. now rewrite Hcode.
Qed.

(** X29. Every tracking record is the derived one, for ever. When each stored
    tracking record holds the code derived from its vehicle identifier, this
    is still so after any sequence of location updates, tracking-id
    requests, assignments, removals of vehicles, creations and updates of
    bookings, sign-ins and sign-outs, whether the calls return or throw; so
    [getTrackingId] answers, for every vehicle, nothing or the derived
    code. *)
Theorem tracking_ids_stay_derived :
  forall (ops : list Operation) (w : World),
    derived_ids (db w) ->
    derived_ids (db (perform_all ops w))
    /\ forall vehicleId,
         fst (getTrackingId vehicleId (perform_all ops w)) = Ok None
         \/ fst (getTrackingId vehicleId (perform_all ops w))
            = Ok (Some (generateConsistentTrackingId vehicleId)).
Proof.
  intros ops w Hd.
  assert (Hall : derived_ids (db (perform_all ops w))).
  { unfold perform_all. revert w Hd. induction ops as [|op ops IH]; intros w Hd; [exact Hd|].
    cbn [fold_left]. apply IH. now apply perform_derived. }
  split; [exact Hall|].
  intros vehicleId. unfold getTrackingId, bind, get, gets, ret. cbn [fst].
  destruct (vehicleTrackingIds (db (perform_all ops w)) !! vehicleId) as [data|] eqn:E;
    [right | now left].
  cbn. now rewrite (proj1 (Hall vehicleId data E)).
Qed.

End WithPlatform.

Import Scenario.

Lemma booking_lifecycle_witness :
  let stamp := fun _ : Z => "2023-11-14T22:13:20.000Z" in
  let payment :=
    {| i_orderId := "order_1"; i_paymentId := "pay_1"; i_amount := 633.6;
       i_status := pay_success; i_currency := None; i_bookingId := Some "-K0" |} in
  let booked := snd (in_world (@createBooking Reference.platform trip) (opening fleet)) in
  let paid_for := snd (@savePayment Reference.platform "c1" payment booked) in
  let shipped := @convertToShipment Reference.platform stamp "-K0" paid_for in
  (exists v, vehicles (db (world (snd shipped))) !! "v2" = Some v
             /\ v_available v = Some false)
  /\ (exists b, bookings (db (world (snd shipped))) !! "-K0" = Some b
                /\ b_status b = converted /\ b_paymentStatus b = paid).
Proof.
  intros stamp payment booked paid_for shipped.
  destruct (@booking_lifecycle Reference.platform stamp trip "c1" "order_1" "pay_1" 633.6
              (opening fleet) ltac:(discriminate) ltac:(discriminate)
              ltac:(vm_compute; discriminate))
    as ((shipmentId & b & _ & Hb & Hconverted & Hpaid & _) & Hbusy & _).
  split; [exact Hbusy|]. exists b. auto.
Defined.

Lemma tracking_ids_stay_derived_witness :
  let ops :=
    [ UpdateLocation "v1" 12.9716 77.5946 None; SignIn "d2";
      UpdateLocation "v1" 12.9716 77.5946 None; AssignDriver "v2" (Some "d2");
      DeleteVehicle "v3"; SignOut; GetOrCreateTrackingId "v2" ] in
  fst (getTrackingId "v1" (@perform_all Reference.platform ops fleet_signed_out))
    = Ok (Some (generateConsistentTrackingId "v1"))
  /\ fst (getTrackingId "v2" (@perform_all Reference.platform ops fleet_signed_out))
     = Ok None.
Proof.
  intros ops.
  assert (Hempty : derived_ids (db fleet_signed_out)).
  { intros v data Hv. cbn in Hv. rewrite lookup_empty in Hv. discriminate. }
  destruct (@tracking_ids_stay_derived Reference.platform ops fleet_signed_out Hempty)
    as (_ & Hget).
  split.
  - destruct (Hget "v1") as [Hnone|Hsome]; [|exact Hsome].
    vm_compute in Hnone. discriminate.
  - destruct (Hget "v2") as [Hnone|Hsome]; [exact Hnone|].
    vm_compute in Hsome. discriminate.
Defined.

End OperationsFacts.
